(** * Confidence-gated retrieval and generation pipeline

    A shallow embedding of [backend_core.py], of [ask] and its helpers in
    [ui_gradio.py] and of the verdict of [smoketest_rag.py], with the
    properties of the pipeline stated over it.

    Conventions of the embedding.
    - A Python [float] is an IEEE binary64 value: Rocq's primitive [float].
      Comparisons are the IEEE ones (every comparison with NaN is false).
    - A Python [str] is a [string]; the text is taken at the ASCII level, so
      the members of [\s], [\d], [\w] and of case folding that lie outside
      ASCII are outside the model.
    - A JSON object read with [.get] is a record of [field]s: a key can be
      missing, hold [null], or hold a value.
    - A call that can raise returns an [outcome]; the two backends are
      functions of the calls made so far, and every call is logged in the
      [world]. *)

From Stdlib Require Import ZArith List Bool Ascii String Lia.
From Stdlib Require Import Floats DecimalString DecimalPos Permutation.
Import ListNotations.

Set Warnings "-inexact-float".

Local Open Scope list_scope.
Local Open Scope string_scope.

(** ** Python values *)

Module Py.

(** Result of [d.get(key)] on a decoded JSON object. *)
Inductive field (A : Type) : Type :=
| Missing
| Null
| Present (a : A).
Arguments Missing {A}.
Arguments Null {A}.
Arguments Present {A} a.

(** [d.get(key)]: [None] when the key is missing or null. *)
Definition get {A} (f : field A) : option A :=
  match f with
  | Present a => Some a
  | _ => None
  end.

(** An exception, with the text [str(e)] gives. *)
Inductive exn : Type := Exn (msg : string).

Definition str_exn (e : exn) : string := let 'Exn m := e in m.

Inductive outcome (A : Type) : Type :=
| Returned (a : A)
| Raised (e : exn).
Arguments Returned {A} a.
Arguments Raised {A} e.

(** The builtin [min(a, b)] and [max(a, b)] on floats: the first argument is
    kept unless the second compares strictly below (above) it. *)
Definition min (a b : float) : float := if PrimFloat.ltb b a then b else a.
Definition max (a b : float) : float := if PrimFloat.ltb a b then b else a.

(** [max(iterable)] on a non-empty sequence whose first item is [x]. *)
Definition max_of (x : float) (xs : list float) : float := fold_left max xs x.

(** [a >= b] *)
Definition ge (a b : float) : bool := PrimFloat.leb b a.

(** A JSON scalar, as the relevance envelope may carry it. *)
Inductive scalar : Type :=
| SNum (f : float)
| SInt (z : Z)
| SStr (s : string)
| SBool (b : bool).

(** [float(n)] for an int: the nearest binary64, [OverflowError] when that
    is not finite. *)
Definition float_of_int (z : Z) : option float :=
  match binary_normalize prec emax z 0 false with
  | S754_infinity _ => None
  | sf => Some (SF2Prim sf)
  end.

End Py.

Import Py.

(** ** Text: [str] methods and the regular expressions of the pipeline *)

Module Text.

Definition nl_char : ascii := "010"%char.
Definition nl : string := String nl_char "".

Definition code (c : ascii) : nat := nat_of_ascii c.

(** [c.isspace()]: tab, line feed, vertical tab, form feed, carriage
    return, the four separators 28..31, and the space. *)
Definition is_space (c : ascii) : bool :=
  let n := code c in
  ((9 <=? n) && (n <=? 13) || (28 <=? n) && (n <=? 32))%nat.

(** [\d] *)
Definition is_digit (c : ascii) : bool :=
  let n := code c in ((48 <=? n) && (n <=? 57))%nat.

Definition is_upper (c : ascii) : bool :=
  let n := code c in ((65 <=? n) && (n <=? 90))%nat.

Definition is_lower (c : ascii) : bool :=
  let n := code c in ((97 <=? n) && (n <=? 122))%nat.

(** [\w] *)
Definition is_word (c : ascii) : bool :=
  is_upper c || is_lower c || is_digit c || Ascii.eqb c "_".

Definition lower (c : ascii) : ascii :=
  if is_upper c then ascii_of_nat (code c + 32) else c.

(** Two characters match under [re.IGNORECASE]. *)
Definition eqb_ci (a b : ascii) : bool := Ascii.eqb (lower a) (lower b).

(** The literal [p] matches at the start of [s], case ignored. *)
Fixpoint prefix_ci (p s : string) : bool :=
  match p, s with
  | EmptyString, _ => true
  | String a p', String b s' => eqb_ci a b && prefix_ci p' s'
  | String _ _, EmptyString => false
  end.

(** [s[n:]] *)
Fixpoint drop (n : nat) (s : string) : string :=
  match n, s with
  | O, _ => s
  | S n', String _ s' => drop n' s'
  | S _, EmptyString => EmptyString
  end.

Definition is_empty (s : string) : bool :=
  match s with EmptyString => true | _ => false end.

(** [s.lstrip()], [s.rstrip()], [s.strip()] *)
Fixpoint lstrip (s : string) : string :=
  match s with
  | String c t => if is_space c then lstrip t else s
  | EmptyString => EmptyString
  end.

Fixpoint rstrip (s : string) : string :=
  match s with
  | String c t =>
      let r := rstrip t in
      if is_space c && is_empty r then EmptyString else String c r
  | EmptyString => EmptyString
  end.

Definition strip (s : string) : string := lstrip (rstrip s).

(** [sep.join(parts)] *)
Definition join (sep : string) (parts : list string) : string :=
  String.concat sep parts.

(** [str(n)] for an int. *)
Definition str_int (n : Z) : string := NilZero.string_of_int (Z.to_int n).

(** *** Regular expressions

    A pattern is given by its matcher: the length of the match that starts
    at the beginning of the text, if there is one.  The matcher also sees
    the character before that position ([None] at the start of the whole
    text), for [^] and [\b]. *)
Definition matcher : Type := option ascii -> string -> option nat.

(** [m.start()] of [re.search]: the text from the leftmost match on. *)
Fixpoint search_from (re : matcher) (prev : option ascii) (s : string) : option string :=
  match re prev s with
  | Some _ => Some s
  | None =>
      match s with
      | String c t => search_from re (Some c) t
      | EmptyString => None
      end
  end.

Definition re_search (re : matcher) (s : string) : option string :=
  search_from re None s.

Definition re_found (re : matcher) (s : string) : bool :=
  match re_search re s with Some _ => true | None => false end.

(** [re.sub(pattern, "", s)]: every match, left to right, is deleted and
    the scan resumes behind it; [skip] counts the characters of the current
    match that are still to be deleted. *)
Fixpoint sub_from (re : matcher) (skip : nat) (prev : option ascii) (s : string) : string :=
  match s with
  | EmptyString => EmptyString
  | String c t =>
      match skip with
      | S n => sub_from re n (Some c) t
      | O =>
          match re prev s with
          | Some (S n) => sub_from re n (Some c) t
          | _ => String c (sub_from re 0 (Some c) t)
          end
      end
  end.

Definition re_sub (re : matcher) (s : string) : string := sub_from re 0 None s.

(** *** [(?is)<think>.*?(?:</think>|$)]

    Behind the opening marker the lazy [.*?] stops at the first position
    where the closing marker starts or where [$] holds: at the end of the
    text, or just before a line feed that ends the text.  [lazy_close r] is
    the length of [.*?(?:</think>|$)] on [r]. *)
Fixpoint lazy_close (r : string) : nat :=
  match r with
  | EmptyString => 0
  | String c t =>
      if prefix_ci "</think>" r then 8
      else if Ascii.eqb c nl_char && is_empty t then 0
      else S (lazy_close t)
  end.

Definition think_re : matcher := fun _ s =>
  if prefix_ci "<think>" s then Some (7 + lazy_close (drop 7 s))%nat else None.

(** *** [(?ims)\n+Sources?:[\s\S]*\Z]

    A match starts at a line feed when, behind the whole run of line feeds,
    the text reads [Source:] or [Sources:], case ignored; it extends to the
    end of the text. *)
Fixpoint sources_header (t : string) : bool :=
  match t with
  | String c t' =>
      if Ascii.eqb c nl_char then sources_header t'
      else prefix_ci "sources:" t || prefix_ci "source:" t
  | EmptyString => false
  end.

Definition sources_re : matcher := fun _ s =>
  match s with
  | String c t =>
      if Ascii.eqb c nl_char && sources_header t
      then Some (String.length s) else None
  | EmptyString => None
  end.

(** *** [\[\d+\]] *)

(** The digits at the start of [s], and what follows them. *)
Fixpoint span_digits (s : string) : string * string :=
  match s with
  | String c t =>
      if is_digit c then let '(d, r) := span_digits t in (String c d, r)
      else (EmptyString, s)
  | EmptyString => (EmptyString, EmptyString)
  end.

(** [int(digits)] *)
Definition int_of_digits (d : string) : N :=
  fold_left (fun acc c => (10 * acc + N.of_nat (code c - 48))%N)
            (list_ascii_of_string d) 0%N.

(** The digits of the citation marker at the start of [s]. *)
Definition cite_at (s : string) : option string :=
  match s with
  | String "[" t =>
      match span_digits t with
      | (String d ds, String "]" _) => Some (String d ds)
      | _ => None
      end
  | _ => None
  end.

Definition cite_re : matcher := fun _ s =>
  match cite_at s with
  | Some d => Some (String.length d + 2)%nat
  | None => None
  end.

(** [re.search(r"\[\d+\]", s)] finds a match. *)
Definition has_citation (s : string) : bool := re_found cite_re s.

(** The indices of all the citation markers of [s], in order:
    [[int(d) for d in re.findall(r"\[(\d+)\]", s)]]. *)
Fixpoint citations (s : string) : list N :=
  match s with
  | String c t =>
      match cite_at s with
      | Some d => int_of_digits d :: citations t
      | None => citations t
      end
  | EmptyString => []
  end.

(** *** [(?i)\bautocad\b]

    The word boundaries are those of an ASCII text: [\w] is a letter, a
    digit or the underscore.  Python counts the letters and digits of
    every script as [\w], so on a text with other characters (the word
    between two CJK letters, say) its boundaries are not these; the
    properties that depend on the boundaries are stated for ASCII
    texts. *)

Definition starts_with_word (s : string) : bool :=
  match s with String c _ => is_word c | EmptyString => false end.

Definition after_word (prev : option ascii) : bool :=
  match prev with Some c => is_word c | None => false end.

Definition autocad_re : matcher := fun prev s =>
  if negb (after_word prev) && prefix_ci "autocad" s
     && negb (starts_with_word (drop 7 s))
  then Some 7%nat else None.

(** [re.search(r"\bautocad\b", s, re.I)] finds a match. *)
Definition mentions_autocad (s : string) : bool := re_found autocad_re s.

(** *** [(?is)<think>.*?</think>\s*] *)

(** The length of [.*?</think>] on [r]. *)
Fixpoint to_close (r : string) : option nat :=
  match r with
  | EmptyString => None
  | String c t =>
      if prefix_ci "</think>" r then Some 8%nat
      else match to_close t with Some n => Some (S n) | None => None end
  end.

(** The length of [\s*] on [r]. *)
Fixpoint spaces (r : string) : nat :=
  match r with
  | String c t => if is_space c then S (spaces t) else 0
  | EmptyString => 0
  end.

Definition think_block_re : matcher := fun _ s =>
  if prefix_ci "<think>" s
  then match to_close (drop 7 s) with
       | Some n => Some (7 + n + spaces (drop n (drop 7 s)))%nat
       | None => None
       end
  else None.

(** *** [(?:^|\n)(###\s.+|[-*]\s+.+|\d+\.\s+.+)] *)

(** The length of [.+] on [r]: the rest of the line. *)
Fixpoint line_rest (r : string) : nat :=
  match r with
  | String c t => if Ascii.eqb c nl_char then 0 else S (line_rest t)
  | EmptyString => 0
  end.

(** The length of [\s+.+] on [r]: [\s+] takes as many characters of the
    run of whitespace as leave a character that is not a line feed. *)
Fixpoint spaces_line (r : string) : option nat :=
  match r with
  | String c t =>
      if is_space c
      then match spaces_line t with
           | Some n => Some (S n)
           | None =>
               match line_rest t with
               | O => None
               | n => Some (S n)
               end
           end
      else None
  | EmptyString => None
  end.

(** The length of [###\s.+|[-*]\s+.+|\d+\.\s+.+] on [s]. *)
Definition list_item (s : string) : option nat :=
  let hashes :=
    if prefix "###" s
    then match drop 3 s with
         | String c t =>
             if is_space c
             then match line_rest t with O => None | n => Some (4 + n)%nat end
             else None
         | EmptyString => None
         end
    else None in
  let bullet :=
    match s with
    | String c t =>
        if Ascii.eqb c "-" || Ascii.eqb c "*"
        then option_map S (spaces_line t) else None
    | EmptyString => None
    end in
  let numbered :=
    match span_digits s with
    | (String d ds, String "." t) =>
        option_map (fun n => String.length (String d ds) + 1 + n)%nat (spaces_line t)
    | _ => None
    end in
  match hashes, bullet with
  | Some n, _ => Some n
  | None, Some n => Some n
  | None, None => numbered
  end.

Definition heading_re : matcher := fun prev s =>
  let at_start :=
    match prev with None => list_item s | Some _ => None end in
  match at_start with
  | Some n => Some n
  | None =>
      match s with
      | String c t =>
          if Ascii.eqb c nl_char then option_map S (list_item t) else None
      | EmptyString => None
      end
  end.

End Text.

Import Text.

(** ** Data model *)

(** The retrieval strategy: [Literal["hybrid", "vector", "bm25"]]. *)
Inductive mode : Type := hybrid | bm25 | vector.

Definition mode_eqb (a b : mode) : bool :=
  match a, b with
  | hybrid, hybrid | bm25, bm25 | vector, vector => true
  | _, _ => false
  end.

Definition mode_name (m : mode) : string :=
  match m with hybrid => "hybrid" | bm25 => "bm25" | vector => "vector" end.

(** The relevance envelope [_additional] of a hit. *)
Record additional : Type := {
  score : field scalar;
  distance : field scalar
}.

(** A hit: the chunk properties the pipeline reads, and the envelope. *)
Record hit : Type := {
  _additional : field additional;
  page_title : field string;
  toc_title : field string;
  chunk_text : field string;
  page_url : field string;
  breadcrumb : field (list string);
  chunk_index : field Z;
  video_links : field (list string)
}.

(** The decoded GraphQL response: [{"data": {"Get": {CLASS_NAME: [...]}}}]. *)
Record get_body : Type := { class_hits : field (list hit) }.
Record data_body : Type := { Get : field get_body }.
Record response : Type := { data : field data_body }.

(** One retrieval request; [alpha] is sent with [hybrid] only. *)
Record search_call : Type := {
  s_query : string;
  s_limit : Z;
  s_mode : mode;
  s_alpha : option float
}.

(** One generation request ([temperature] is always 0.1, [stream] false). *)
Record gen_call : Type := {
  g_model : string;
  g_prompt : string;
  g_num_predict : Z
}.

(** The requests sent so far, oldest first. *)
Record world : Type := {
  searches : list search_call;
  generations : list gen_call
}.

Definition fresh : world := {| searches := []; generations := [] |}.

(** What lies outside the repository: the conversion [float(str)], the two
    backends, and the environment settings read at import time. *)
Record env : Type := {
  (** [float(s)] for a [str]; [None] stands for [ValueError]. *)
  float_of_str : string -> option float;
  (** [qget.do()]: the decoded response (or [None]), or an error. *)
  weaviate_do : world -> search_call -> outcome (option response);
  (** [requests.post(...)], [raise_for_status()], [r.json()]: the
      ["response"] entry of the decoded body, or an error. *)
  ollama_post : world -> gen_call -> outcome (field string);
  OOD_MIN_SCORE : float;
  OOD_MIN_SIM : float;
  MODEL : string;
  DEBUG_RETRIEVAL : bool
}.

(** Computations that send requests and may raise. *)
Definition M (A : Type) : Type := world -> outcome A * world.

Definition ret {A} (a : A) : M A := fun w => (Returned a, w).

Definition raise {A} (e : exn) : M A := fun w => (Raised e, w).

Definition bind {A B} (m : M A) (k : A -> M B) : M B :=
  fun w =>
    match m w with
    | (Returned a, w') => k a w'
    | (Raised e, w') => (Raised e, w')
    end.

(** [try: m  except Exception as e: h e] *)
Definition try_except {A} (m : M A) (h : exn -> M A) : M A :=
  fun w =>
    match m w with
    | (Returned a, w') => (Returned a, w')
    | (Raised e, w') => h e w'
    end.

Declare Scope py_scope.
Delimit Scope py_scope with py.
Notation "x <- m ;; k" := (bind m (fun x => k))
  (at level 61, m at next level, right associativity) : py_scope.
Local Open Scope py_scope.

(** [float(v)] on a JSON scalar. *)
Definition py_float (E : env) (v : scalar) : outcome float :=
  match v with
  | SNum f => Returned f
  | SInt z =>
      match float_of_int z with
      | Some f => Returned f
      | None => Raised (Exn "int too large to convert to float")
      end
  | SStr s =>
      match float_of_str E s with
      | Some f => Returned f
      | None => Raised (Exn ("could not convert string to float: '" ++ s ++ "'"))
      end
  | SBool b => Returned (if b then 1 else 0)%float
  end.

(** [x or default] for an optional string. *)
Definition or_str (x : option string) (default : string) : string :=
  match x with
  | Some (String c s) => String c s
  | _ => default
  end.

Definition or_list {A} (x : option (list A)) : list A :=
  match x with Some l => l | None => [] end.

(** [h.get("_additional", {}) or {}] *)
Definition envelope (h : hit) : additional :=
  match _additional h with
  | Present a => a
  | _ => {| score := Missing; distance := Missing |}
  end.

(** ** [backend_core.py] *)

Module BackendCore.

(** The diagnostics [diag] returned with every answer. *)
Record diagnostics : Type := {
  d_hits : nat;
  d_best_conf : float;
  d_mode : mode;
  d_alpha : float;
  d_k : Z
}.

Section WithEnv.

Variable E : env.

(** [_strip(text)] *)
Definition _strip (text : option string) : string :=
  let s := or_str text "" in
  let s := re_sub think_re s in
  let s := re_sub sources_re s in
  strip s.

(** The request [_query] builds for [mode]. *)
Definition request (q : string) (k : Z) (m : mode) (alpha : float) : search_call :=
  {| s_query := q; s_limit := k; s_mode := m;
     s_alpha := match m with hybrid => Some alpha | _ => None end |}.

(** [qget.do()] *)
Definition do_query (c : search_call) : M (option response) :=
  fun w =>
    (weaviate_do E w c,
     {| searches := searches w ++ [c]; generations := generations w |}).

(** [(res.get("data",{}).get("Get",{}) or {}).get(CLASS_NAME, []) or []],
    where [res] is [qget.do() or {}]. *)
Definition hits_of (res : option response) : outcome (list hit) :=
  match res with
  | None => Returned []
  | Some r =>
      match data r with
      | Missing => Returned []
      | Null => Raised (Exn "'NoneType' object has no attribute 'get'")
      | Present d =>
          match Get d with
          | Present g => Returned (or_list (get (class_hits g)))
          | _ => Returned []
          end
      end
  end.

(** [r.json().get("response", "")] *)
Definition response_text (r : field string) : option string :=
  match r with
  | Missing => Some ""
  | Null => None
  | Present s => Some s
  end.

(** [_query(q, k, mode, alpha)] *)
Definition _query (q : string) (k : Z) (m : mode) (alpha : float) : M (list hit) :=
  res <- do_query (request q k m alpha) ;;
  match hits_of res with
  | Returned hits => ret hits
  | Raised e => raise e
  end.

(** [_conf(h)] *)
Definition _conf (h : hit) : float :=
  let add := envelope h in
  let from_distance : float :=
    match get (distance add) with
    | Some dist =>
        match py_float E dist with
        | Returned d => Py.max 0 (Py.min 1 (1 - d))
        | Raised _ => 0
        end
    | None => 0
    end%float in
  match get (score add) with
  | Some sc =>
      match py_float E sc with
      | Returned f => f
      | Raised _ => from_distance
      end
  | None => from_distance
  end.

(** The threshold [_ok] compares with. *)
Definition threshold (m : mode) : float :=
  match m with
  | hybrid | bm25 => OOD_MIN_SCORE E
  | vector => OOD_MIN_SIM E
  end.

(** [_ok(hits, mode)] *)
Definition _ok (hits : list hit) (m : mode) : bool :=
  match map _conf hits with
  | [] => false
  | c :: cs =>
      let best := Py.max_of c cs in
      Py.ge best (threshold m)
  end.

(** [f"{idx}"] *)
Definition show_index (idx : option Z) : string :=
  match idx with Some n => str_int n | None => "None" end.

Definition title_of (h : hit) : string :=
  or_str (get (page_title h)) (or_str (get (toc_title h)) "(untitled)").

(** The evidence block of hit number [i]. *)
Definition block (i : Z) (h : hit) : string :=
  let title := title_of h in
  let url := or_str (get (page_url h)) "" in
  let idx := get (chunk_index h) in
  let crumbs := join " > " (or_list (get (breadcrumb h))) in
  let text := strip (or_str (get (chunk_text h)) "") in
  "[" ++ str_int i ++ "] Title: " ++ title ++ nl ++
  "URL: " ++ url ++ nl ++
  "Chunk #" ++ show_index idx ++ nl ++
  "Breadcrumb: " ++ crumbs ++ nl ++
  "----" ++ nl ++ text.

(** The source line of hit number [i]. *)
Definition source_line (i : Z) (h : hit) : string :=
  let title := title_of h in
  let url := or_str (get (page_url h)) "" in
  let idx := get (chunk_index h) in
  let show_idx :=
    match idx with Some n => "(chunk " ++ str_int n ++ ")" | None => "" end in
  "- [" ++ str_int i ++ "] " ++ title ++ " " ++ show_idx ++ nl ++ "  " ++ url.

(** [f(i, h) for i, h in enumerate(hits, i)] *)
Fixpoint enumerate_map {A} (f : Z -> hit -> A) (i : Z) (hits : list hit) : list A :=
  match hits with
  | [] => []
  | h :: rest => f i h :: enumerate_map f (i + 1) rest
  end.

(** [_ctx(hits)] *)
Definition _ctx (hits : list hit) : string * string :=
  let blocks := enumerate_map block 1 hits in
  let src_md := enumerate_map source_line 1 hits in
  (join (nl ++ nl) blocks,
   match src_md with [] => "_No sources_" | _ => join nl src_md end).

(** [_prompt(q, ctx)] *)
Definition _prompt (q ctx : string) : string :=
  let rules :=
    "You are a helpful Autodesk Revit assistant." ++ nl ++
    "Use ONLY the information in SOURCES." ++ nl ++
    "If SOURCES do not clearly contain the answer, reply exactly: I don't know." ++ nl ++
    "Include bracket citations like [1], [2] tied to SOURCES numbers." ++ nl ++
    "Short, step-by-step when useful. No inner monologue. Do NOT print a 'Sources:' section." in
  rules ++ nl ++ nl ++ "SOURCES:" ++ nl ++ ctx ++ nl ++ nl ++
  "USER QUESTION:" ++ nl ++ q ++ nl ++ nl ++
  "YOUR ANSWER (with citations only like [1], [2]):" ++ nl.

(** [requests.post(...)], [raise_for_status()], [r.json()] *)
Definition post_generate (c : gen_call) : M (field string) :=
  fun w =>
    (ollama_post E w c,
     {| searches := searches w; generations := generations w ++ [c] |}).

(** [_gen(prompt, max_tokens)] *)
Definition _gen (prompt : string) (max_tokens : Z) : M (option string) :=
  r <- post_generate {| g_model := MODEL E; g_prompt := prompt;
                        g_num_predict := max_tokens |} ;;
  ret (response_text r).

Definition sentinel : string := "I don't know.".

Definition brief_suffix : string :=
  nl ++ "Reply directly with the final answer only (no <think>, no Sources:). Keep it under 120 words and include [1] style citations.".

(** The [try] block of [rag_answer]: one generation, and a second one with
    the brief prompt when the first answer is blank. *)
Definition generate (q ctx : string) : M string :=
  raw <- _gen (_prompt q ctx) 1200 ;;
  let answer := _strip raw in
  if is_empty (strip answer)
  then
    let brief := _prompt q ctx ++ brief_suffix in
    raw' <- _gen brief 400 ;;
    ret (_strip raw')
  else ret answer.

(** The checks of [rag_answer] behind the [try] block. *)
Definition validate (require_citation : bool) (answer src : string)
    (diag : diagnostics) : string * string * diagnostics :=
  let cited :=
    if require_citation && negb (has_citation answer)
    then if negb (is_empty src)
         then Some (strip (rstrip answer ++ " [1]"))
         else None
    else Some answer in
  match cited with
  | None => (sentinel, "", diag)
  | Some answer =>
      if mentions_autocad answer then (sentinel, "", diag)
      else (answer, src, diag)
  end.

(** [rag_answer(question, mode, alpha, k, require_citation)] *)
Definition rag_answer (question : string) (m : mode) (alpha : float) (k : Z)
    (require_citation : bool) : M (string * string * diagnostics) :=
  hits <- _query question k m alpha ;;
  let diag :=
    {| d_hits := List.length hits;
       d_best_conf := match map _conf hits with
                      | [] => 0%float
                      | c :: cs => Py.max_of c cs
                      end;
       d_mode := m; d_alpha := alpha; d_k := k |} in
  if negb (_ok hits m) then ret (sentinel, "", diag)
  else
    let '(ctx, src) := _ctx hits in
    r <- try_except
           (answer <- generate question ctx ;; ret (inl answer))
           (fun e => ret (inr ("Generation error: " ++ str_exn e, "", diag))) ;;
    match r with
    | inr early => ret early
    | inl answer => ret (validate require_citation answer src diag)
    end.

End WithEnv.

End BackendCore.

(** ** [ui_gradio.py]: the retrieval path of [ask] *)

Module UiGradio.

(** One entry of [chat_history]. *)
Record message : Type := { role : string; content : string }.

Section WithEnv.

Variable E : env.

(** [strip_think(text)] *)
Definition strip_think (text : string) : string :=
  let cleaned := re_sub think_block_re text in
  let cleaned :=
    match re_search heading_re cleaned with
    | Some from_match => from_match
    | None => cleaned
    end in
  strip cleaned.

(** [query_weaviate(q, k, mode, alpha)] *)
Definition query_weaviate (q : string) (k : Z) (m : mode) (alpha : float) : M (list hit) :=
  res <- BackendCore.do_query E (BackendCore.request q k m alpha) ;;
  match BackendCore.hits_of res with
  | Returned hits => ret hits
  | Raised e => raise e
  end.

(** [f"{x:.3f}"]: the decimal with three places nearest to [x], ties to
    the even one. *)
Definition round_half_even (num den : Z) : Z :=
  let q := (num / den)%Z in
  match (2 * (num mod den) ?= den)%Z with
  | Lt => q
  | Gt => (q + 1)%Z
  | Eq => if Z.even q then q else (q + 1)%Z
  end.

Definition format_3f (x : float) : string :=
  let sign (s : bool) := if s then "-" else "" in
  let digits (n : Z) :=
    str_int (n / 1000) ++ "." ++ str_int (n / 100 mod 10)
    ++ str_int (n / 10 mod 10) ++ str_int (n mod 10) in
  match Prim2SF x with
  | S754_nan => "nan"
  | S754_infinity s => sign s ++ "inf"
  | S754_zero s => sign s ++ digits 0%Z
  | S754_finite s m e =>
      let n :=
        if (0 <=? e)%Z then (Zpos m * 2 ^ e * 1000)%Z
        else round_half_even (Zpos m * 1000) (2 ^ (- e)) in
      sign s ++ digits n
  end.

(** One part of [metric_str]: [float(v)] formatted behind [label], or the
    raw value behind [raw_label] when the conversion raises.  [f] is
    applied to the converted value first. *)
Definition metric_part (label raw_label : string) (f : float -> float)
    (v : scalar) : string :=
  match v with
  | SStr s =>
      match float_of_str E s with
      | Some x => label ++ format_3f (f x)
      | None => raw_label ++ s
      end
  | SInt z =>
      match float_of_int z with
      | Some x => label ++ format_3f (f x)
      | None => raw_label ++ str_int z
      end
  | SNum x => label ++ format_3f (f x)
  | SBool b => label ++ format_3f (f (if b then 1 else 0)%float)
  end.

(** [metric_str(hit)] *)
Definition metric_str (h : hit) : string :=
  let add := envelope h in
  let parts :=
    (match get (score add) with
     | Some sc => [metric_part "score=" "score=" (fun x => x) sc]
     | None => []
     end ++
     match get (distance add) with
     | Some dist => [metric_part "sim=" "distance=" (fun x => 1 - x)%float dist]
     | None => []
     end)%list in
  join " | " parts.

(** [short_title(hit)] *)
Definition short_title (h : hit) : string := BackendCore.title_of h.

Definition em_dash : string := String "226" (String "128" (String "148" "")).

(** The source line of hit number [i] in [build_context]. *)
Definition source_line (i : Z) (h : hit) : string :=
  let title := short_title h in
  let url := or_str (get (page_url h)) "" in
  let idx := get (chunk_index h) in
  let metr := metric_str h in
  let metr := if is_empty metr then "" else " " ++ em_dash ++ " " ++ metr in
  let show_idx :=
    match idx with Some n => "(chunk " ++ str_int n ++ ")" | None => "" end in
  let line :=
    "- **[" ++ str_int i ++ "] " ++ title ++ "** " ++ show_idx ++ metr
    ++ "  " ++ nl ++ "  " ++ url in
  let vids := or_list (get (video_links h)) in
  let vlist :=
    join ", " (map (fun v => "[video](" ++ v ++ ")")
                   (filter (fun v => prefix "http" v) vids)) in
  if is_empty vlist then line else line ++ nl ++ "  Videos: " ++ vlist.

(** [build_context(hits)] *)
Definition build_context (hits : list hit) : string * string :=
  let blocks := BackendCore.enumerate_map BackendCore.block 1 hits in
  let src_md := BackendCore.enumerate_map source_line 1 hits in
  (join (nl ++ nl) blocks,
   match src_md with [] => "_No sources_" | _ => join nl src_md end).

(** [build_prompt(question, context_block)] *)
Definition build_prompt (question context_block : string) : string :=
  let rules :=
    "You are a helpful Autodesk Revit assistant." ++ nl ++
    "Answer ONLY from SOURCES." ++ nl ++
    "If the SOURCES do not clearly contain the answer, reply exactly: I don't know." ++ nl ++
    "Put a citation like [1] [2] at the END OF EVERY SENTENCE you write." ++ nl ++
    "Do NOT describe your reasoning or process. No prefaces like 'I need to figure out'." ++ nl ++
    "Return clean Markdown only. Prefer a short bulleted 'Steps' section when appropriate." in
  rules ++ nl ++ nl ++ "SOURCES:" ++ nl ++ context_block ++ nl ++ nl ++
  "USER QUESTION:" ++ nl ++ question ++ nl ++ nl ++ "YOUR ANSWER:" ++ nl.

(** [call_ollama(model, prompt, max_tokens)] *)
Definition call_ollama (model prompt : string) (max_tokens : Z) : M (option string) :=
  r <- BackendCore.post_generate E
         {| g_model := model; g_prompt := prompt; g_num_predict := max_tokens |} ;;
  ret (BackendCore.response_text r).

(** [hit_confidence(hit)] *)
Definition hit_confidence (h : hit) : float :=
  let add := envelope h in
  let from_distance : float :=
    match get (distance add) with
    | Some dist =>
        match py_float E dist with
        | Returned d => Py.max 0 (Py.min 1 (1 - d))
        | Raised _ => 0
        end
    | None => 0
    end%float in
  match get (score add) with
  | Some sc =>
      match py_float E sc with
      | Returned f => f
      | Raised _ => from_distance
      end
  | None => from_distance
  end.

(** [confident_enough(hits, mode, q)], as redefined at the end of the
    module. *)
Definition confident_enough (hits : list hit) (m : mode) (q : string) : bool :=
  match map hit_confidence hits with
  | [] => false
  | c :: cs =>
      let best := Py.max_of c cs in
      match m with
      | hybrid | bm25 => Py.ge best (OOD_MIN_SCORE E)
      | vector => Py.ge best (OOD_MIN_SIM E)
      end
  end.

(** [confident_enough(hits, mode, query)], as first defined: the overlap
    check is disabled. *)
Definition confident_enough_first (hits : list hit) (m : mode) (query : string) : bool :=
  match map hit_confidence hits with
  | [] => false
  | c :: cs =>
      let best_conf := Py.max_of c cs in
      let has_overlap := false in
      match m with
      | hybrid | bm25 => Py.ge best_conf (OOD_MIN_SCORE E) || has_overlap
      | vector => Py.ge best_conf (OOD_MIN_SIM E) || has_overlap
      end
  end.

(** [try_search(m, top_k)], the closure of [ask] over [q] and [alpha]. *)
Definition try_search (q : string) (alpha : float) (m : mode) (top_k : Z) : M (list hit) :=
  try_except (query_weaviate q top_k m alpha) (fun _ => ret []).

(** [[mode] + [m for m in ("hybrid", "bm25", "vector") if m != mode]] *)
Definition modes_to_try (m : mode) : list mode :=
  m :: filter (fun m' => negb (mode_eqb m' m)) [hybrid; bm25; vector].

Definition nonempty {A} (l : list A) : bool :=
  match l with [] => false | _ => true end.

(** The [for m in modes_to_try] loop of [ask]; [hits] is the value the
    variable holds when the loop is entered.  The result is the value of
    [hits] and of [used_mode] behind the loop. *)
Fixpoint fallback_loop (q : string) (alpha : float) (k : Z) (ms : list mode)
    (hits : list hit) : M (list hit * option mode) :=
  match ms with
  | [] => ret (hits, None)
  | m :: rest =>
      hits <- try_search q alpha m k ;;
      if nonempty hits && confident_enough hits m q then ret (hits, Some m)
      else
        hits <- try_search q alpha m (Z.min (2 * k) 15) ;;
        if nonempty hits && confident_enough hits m q then ret (hits, Some m)
        else fallback_loop q alpha k rest hits
  end.

Definition sentinel : string := "I don't know.".

(** [ask(question, mode, alpha, k)] from step 2 on, for the stripped
    question [q]: the new [chat_history] and the text of the sources
    panel. *)
Definition ask (chat_history : list message) (q : string) (m : mode)
    (alpha : float) (k : Z) : M (list message * string) :=
  let chat_history := (chat_history ++ [{| role := "user"; content := q |}])%list in
  r <- fallback_loop q alpha k (modes_to_try m) [] ;;
  let '(hits, used_mode) := r in
  let dbg :=
    if DEBUG_RETRIEVAL E
    then "_debug: mode="
         ++ match used_mode with Some u => mode_name u | None => "none" end
         ++ " | topK=" ++ str_int (Z.of_nat (List.length hits)) ++ "_"
    else "" in
  match hits, used_mode with
  | _ :: _, Some _ =>
      let '(ctx, src_md) := build_context hits in
      let src_md :=
        if DEBUG_RETRIEVAL E && negb (is_empty src_md)
        then dbg ++ nl ++ nl ++ src_md else src_md in
      let prompt := build_prompt q ctx in
      r <- try_except
             (raw <- call_ollama (MODEL E) prompt 600 ;;
              match raw with
              | Some text => ret (strip (strip_think text), src_md)
              | None => raise (Exn "expected string or bytes-like object, got 'NoneType'")
              end)
             (fun e =>
                ret ("I encountered an error while generating the response: "
                     ++ str_exn e, "")) ;;
      let '(answer, src_md) := r in
      let '(answer, src_md) :=
        if negb (has_citation answer) then (sentinel, "") else (answer, src_md) in
      ret ((chat_history ++ [{| role := "assistant"; content := answer |}])%list, src_md)
  | _, _ =>
      let msg := sentinel in
      ret ((chat_history ++ [{| role := "assistant"; content := msg |}])%list, "")
  end.

End WithEnv.

End UiGradio.

(** ** Notions of the specification *)

Module Order.

(** [x] lies in the closed interval from 0 to 1. *)
Definition in_unit (x : float) : bool := PrimFloat.leb 0 x && PrimFloat.leb x 1.

(** [m] is a greatest element of [l]. *)
Definition greatest (m : float) (l : list float) : Prop :=
  In m l /\ forall y, In y l -> PrimFloat.leb y m = true.

(** The order on the pairs of an exponent and a mantissa. *)
Definition lex (e1 : Z) (m1 : positive) (e2 : Z) (m2 : positive) : comparison :=
  match (e1 ?= e2)%Z with
  | Lt => Lt
  | Gt => Gt
  | Eq => Pos.compare_cont Eq m1 m2
  end.

End Order.

Module TextNotions.

(** Every character of [s] is whitespace. *)
Fixpoint all_space (s : string) : bool :=
  match s with
  | String c t => is_space c && all_space t
  | EmptyString => true
  end.

(** Every character of [s] is a line feed. *)
Fixpoint all_nl (s : string) : bool :=
  match s with
  | String c t => Ascii.eqb c nl_char && all_nl t
  | EmptyString => true
  end.

(** The text a generation call returned is empty or whitespace only. *)
Definition blank (raw : option string) : bool :=
  is_empty (strip (or_str raw "")).

(** The literal [p] occurs in [s], case ignored. *)
Fixpoint contains_ci (p s : string) : bool :=
  prefix_ci p s
  || match s with
     | String _ t => contains_ci p t
     | EmptyString => false
     end.

(** [o] is the literal [p] up to the case of its letters. *)
Definition is_marker (p o : string) : bool :=
  (String.length o =? String.length p)%nat && prefix_ci p o.

(** Every reasoning segment of the text is closed: the text is free of
    opening markers, or it starts with such a part, a segment from an
    opening marker to the first closing marker behind it, and goes on with
    a text of the same kind. *)
Inductive settled : string -> Prop :=
| settled_plain s :
    contains_ci "<think>" s = false -> settled s
| settled_segment pre o mid c rest :
    contains_ci "<think>" pre = false ->
    is_marker "<think>" o = true ->
    contains_ci "</think>" mid = false ->
    is_marker "</think>" c = true ->
    settled rest ->
    settled (pre ++ o ++ mid ++ c ++ rest).

(** The text starts with an opening angle bracket, or is empty. *)
Definition starts_angle (y : string) : bool :=
  match y with
  | String c _ => eqb_ci "<" c
  | EmptyString => true
  end.

(** No character of [p] matches [y]. *)
Definition none_matches (p : string) (y : ascii) : bool :=
  forallb (fun x => negb (eqb_ci x y)) (list_ascii_of_string p).

(** [z] does not start with a digit or a closing bracket. *)
Definition no_join (z : string) : bool :=
  match z with
  | String c _ => negb (is_digit c) && negb (Ascii.eqb c "]")
  | EmptyString => true
  end.

(** [re.sub] with the sources pattern cuts the text at the leftmost
    match. *)
Fixpoint cut_sources (s : string) : string :=
  match s with
  | String c t =>
      if Ascii.eqb c nl_char && sources_header t then EmptyString
      else String c (cut_sources t)
  | EmptyString => EmptyString
  end.

End TextNotions.

Import Order TextNotions.

(** ** The Relevance Scorer *)

Module Scorer.

(** The value of a relevance field that is present and numerically
    parseable. *)
Definition parsed (E : env) (f : field scalar) : option float :=
  match get f with
  | Some v =>
      match py_float E v with
      | Returned x => Some x
      | Raised _ => None
      end
  | None => None
  end.

(** [clamp(x, lo, hi)], that is [max(lo, min(hi, x))]. *)
Definition clamp (x lo hi : float) : float := Py.max lo (Py.min hi x).

(** The rule of the Relevance Scorer: the score if present and parseable;
    else the clamp of 1 - distance; else 0. *)
Definition relevance_rule (E : env) (h : hit) : float :=
  match parsed E (score (envelope h)) with
  | Some s => s
  | None =>
      match parsed E (distance (envelope h)) with
      | Some d => clamp (1 - d) 0 1
      | None => 0
      end
  end%float.

(** A hit that carries nothing but the given relevance envelope. *)
Definition bare_hit (a : field additional) : hit :=
  {| _additional := a; page_title := Missing; toc_title := Missing;
     chunk_text := Missing; page_url := Missing; breadcrumb := Missing;
     chunk_index := Missing; video_links := Missing |}.

Definition with_score (v : scalar) : hit :=
  bare_hit (Present {| score := Present v; distance := Missing |}).

Definition with_distance (v : scalar) : hit :=
  bare_hit (Present {| score := Null; distance := Present v |}).

End Scorer.

(** ** The confidence gate and the Fallback Orchestrator *)

Module Orchestrator.

(** The gate threshold of a strategy class: one for the score-bearing
    strategies, one for the pure-vector strategy. *)
Definition gate (E : env) (s : mode) : float :=
  match s with
  | hybrid | bm25 => OOD_MIN_SCORE E
  | vector => OOD_MIN_SIM E
  end.

(** The settings when the environment variables are unset. *)
Definition with_defaults (parse : string -> option float)
    (search : world -> search_call -> outcome (option response))
    (generate : world -> gen_call -> outcome (field string)) : env :=
  {| float_of_str := parse; weaviate_do := search; ollama_post := generate;
     OOD_MIN_SCORE := 0.35; OOD_MIN_SIM := 0.35;
     MODEL := "deepseek-r1:1.5b"; DEBUG_RETRIEVAL := false |}.

(** The maximum confidence over the hits, [None] when there is no hit. *)
Definition max_confidence (E : env) (hits : list hit) : option float :=
  match map (BackendCore._conf E) hits with
  | [] => None
  | c :: cs => Some (Py.max_of c cs)
  end.

(** The strategies in the order they are tried: the preferred one, then
    the remaining two in the fixed order hybrid, bm25, vector. *)
Definition strategy_order (preferred : mode) : list mode :=
  match preferred with
  | hybrid => [hybrid; bm25; vector]
  | bm25 => [bm25; hybrid; vector]
  | vector => [vector; hybrid; bm25]
  end.

Definition hard_cap : Z := 15.

(** The attempts in the order they are made: each strategy with the
    requested result count, then once with the enlarged one. *)
Definition plan (preferred : mode) (k : Z) : list (mode * Z) :=
  flat_map (fun s => [(s, k); (s, Z.min (2 * k) hard_cap)])
           (strategy_order preferred).

(** The state machine of the orchestrator over a list of attempts: each is
    made in turn, the first accepted one ends the run, and the run is
    exhausted when none is left. *)
Fixpoint first_accepted (E : env) (q : string) (alpha : float)
    (attempts : list (mode * Z)) (hits : list hit) : M (list hit * option mode) :=
  match attempts with
  | [] => ret (hits, None)
  | (s, n) :: rest =>
      hits <- UiGradio.try_search E q alpha s n ;;
      if BackendCore._ok E hits s then ret (hits, Some s)
      else first_accepted E q alpha rest hits
  end.

(** The world once the requests of [attempts] have been sent. *)
Definition sent (q : string) (alpha : float) (attempts : list (mode * Z))
    (w : world) : world :=
  {| searches :=
       searches w
       ++ map (fun a => BackendCore.request q (snd a) (fst a) alpha) attempts;
     generations := generations w |}.

(** The hits one attempt yields in world [w]: those of the response, none
    when the call or the decoding raises. *)
Definition attempt_hits (E : env) (q : string) (alpha : float) (s : mode)
    (n : Z) (w : world) : list hit :=
  match weaviate_do E w (BackendCore.request q n s alpha) with
  | Returned res =>
      match BackendCore.hits_of res with
      | Returned hits => hits
      | Raised _ => []
      end
  | Raised _ => []
  end.

(** Every attempt of the list, made in turn from world [w], fails the
    gate. *)
Fixpoint all_rejected (E : env) (q : string) (alpha : float)
    (attempts : list (mode * Z)) (w : world) : bool :=
  match attempts with
  | [] => true
  | (s, n) :: rest =>
      negb (BackendCore._ok E (attempt_hits E q alpha s n w) s)
      && all_rejected E q alpha rest (sent q alpha [(s, n)] w)
  end.

(** The world once the generation requests [cs] have been sent. *)
Definition generated (cs : list gen_call) (w : world) : world :=
  {| searches := searches w; generations := generations w ++ cs |}.

End Orchestrator.

(** ** Citations and sources *)

Module Citations.

(** The number of sources an answer comes with: one per hit when the
    sources listing is returned, none when it is empty. *)
Definition source_count (src : string) (d : BackendCore.diagnostics) : N :=
  if is_empty src then 0%N else N.of_nat (BackendCore.d_hits d).

(** Every citation index of [answer] is one of 1 .. [n]. *)
Definition citations_in_range (answer : string) (n : N) : bool :=
  forallb (fun i => (1 <=? i)%N && (i <=? n)%N) (citations answer).

End Citations.

Import Scorer Orchestrator Citations.

(** ** Scenarios: scripted backends *)

Module Scenarios.

(** [float(s)] on the plain decimal numerals of at most fifteen digits,
    the only strings the scenarios convert: the quotient of two integers
    that binary64 holds exactly is the nearest binary64. *)
Definition decimal (s : string) : option float :=
  let '(int_part, rest) := span_digits s in
  let of_digits (d : string) (scale : nat) : option float :=
    if is_empty d || (15 <? String.length d)%nat then None
    else Some (PrimFloat.of_uint63 (Uint63.of_Z (Z.of_N (int_of_digits d)))
               / PrimFloat.of_uint63 (Uint63.of_Z (10 ^ Z.of_nat scale)))%float in
  match rest with
  | EmptyString => of_digits int_part 0%nat
  | String "." frac =>
      match span_digits frac with
      | (f, EmptyString) => of_digits (int_part ++ f) (String.length f)
      | _ => None
      end
  | _ => None
  end.

(** A chunk with a title, a text and a relevance score. *)
Definition chunk (title text : string) (sc : scalar) : hit :=
  {| _additional := Present {| score := Present sc; distance := Null |};
     page_title := Present title; toc_title := Missing;
     chunk_text := Present text;
     page_url := Present "https://help.autodesk.com/revit"; breadcrumb := Present ["Revit"; title];
     chunk_index := Present 0%Z; video_links := Missing |}.

(** A well-formed response that carries [hits]. *)
Definition respond (hits : list hit) : outcome (option response) :=
  Returned (Some {| data := Present {| Get := Present {| class_hits := Present hits |} |} |}).

Definition refused {A} : outcome A := Raised (Exn "Connection refused").

Definition grids : hit :=
  chunk "Curtain walls" "Place curtain wall grids." (SStr "0.9").

Definition weak : hit :=
  chunk "Sheets" "Create a sheet." (SStr "0.1").

(** Every strategy returns hits whose score is 0.1. *)
Definition all_weak : env :=
  with_defaults decimal (fun _ _ => respond [weak; weak])
    (fun _ _ => Returned (Present "Not asked. [1]")).

(** Every strategy returns no hit. *)
Definition answering_none : env :=
  with_defaults decimal (fun _ _ => respond [])
    (fun _ _ => Returned (Present "Not asked. [1]")).

(** The search backend is unreachable. *)
Definition search_down : env :=
  with_defaults decimal (fun _ _ => refused)
    (fun _ _ => Returned (Present "Not asked. [1]")).

(** The search backend answers with [{"data": null}]. *)
Definition search_null_data : env :=
  with_defaults decimal (fun _ _ => Returned (Some {| data := Null |}))
    (fun _ _ => Returned (Present "Not asked. [1]")).

(** One strong hit; the generation backend is unreachable. *)
Definition generation_down : env :=
  with_defaults decimal (fun _ _ => respond [grids]) (fun _ _ => refused).

(** One strong hit; the generation backend answers with [text]. *)
Definition answering (text : string) : env :=
  with_defaults decimal (fun _ _ => respond [grids])
    (fun _ _ => Returned (Present text)).

(** One strong hit; the first generation is empty, the second is [text]. *)
Definition answering_second (text : string) : env :=
  with_defaults decimal (fun _ _ => respond [grids])
    (fun w _ =>
       match generations w with
       | [] => Returned (Present "")
       | _ => Returned (Present text)
       end).

End Scenarios.

Import Scenarios.

(** ** [ui_gradio.py]: routing of a question, and the unused helper *)

Module ChatText.

(** [s.lower()] *)
Fixpoint lower_str (s : string) : string :=
  match s with
  | String c t => String (lower c) (lower_str t)
  | EmptyString => EmptyString
  end.

(** [p in s] *)
Fixpoint contains (p s : string) : bool :=
  prefix p s
  || match s with
     | String _ t => contains p t
     | EmptyString => false
     end.

(** [len(s.split())]: the number of maximal runs without whitespace;
    [inside] tells whether the character before [s] belongs to a run. *)
Fixpoint count_words (inside : bool) (s : string) : nat :=
  match s with
  | String c t =>
      if is_space c then count_words false t
      else if inside then count_words true t
      else S (count_words true t)
  | EmptyString => 0
  end.

(** [s.split()[0]] for a text that starts with a word. *)
Fixpoint first_word (s : string) : string :=
  match s with
  | String c t => if is_space c then EmptyString else String c (first_word t)
  | EmptyString => EmptyString
  end.

Definition upper (c : ascii) : ascii :=
  if is_lower c then ascii_of_nat (code c - 32) else c.

(** [s.title()]: a letter behind a letter is lowered, any other letter is
    raised; [cased] tells whether the character before [s] is a letter. *)
Fixpoint title_from (cased : bool) (s : string) : string :=
  match s with
  | String c t =>
      if is_upper c || is_lower c
      then String (if cased then lower c else upper c) (title_from true t)
      else String c (title_from false t)
  | EmptyString => EmptyString
  end.

Definition title (s : string) : string := title_from false s.

(** [re.sub(r"\n{3,}", "\n\n", s)]: of a run of three or more line feeds,
    the last two are kept. *)
Fixpoint collapse_blank_lines (s : string) : string :=
  match s with
  | String c t =>
      if Ascii.eqb c nl_char && prefix (nl ++ nl) t
      then collapse_blank_lines t
      else String c (collapse_blank_lines t)
  | EmptyString => EmptyString
  end.

(** *** [(hi|hello|hey|yo|sup|good (morning|afternoon|evening))[!. ]*] *)

Definition greetings : list string :=
  ["hi"; "hello"; "hey"; "yo"; "sup";
   "good morning"; "good afternoon"; "good evening"].

(** [[!. ]*] matches the whole of [s]. *)
Fixpoint all_punct (s : string) : bool :=
  match s with
  | String c t =>
      (Ascii.eqb c "!" || Ascii.eqb c "." || Ascii.eqb c " ") && all_punct t
  | EmptyString => true
  end.

(** [re.fullmatch] of the greeting pattern. *)
Definition is_greeting (s : string) : bool :=
  existsb (fun g => prefix g s && all_punct (drop (String.length g) s)) greetings.

(** *** [(?:my name is|i am|i'm)\s+([a-z][a-z\-' ]{1,30})] *)

(** A character of the class [[a-z\-' ]]. *)
Definition is_name_char (c : ascii) : bool :=
  is_lower c || Ascii.eqb c "-" || Ascii.eqb c "'" || Ascii.eqb c " ".

(** The match of [[a-z\-' ]{0,n}] at the start of [s]. *)
Fixpoint name_chars (n : nat) (s : string) : string :=
  match n, s with
  | S n', String c t =>
      if is_name_char c then String c (name_chars n' t) else EmptyString
  | _, _ => EmptyString
  end.

(** [([a-z][a-z\-' ]{1,30})] at the start of [s]: the group. *)
Definition name_group (s : string) : option string :=
  match s with
  | String c t =>
      if is_lower c
      then match name_chars 30 t with
           | EmptyString => None
           | more => Some (String c more)
           end
      else None
  | EmptyString => None
  end.

(** [\s+([a-z][a-z\-' ]{1,30})] at the start of [s]: the group. *)
Definition spaced_name (s : string) : option string :=
  match spaces s with
  | O => None
  | n => name_group (drop n s)
  end.

(** The whole pattern at the start of [s]: the group. *)
Definition intro_at (s : string) : option string :=
  if prefix "my name is" s then spaced_name (drop 10 s)
  else if prefix "i am" s then spaced_name (drop 4 s)
  else if prefix "i'm" s then spaced_name (drop 3 s)
  else None.

(** [m.group(1)] of [re.search]: the group of the leftmost match. *)
Fixpoint intro_search (s : string) : option string :=
  match intro_at s with
  | Some g => Some g
  | None =>
      match s with
      | String _ t => intro_search t
      | EmptyString => None
      end
  end.

End ChatText.

Module UiChat.

Import ChatText.

Definition REVIT_KEYWORDS : list string :=
  ["revit"; "wall"; "curtain"; "sheet"; "view"; "family"; "dimension";
   "floor"; "plan"; "elevation"; "schedule"; "parameter"; "model";
   "project"; "tag"; "room"; "door"; "window"; "stairs"; "railing";
   "section"; "detail"; "levels"; "grid"].

(** [force_minimal_markdown(ans)] *)
Definition force_minimal_markdown (ans : option string) : string :=
  let a := strip (or_str ans "") in
  if negb (has_citation a) then "I don't know."
  else collapse_blank_lines a.

(** [is_capabilities_question(q)] *)
Definition is_capabilities_question (q : string) : bool :=
  let ql := strip (lower_str q) in
  existsb (fun p => contains p ql)
    ["how can you help"; "how can u help"; "what can you do"; "what can u do";
     "help me with revit"; "what do you do"].

Definition CAPABILITIES_MD : string :=
  "### How I can help 🧰

I’m a **Revit RAG assistant** grounded on Autodesk’s official tutorials.

**Things I do well**
- Answer “how to” questions (e.g., *create sheets*, *place a curtain wall*).  
- Give **step-by-step** instructions with **citations** like [1], [2].  
- Compare similar tools/workflows (when covered by the sources).  
- Suggest next steps or checks after a procedure.

**Ask me**
- *“Create a sheet and place two views”*  
- *“Add dimensions between walls”*  
- *“Place a curtain wall door”*

> I only answer from the local knowledge base. If it’s not there, I’ll say **“I don’t know.”**
".

(** [detect_smalltalk(q)] *)
Definition detect_smalltalk (q : option string) : bool * option string :=
  let ql := lower_str (strip (or_str q "")) in
  if is_empty ql then (false, None)
  else if is_greeting ql then (true, None)
  else
    match intro_search ql with
    | Some group =>
        let name := title (first_word (strip group)) in
        (true, Some name)
    | None =>
        if (count_words false ql <=? 3)%nat
           && negb (existsb (fun w => contains w ql) REVIT_KEYWORDS)
        then (true, None)
        else (false, None)
    end.

(** [ask(question, mode, alpha, k)]: the new [chat_history] and the text of
    the sources panel.  The retrieval path is [UiGradio.ask]. *)
Definition ask (E : env) (chat_history : list UiGradio.message)
    (question : option string) (m : mode) (alpha : float) (k : Z)
    : M (list UiGradio.message * string) :=
  let q := strip (or_str question "") in
  if is_empty q then ret (chat_history, "")
  else if is_capabilities_question q
  then
    ret ((chat_history
          ++ [{| UiGradio.role := "user"; UiGradio.content := q |}]
          ++ [{| UiGradio.role := "assistant";
                 UiGradio.content := CAPABILITIES_MD |}])%list, "")
  else
    let '(is_small, name) := detect_smalltalk (Some q) in
    if is_small
    then
      let msg :=
        match name with
        | Some (String c n) =>
            "Hi " ++ String c n ++ ", how can I help you with Revit today?"
        | _ => "Hi! How can I help you with Revit today?"
        end in
      ret ((chat_history
            ++ [{| UiGradio.role := "user"; UiGradio.content := q |}]
            ++ [{| UiGradio.role := "assistant"; UiGradio.content := msg |}])%list,
           "")
    else UiGradio.ask E chat_history q m alpha k.

(** [clear_chat()]: the new [chat_history] and the text of the sources
    panel. *)
Definition clear_chat : list UiGradio.message * string := ([], "").

End UiChat.

(** ** [smoketest_rag.py]: the verdict on one answer *)

Module SmokeTest.

(** The value of [ok] for the answer [ans] of [rag_answer], in the loop of
    [main]; [require_citation] is [not args.no_require_citation], the
    value [rag_answer] was called with. *)
Definition passes (require_citation : bool) (ans : string) : bool :=
  let ok :=
    negb (is_empty ans) && negb (is_empty (strip ans))
    && negb (String.eqb (strip ans) "I don't know.") in
  if require_citation then ok && has_citation ans else ok.

End SmokeTest.

(** ** Further notions *)

Module Notions.

(** The diagnostics [rag_answer] computes from the hits of its attempt. *)
Definition diag_of (E : env) (hits : list hit) (m : mode) (alpha : float)
    (k : Z) : BackendCore.diagnostics :=
  {| BackendCore.d_hits := List.length hits;
     BackendCore.d_best_conf :=
       match map (BackendCore._conf E) hits with
       | [] => 0%float
       | c :: cs => Py.max_of c cs
       end;
     BackendCore.d_mode := m; BackendCore.d_alpha := alpha;
     BackendCore.d_k := k |}.

(** The first and the second generation request of [rag_answer]. *)
Definition first_call (E : env) (q ctx : string) : gen_call :=
  {| g_model := MODEL E; g_prompt := BackendCore._prompt q ctx;
     g_num_predict := 1200 |}.

Definition brief_call (E : env) (q ctx : string) : gen_call :=
  {| g_model := MODEL E;
     g_prompt := BackendCore._prompt q ctx ++ BackendCore.brief_suffix;
     g_num_predict := 400 |}.

(** The answer as the citation check of [rag_answer] leaves it. *)
Definition cited (rc : bool) (a : string) : string :=
  if rc && negb (has_citation a) then strip (rstrip a ++ " [1]") else a.

(** The first citation index of a text. *)
Definition first_citation (s : string) : option N := hd_error (citations s).

(** [Some 1; ...; Some n] *)
Definition numbers (n : nat) : list (option N) :=
  map (fun i => Some (N.of_nat i)) (seq 1 n).

(** No character of [s] is whitespace. *)
Definition no_space (s : string) : bool :=
  forallb (fun c => negb (is_space c)) (list_ascii_of_string s).

(** The text starts with a capital letter. *)
Definition capitalised (s : string) : bool :=
  match s with String c _ => is_upper c | EmptyString => false end.

(** The first character of a text. *)
Definition head (s : string) : option ascii :=
  match s with String c _ => Some c | EmptyString => None end.

(** Every search request raises. *)
Definition search_unreachable (E : env) : Prop :=
  forall w c, exists e, weaviate_do E w c = Raised e.

(** Every character of [s] is an ASCII character: on such a text the
    classes and the case folding of Python's [re] and [str] are the ones
    of the embedding. *)
Definition is_ascii (s : string) : bool :=
  forallb (fun c => (code c <? 128)%nat) (list_ascii_of_string s).

(** [r] is [text] without its reasoning segments: scanning from the left,
    every segment from an opening marker to the first closing marker
    behind it is removed, and an opening marker with no closing marker
    behind it is removed together with everything up to the end of the
    text. *)
Inductive segments_removed : string -> string -> Prop :=
| removed_none s :
    contains_ci "<think>" s = false -> segments_removed s s
| removed_closed pre o mid c rest r :
    contains_ci "<think>" pre = false ->
    is_marker "<think>" o = true ->
    contains_ci "</think>" mid = false ->
    is_marker "</think>" c = true ->
    segments_removed rest r ->
    segments_removed (pre ++ o ++ mid ++ c ++ rest) (pre ++ r)
| removed_unclosed pre o post :
    contains_ci "<think>" pre = false ->
    is_marker "<think>" o = true ->
    contains_ci "</think>" post = false ->
    segments_removed (pre ++ o ++ post) pre.

(** The text starts with the header of a sources section. *)
Definition starts_section (t : string) : bool :=
  prefix_ci "sources:" t || prefix_ci "source:" t.

(** No line of [s] but the first starts with the header of a sources
    section: no line feed of [s] is directly followed by the header. *)
Fixpoint section_free (s : string) : bool :=
  match s with
  | String c t =>
      negb (Ascii.eqb c nl_char && starts_section t) && section_free t
  | EmptyString => true
  end.

(** A question that [ask] routes to retrieval. *)
Definition grid_question : string := "How do I add a grid?".

(** The hybrid and the vector strategy return a hit of score 0.1, the
    bm25 strategy one of score 0.9; the generation backend answers with a
    cited text. *)
Definition strong_on_bm25 : env :=
  with_defaults decimal
    (fun _ c => match s_mode c with
                | bm25 => respond [grids]
                | _ => respond [weak]
                end)
    (fun _ _ => Returned (Present "Use the Grid tool. [1]")).

End Notions.

Import Notions.

(** * Properties *)

(** ** The order of binary64 values *)

Module FloatOrder.

Lemma ltb_leb a b : PrimFloat.ltb a b = true -> PrimFloat.leb a b = true.
Proof.
  rewrite ltb_spec, leb_spec. unfold SFltb, SFleb.
  destruct (SFcompare (Prim2SF a) (Prim2SF b)) as [[| |]|]; congruence.
Qed.

Lemma compare_cont_antisym p q :
  Pos.compare_cont Eq q p = CompOpp (Pos.compare_cont Eq p q).
Proof. exact (Pos.compare_antisym p q). Qed.

Lemma sf_compare_antisym x y :
  SFcompare y x = option_map CompOpp (SFcompare x y).
Proof.
  destruct x as [[|]|[|]| |[|] m1 e1], y as [[|]|[|]| |[|] m2 e2];
    try reflexivity; simpl;
    rewrite (Z.compare_antisym e1 e2);
    destruct (e1 ?= e2)%Z; simpl; try reflexivity;
    rewrite (compare_cont_antisym m1 m2);
    destruct (Pos.compare_cont Eq m1 m2); reflexivity.
Qed.

Lemma sf_compare_refl x : x <> S754_nan -> SFcompare x x = Some Eq.
Proof.
  destruct x as [[|]|[|]| |[|] m e]; intros H; try reflexivity;
    try congruence; simpl; rewrite Z.compare_refl;
    change (Pos.compare_cont Eq m m) with (Pos.compare m m);
    rewrite Pos.compare_refl; reflexivity.
Qed.

Lemma lex_spec e1 m1 e2 m2 :
  match lex e1 m1 e2 m2 with
  | Lt => (e1 < e2)%Z \/ (e1 = e2 /\ (m1 < m2)%positive)
  | Eq => e1 = e2 /\ m1 = m2
  | Gt => (e2 < e1)%Z \/ (e1 = e2 /\ (m2 < m1)%positive)
  end.
Proof.
  unfold lex. destruct (Z.compare_spec e1 e2) as [He|He|He]; auto.
  change (Pos.compare_cont Eq m1 m2) with (Pos.compare m1 m2).
  destruct (Pos.compare_spec m1 m2); auto.
Qed.

Lemma lex_le_trans e1 m1 e2 m2 e3 m3 :
  lex e1 m1 e2 m2 <> Gt -> lex e2 m2 e3 m3 <> Gt -> lex e1 m1 e3 m3 <> Gt.
Proof.
  pose proof (lex_spec e1 m1 e2 m2) as A.
  pose proof (lex_spec e2 m2 e3 m3) as B.
  pose proof (lex_spec e1 m1 e3 m3) as C.
  destruct (lex e1 m1 e2 m2), (lex e2 m2 e3 m3), (lex e1 m1 e3 m3);
    intros; try congruence; lia.
Qed.

Lemma lex_ge_trans e1 m1 e2 m2 e3 m3 :
  lex e1 m1 e2 m2 <> Lt -> lex e2 m2 e3 m3 <> Lt -> lex e1 m1 e3 m3 <> Lt.
Proof.
  pose proof (lex_spec e1 m1 e2 m2) as A.
  pose proof (lex_spec e2 m2 e3 m3) as B.
  pose proof (lex_spec e1 m1 e3 m3) as C.
  destruct (lex e1 m1 e2 m2), (lex e2 m2 e3 m3), (lex e1 m1 e3 m3);
    intros; try congruence; lia.
Qed.

Lemma sf_leb_trans x y z :
  SFleb x y = true -> SFleb y z = true -> SFleb x z = true.
Proof.
  unfold SFleb.
  destruct x as [[|]|[|]| |[|] m1 e1], y as [[|]|[|]| |[|] m2 e2],
           z as [[|]|[|]| |[|] m3 e3];
    simpl; try congruence; fold (lex e1 m1 e2 m2); fold (lex e2 m2 e3 m3);
    fold (lex e1 m1 e3 m3).
  - assert (N : forall e m e' m',
               match (e ?= e')%Z with
               | Eq => CompOpp (Pos.compare_cont Eq m m')
               | Lt => Gt
               | Gt => Lt
               end = CompOpp (lex e m e' m'))
      by (intros; unfold lex; destruct (_ ?= _)%Z; reflexivity).
    rewrite !N.
    pose proof (@lex_ge_trans e1 m1 e2 m2 e3 m3) as T.
    destruct (lex e1 m1 e2 m2), (lex e2 m2 e3 m3), (lex e1 m1 e3 m3);
      simpl; intros; try congruence; exfalso; apply T; congruence.
  - pose proof (@lex_le_trans e1 m1 e2 m2 e3 m3) as T.
    destruct (lex e1 m1 e2 m2), (lex e2 m2 e3 m3), (lex e1 m1 e3 m3);
      simpl; intros; try congruence; exfalso; apply T; congruence.
Qed.

Lemma not_nan_spec x : PrimFloat.is_nan x = false -> Prim2SF x <> S754_nan.
Proof.
  unfold PrimFloat.is_nan. rewrite eqb_spec. unfold SFeqb.
  intros H E. rewrite E in H. discriminate.
Qed.

Lemma leb_refl x : PrimFloat.is_nan x = false -> PrimFloat.leb x x = true.
Proof.
  intros H. rewrite leb_spec. unfold SFleb.
  rewrite sf_compare_refl by (apply not_nan_spec; exact H). reflexivity.
Qed.

Lemma leb_trans x y z :
  PrimFloat.leb x y = true -> PrimFloat.leb y z = true -> PrimFloat.leb x z = true.
Proof. rewrite !leb_spec. apply sf_leb_trans. Qed.

Lemma not_ltb_leb x y :
  PrimFloat.is_nan x = false -> PrimFloat.is_nan y = false ->
  PrimFloat.ltb x y = false -> PrimFloat.leb y x = true.
Proof.
  intros Hx Hy. apply not_nan_spec in Hx. apply not_nan_spec in Hy.
  rewrite ltb_spec, leb_spec. unfold SFltb, SFleb.
  rewrite (sf_compare_antisym (Prim2SF x) (Prim2SF y)).
  destruct (Prim2SF x) as [[|]|[|]| |[|] m1 e1], (Prim2SF y) as [[|]|[|]| |[|] m2 e2];
    try congruence; simpl; try congruence;
    destruct (e1 ?= e2)%Z; simpl; try congruence;
    destruct (Pos.compare_cont Eq m1 m2); simpl; congruence.
Qed.

(** On values that are numbers, [max] of two and of a sequence give a
    greatest element. *)
Lemma max_of_greatest xs : forall x,
  (forall y, In y (x :: xs) -> PrimFloat.is_nan y = false) ->
  greatest (Py.max_of x xs) (x :: xs).
Proof.
  unfold Py.max_of.
  induction xs as [|a xs IH]; intros x Hn.
  - simpl. split; [left; reflexivity|].
    intros y [<-|[]]. apply leb_refl, Hn. left; reflexivity.
  - simpl fold_left.
    assert (Hx : PrimFloat.is_nan x = false) by (apply Hn; left; reflexivity).
    assert (Ha : PrimFloat.is_nan a = false) by (apply Hn; right; left; reflexivity).
    assert (Hm : PrimFloat.is_nan (Py.max x a) = false)
      by (unfold Py.max; destruct (PrimFloat.ltb x a); assumption).
    destruct (IH (Py.max x a)) as [Hin Hle].
    { intros y [<-|Hy]; [exact Hm|]. apply Hn. right; right; exact Hy. }
    assert (Hxm : PrimFloat.leb x (Py.max x a) = true /\ PrimFloat.leb a (Py.max x a) = true).
    { unfold Py.max. destruct (PrimFloat.ltb x a) eqn:L.
      - split; [apply ltb_leb; exact L | apply leb_refl; exact Ha].
      - split; [apply leb_refl; exact Hx | apply not_ltb_leb; assumption]. }
    split.
    + destruct Hin as [Hin|Hin].
      * rewrite <- Hin. unfold Py.max. destruct (PrimFloat.ltb x a).
        -- right; left; reflexivity.
        -- left; reflexivity.
      * right; right; exact Hin.
    + intros y [<-|[<-|Hy]].
      * apply leb_trans with (Py.max x a); [apply Hxm | apply Hle; left; reflexivity].
      * apply leb_trans with (Py.max x a); [apply Hxm | apply Hle; left; reflexivity].
      * apply Hle. right; exact Hy.
Qed.

(** The clamp of the distance branch lies between 0 and 1, for every
    operand, NaN included. *)
Lemma clamp_in_unit x : in_unit (Py.max 0 (Py.min 1 x)) = true.
Proof.
  unfold Py.min, Py.max, in_unit.
  destruct (PrimFloat.ltb x 1) eqn:L1.
  - destruct (PrimFloat.ltb 0 x) eqn:L0.
    + rewrite (ltb_leb _ _ L0), (ltb_leb _ _ L1). reflexivity.
    + reflexivity.
  - reflexivity.
Qed.

End FloatOrder.

Import FloatOrder.

(** ** The Relevance Scorer *)

Lemma conf_rule E h : BackendCore._conf E h = relevance_rule E h.
Proof.
  unfold BackendCore._conf, relevance_rule, parsed, clamp.
  destruct (get (score (envelope h))) as [sc|].
  - destruct (py_float E sc) as [f|e]; [reflexivity|].
    destruct (get (distance (envelope h))) as [dist|]; [|reflexivity].
    destruct (py_float E dist); reflexivity.
  - destruct (get (distance (envelope h))) as [dist|]; [|reflexivity].
    destruct (py_float E dist); reflexivity.
Qed.

(** The two scorers are the same function. *)
Lemma hit_confidence_conf E h : UiGradio.hit_confidence E h = BackendCore._conf E h.
Proof. reflexivity. Qed.

(** C1. For every hit, [_conf] and [hit_confidence] return the score when
    the score field is present and converts to a float; otherwise, when the
    distance field is present and converts, the clamp of 1 - distance to
    the interval from 0 to 1; and 0 when neither does. *)
Theorem C1_confidence_rule (E : env) (h : hit) :
  BackendCore._conf E h = relevance_rule E h /\
  UiGradio.hit_confidence E h = relevance_rule E h.
Proof.
  split; [|rewrite hit_confidence_conf]; apply conf_rule.
Qed.

(** The examples of the specification: distance 0.2 gives 0.8 and distance
    1.5 gives 0.0.  A distance that is not a number gives 1, and a score
    that does not convert falls through to the distance. *)
Example conf_distance_02 E : BackendCore._conf E (with_distance (SNum 0.2)) = 0.8%float.
Proof. reflexivity. Qed.

Example conf_distance_15 E : BackendCore._conf E (with_distance (SNum 1.5)) = 0%float.
Proof. reflexivity. Qed.

Example conf_distance_nan E : BackendCore._conf E (with_distance (SNum nan)) = 1%float.
Proof. reflexivity. Qed.

Example conf_malformed_score :
  BackendCore._conf all_weak
    (bare_hit (Present {| score := Present (SStr "n/a");
                          distance := Present (SNum 0.2) |}))
  = 0.8%float.
Proof. reflexivity. Qed.

(** Without a usable score the confidence lies between 0 and 1. *)
Lemma conf_in_unit_without_score E h :
  parsed E (score (envelope h)) = None ->
  in_unit (BackendCore._conf E h) = true.
Proof.
  intros H. rewrite conf_rule.
  unfold relevance_rule. rewrite H.
  destruct (parsed E (distance (envelope h))); [apply clamp_in_unit|reflexivity].
Qed.

(** C9. The score branch returns the score as it is: a hit whose score is
    2.5, as a number or as the string ["2.5"], gets the confidence 2.5,
    which is not in the interval from 0 to 1, from [_conf] and from
    [hit_confidence] alike. *)
Theorem C9_score_not_clamped (E : env) :
  BackendCore._conf E (with_score (SNum 2.5)) = 2.5%float /\
  UiGradio.hit_confidence E (with_score (SNum 2.5)) = 2.5%float /\
  BackendCore._conf all_weak (with_score (SStr "2.5")) = 2.5%float /\
  in_unit 2.5 = false.
Proof. repeat split; reflexivity. Qed.

(** ** The confidence gate *)

Lemma ok_iff E hits s :
  BackendCore._ok E hits s = true <->
  hits <> [] /\
  exists best, max_confidence E hits = Some best /\ Py.ge best (gate E s) = true.
Proof.
  unfold BackendCore._ok, max_confidence.
  destruct hits as [|h hs]; simpl.
  - split; [discriminate|]. intros [H _]. congruence.
  - split.
    + intros H. split; [discriminate|]. eexists. split; [reflexivity|exact H].
    + intros [_ [best [Hb Hge]]]. injection Hb as <-. exact Hge.
Qed.

Lemma confident_enough_ok E hits s q :
  UiGradio.confident_enough E hits s q = BackendCore._ok E hits s.
Proof.
  unfold UiGradio.confident_enough, BackendCore._ok, BackendCore.threshold.
  change (map (UiGradio.hit_confidence E) hits) with (map (BackendCore._conf E) hits).
  destruct (map (BackendCore._conf E) hits); [reflexivity|].
  destruct s; reflexivity.
Qed.

Lemma confident_enough_first_ok E hits s q :
  UiGradio.confident_enough_first E hits s q = BackendCore._ok E hits s.
Proof.
  unfold UiGradio.confident_enough_first, BackendCore._ok, BackendCore.threshold.
  change (map (UiGradio.hit_confidence E) hits) with (map (BackendCore._conf E) hits).
  destruct (map (BackendCore._conf E) hits); [reflexivity|].
  destruct s; apply orb_false_r.
Qed.

(** The test [hits and confident_enough(hits, m, q)] of the loop. *)
Lemma loop_test_ok E hits s q :
  UiGradio.nonempty hits && UiGradio.confident_enough E hits s q
  = BackendCore._ok E hits s.
Proof.
  rewrite confident_enough_ok.
  destruct hits; [reflexivity|]. reflexivity.
Qed.

(** When every confidence is a number, the maximum is a greatest element:
    the attempt is accepted exactly when some hit reaches the gate. *)
Lemma ok_iff_some_hit E hits s :
  (forall h, In h hits -> PrimFloat.is_nan (BackendCore._conf E h) = false) ->
  PrimFloat.is_nan (gate E s) = false ->
  (BackendCore._ok E hits s = true <->
   exists h, In h hits /\ Py.ge (BackendCore._conf E h) (gate E s) = true).
Proof.
  intros Hn Hg. unfold BackendCore._ok.
  change (BackendCore.threshold E s) with (gate E s).
  destruct hits as [|h hs]; simpl map; cbv iota.
  - split; [discriminate|]. intros [h [[] _]].
  - destruct (@max_of_greatest (map (BackendCore._conf E) hs) (BackendCore._conf E h))
      as [Hin Hle].
    { intros y Hy. change (In y (map (BackendCore._conf E) (h :: hs))) in Hy.
      apply in_map_iff in Hy. destruct Hy as [h' [<- Hh']]. apply Hn, Hh'. }
    split.
    + intros H. change (In (Py.max_of (BackendCore._conf E h) (map (BackendCore._conf E) hs))
                           (map (BackendCore._conf E) (h :: hs))) in Hin.
      apply in_map_iff in Hin. destruct Hin as [h' [Eq Hh']].
      exists h'. split; [exact Hh'|]. rewrite Eq. exact H.
    + intros [h' [Hh' Hge]]. unfold Py.ge in *.
      apply leb_trans with (BackendCore._conf E h'); [exact Hge|].
      apply Hle. change (In (BackendCore._conf E h') (map (BackendCore._conf E) (h :: hs))).
      apply in_map. exact Hh'.
Qed.

(** C3. An attempt is accepted, by [_ok] and by [confident_enough], if and
    only if there is a hit and the maximum confidence over the hits is at
    least the gate of the strategy class; both gates are 0.35 when the
    environment does not set them.  The maximum is the one [max] computes;
    when every confidence and the gate are numbers, the attempt is
    accepted exactly when some hit reaches the gate. *)
Theorem C3_gate (E : env) (hits : list hit) (s : mode) :
  (BackendCore._ok E hits s = true <->
   hits <> [] /\
   exists best, max_confidence E hits = Some best /\ Py.ge best (gate E s) = true) /\
  (forall q,
   UiGradio.confident_enough E hits s q = true <->
   hits <> [] /\
   exists best, max_confidence E hits = Some best /\ Py.ge best (gate E s) = true) /\
  (forall parse search generate,
   gate (with_defaults parse search generate) s = 0.35%float) /\
  ((forall h, In h hits -> PrimFloat.is_nan (BackendCore._conf E h) = false) ->
   PrimFloat.is_nan (gate E s) = false ->
   (BackendCore._ok E hits s = true <->
    exists h, In h hits /\ Py.ge (BackendCore._conf E h) (gate E s) = true)).
Proof.
  split; [apply ok_iff|]. split; [|split].
  - intros q. rewrite confident_enough_ok. apply ok_iff.
  - intros. destruct s; reflexivity.
  - apply ok_iff_some_hit.
Qed.

(** A weak and a strong hit under the default gates: the attempt is
    accepted, the strong hit reaches the gate. *)
Lemma C3_witness :
  BackendCore._ok all_weak [weak; grids] hybrid = true <->
  exists h,
    In h [weak; grids] /\
    Py.ge (BackendCore._conf all_weak h) (gate all_weak hybrid) = true.
Proof.
  destruct (C3_gate all_weak [weak; grids] hybrid) as [_ [_ [_ H]]].
  apply H; [|reflexivity].
  intros h [<-|[<-|[]]]; reflexivity.
Defined.


(** *** The run of the orchestrator *)

Lemma sent_nil q alpha w : sent q alpha [] w = w.
Proof. destruct w. unfold sent. simpl. rewrite app_nil_r. reflexivity. Qed.

Lemma sent_cons q alpha a l w :
  sent q alpha (a :: l) w = sent q alpha l (sent q alpha [a] w).
Proof. unfold sent. simpl. rewrite <- app_assoc. reflexivity. Qed.

Lemma sent_generations q alpha l w : generations (sent q alpha l w) = generations w.
Proof. reflexivity. Qed.

(** One attempt never raises: it yields the hits of the response, or none. *)
Lemma try_search_spec E q alpha s n w :
  UiGradio.try_search E q alpha s n w
  = (Returned (attempt_hits E q alpha s n w), sent q alpha [(s, n)] w).
Proof.
  unfold UiGradio.try_search, try_except, UiGradio.query_weaviate, bind,
    BackendCore.do_query, attempt_hits, sent. simpl.
  destruct (weaviate_do E w (BackendCore.request q n s alpha)) as [res|e];
    [|reflexivity].
  destruct (BackendCore.hits_of res); reflexivity.
Qed.

Lemma bind_try_search {B} E q alpha s n (f : list hit -> M B) w :
  bind (UiGradio.try_search E q alpha s n) f w
  = f (attempt_hits E q alpha s n w) (sent q alpha [(s, n)] w).
Proof. unfold bind. rewrite try_search_spec. reflexivity. Qed.

(** The loop over the strategies is the state machine over the attempts. *)
Lemma fallback_loop_first_accepted E q alpha k ms : forall hits w,
  UiGradio.fallback_loop E q alpha k ms hits w
  = first_accepted E q alpha
      (flat_map (fun s => [(s, k); (s, Z.min (2 * k) hard_cap)]) ms) hits w.
Proof.
  induction ms as [|s ms IH]; intros hits w; [reflexivity|].
  cbn [UiGradio.fallback_loop flat_map app first_accepted].
  rewrite !bind_try_search, loop_test_ok.
  destruct (BackendCore._ok E (attempt_hits E q alpha s k w) s); [reflexivity|].
  rewrite !bind_try_search, loop_test_ok.
  destruct (BackendCore._ok E _ s); [reflexivity|].
  apply IH.
Qed.

(** What a run over [attempts] does: it sends the requests of a prefix of
    the list, every attempt before the last one sent was rejected, and the
    run ends accepted at the last one sent or exhausted behind the list. *)
Lemma first_accepted_run E q alpha attempts : forall hits0 w,
  exists n hits used,
    first_accepted E q alpha attempts hits0 w
    = (Returned (hits, used), sent q alpha (firstn n attempts) w) /\
    (n <= List.length attempts)%nat /\
    match used with
    | Some s =>
        (0 < n)%nat /\
        all_rejected E q alpha (firstn (pred n) attempts) w = true /\
        exists kk,
          nth_error attempts (pred n) = Some (s, kk) /\
          hits = attempt_hits E q alpha s kk
                   (sent q alpha (firstn (pred n) attempts) w) /\
          BackendCore._ok E hits s = true
    | None =>
        n = List.length attempts /\
        all_rejected E q alpha attempts w = true
    end.
Proof.
  induction attempts as [|[s kk] rest IH]; intros hits0 w.
  - exists 0%nat, hits0, None. simpl. rewrite sent_nil. auto.
  - cbn [first_accepted]. rewrite bind_try_search.
    destruct (BackendCore._ok E (attempt_hits E q alpha s kk w) s) eqn:Hok.
    + exists 1%nat, (attempt_hits E q alpha s kk w), (Some s).
      simpl. rewrite sent_nil. repeat split; try lia.
      exists kk. auto.
    + destruct (IH (attempt_hits E q alpha s kk w) (sent q alpha [(s, kk)] w))
        as [n [hits [used [Hrun [Hn Hused]]]]].
      exists (S n), hits, used. rewrite Hrun.
      simpl firstn. rewrite (sent_cons q alpha (s, kk) (firstn n rest) w).
      split; [reflexivity|]. split; [simpl; lia|].
      destruct used as [u|].
      * destruct Hused as [Hpos [Hrej [kk' [Hnth [Hhits Hacc]]]]].
        destruct n as [|n]; [lia|]. simpl pred in *.
        split; [lia|]. split.
        -- simpl. rewrite Hok. exact Hrej.
        -- exists kk'. simpl firstn.
           rewrite (sent_cons q alpha (s, kk) (firstn n rest) w). auto.
      * destruct Hused as [-> Hrej]. split; [reflexivity|].
        simpl. rewrite Hok. exact Hrej.
Qed.

Lemma modes_to_try_order m : UiGradio.modes_to_try m = strategy_order m.
Proof. destruct m; reflexivity. Qed.

Lemma plan_length m k : List.length (plan m k) = 6%nat.
Proof. destruct m; reflexivity. Qed.

(** The loop of [ask] tries the preferred strategy first and then the
    other two in the fixed order; each strategy is tried with the requested
    [k] and, when that attempt is not accepted, once more with
    [min(2k, 15)]; the loop stops at the first accepted attempt.  So the
    requests sent are a non-empty prefix of the plan of six attempts, all
    attempts before the last one sent were rejected, and the loop ends
    with the hits and the strategy of the accepted attempt, or with no
    strategy after all six. *)
Lemma fallback_loop_order (E : env) (q : string) (alpha : float) (k : Z)
    (m : mode) (w : world) :
  UiGradio.modes_to_try m = strategy_order m /\
  plan m k
  = flat_map (fun s => [(s, k); (s, Z.min (2 * k) 15)]) (strategy_order m) /\
  exists n hits used,
    UiGradio.fallback_loop E q alpha k (UiGradio.modes_to_try m) [] w
    = (Returned (hits, used), sent q alpha (firstn n (plan m k)) w) /\
    (1 <= n <= 6)%nat /\
    all_rejected E q alpha (firstn (pred n) (plan m k)) w = true /\
    match used with
    | Some s =>
        exists kk,
          nth_error (plan m k) (pred n) = Some (s, kk) /\
          hits = attempt_hits E q alpha s kk
                   (sent q alpha (firstn (pred n) (plan m k)) w) /\
          BackendCore._ok E hits s = true
    | None => n = 6%nat /\ all_rejected E q alpha (plan m k) w = true
    end.
Proof.
  split; [apply modes_to_try_order|]. split; [reflexivity|].
  rewrite fallback_loop_first_accepted, modes_to_try_order.
  change (flat_map _ (strategy_order m)) with (plan m k).
  destruct (first_accepted_run E q alpha (plan m k) [] w)
    as [n [hits [used [Hrun [Hn Hused]]]]].
  rewrite plan_length in Hn.
  exists n, hits, used. split; [exact Hrun|].
  destruct used as [s|].
  - destruct Hused as [Hpos [Hrej Hacc]]. repeat split; try lia; assumption.
  - destruct Hused as [Hlen Hrej]. rewrite plan_length in Hlen. subst n.
    repeat split; try lia; try assumption.
    clear Hrun. revert Hrej. generalize (plan m k) as l.
    intros l. generalize 5%nat as j. revert w.
    induction l as [|[s kk] l IHl]; intros w j H.
    + destruct j; reflexivity.
    + destruct j as [|j]; [reflexivity|]. simpl in *.
      apply andb_true_iff in H. destruct H as [H1 H2].
      rewrite H1. simpl. apply IHl. exact H2.
Qed.

(** ** The pipeline when no attempt is accepted *)

(** [_query] sends one request and raises what the call or the decoding
    raises. *)
Lemma query_spec E q k s alpha w :
  BackendCore._query E q k s alpha w
  = (match weaviate_do E w (BackendCore.request q k s alpha) with
     | Returned res => BackendCore.hits_of res
     | Raised e => Raised e
     end, sent q alpha [(s, k)] w).
Proof.
  unfold BackendCore._query, bind, BackendCore.do_query, sent. simpl.
  destruct (weaviate_do E w (BackendCore.request q k s alpha)) as [res|e];
    [|reflexivity].
  destruct (BackendCore.hits_of res); reflexivity.
Qed.

Lemma rag_answer_rejected E q s alpha k rc w hits w1 :
  BackendCore._query E q k s alpha w = (Returned hits, w1) ->
  BackendCore._ok E hits s = false ->
  exists d,
    BackendCore.rag_answer E q s alpha k rc w
    = (Returned ("I don't know.", "", d), w1) /\
    generations w1 = generations w.
Proof.
  intros Hq Hok. unfold BackendCore.rag_answer, bind. rewrite Hq, Hok.
  eexists. split; [reflexivity|].
  rewrite query_spec in Hq. injection Hq as _ <-. reflexivity.
Qed.

Lemma first_accepted_all_rejected E q alpha attempts : forall hits0 w,
  all_rejected E q alpha attempts w = true ->
  exists hits,
    first_accepted E q alpha attempts hits0 w
    = (Returned (hits, None), sent q alpha attempts w).
Proof.
  induction attempts as [|[s n] rest IH]; intros hits0 w H.
  - exists hits0. simpl. rewrite sent_nil. reflexivity.
  - cbn [all_rejected] in H. apply andb_true_iff in H. destruct H as [H1 H2].
    apply negb_true_iff in H1.
    cbn [first_accepted]. rewrite bind_try_search, H1.
    destruct (IH (attempt_hits E q alpha s n w) _ H2) as [hits Hrun].
    exists hits. rewrite Hrun, (sent_cons q alpha (s, n) rest w). reflexivity.
Qed.

Lemma ask_exhausted E ch q s alpha k w :
  all_rejected E q alpha (plan s k) w = true ->
  UiGradio.ask E ch q s alpha k w
  = (Returned (((ch ++ [{| UiGradio.role := "user"; UiGradio.content := q |}])
                ++ [{| UiGradio.role := "assistant";
                       UiGradio.content := "I don't know." |}])%list, ""),
     sent q alpha (plan s k) w).
Proof.
  intros H. unfold UiGradio.ask, bind.
  rewrite fallback_loop_first_accepted, modes_to_try_order.
  change (flat_map _ (strategy_order s)) with (plan s k).
  destruct (first_accepted_all_rejected E q alpha (plan s k) [] w H) as [hits ->].
  destruct hits; reflexivity.
Qed.

(** C4. When the attempt of [rag_answer] fails the gate, and when every
    attempt of the loop of [ask] fails it, the pipeline answers with the
    sentinel ["I don't know."] and empty sources, and no generation request
    is sent. *)
Theorem C4_exhausted_sentinel (E : env) (ch : list UiGradio.message)
    (q : string) (s : mode) (alpha : float) (k : Z) (rc : bool) (w : world) :
  (forall hits w1,
     BackendCore._query E q k s alpha w = (Returned hits, w1) ->
     BackendCore._ok E hits s = false ->
     exists d,
       BackendCore.rag_answer E q s alpha k rc w
       = (Returned ("I don't know.", "", d), w1) /\
       generations w1 = generations w) /\
  (all_rejected E q alpha (plan s k) w = true ->
   exists w',
     UiGradio.ask E ch q s alpha k w
     = (Returned (((ch ++ [{| UiGradio.role := "user"; UiGradio.content := q |}])
                   ++ [{| UiGradio.role := "assistant";
                          UiGradio.content := "I don't know." |}])%list, ""), w') /\
     generations w' = generations w).
Proof.
  split.
  - intros hits w1. apply rag_answer_rejected.
  - intros H. eexists. split; [apply ask_exhausted; exact H|reflexivity].
Qed.

(** Scenario B: every strategy returns hits whose score is 0.1, and
    likewise when every strategy returns no hit. *)
Lemma C4_witness :
  (exists d,
     BackendCore.rag_answer all_weak "How do I add a grid?" hybrid 0.4 10 true fresh
     = (Returned ("I don't know.", "", d),
        sent "How do I add a grid?" 0.4 [(hybrid, 10%Z)] fresh) /\
     generations (sent "How do I add a grid?" 0.4 [(hybrid, 10%Z)] fresh)
     = generations fresh) /\
  (exists w',
     UiGradio.ask all_weak [] "How do I add a grid?" hybrid 0.4 10 fresh
     = (Returned ([{| UiGradio.role := "user";
                      UiGradio.content := "How do I add a grid?" |};
                   {| UiGradio.role := "assistant";
                      UiGradio.content := "I don't know." |}], ""), w') /\
     generations w' = generations fresh).
Proof.
  destruct (C4_exhausted_sentinel all_weak [] "How do I add a grid?" hybrid 0.4 10
              true fresh) as [H1 H2].
  split.
  - apply (H1 [weak; weak]); reflexivity.
  - apply H2. reflexivity.
Defined.

(** ** Errors of the backends *)

(** In [ask] a failing retrieval call counts as an attempt without hits. *)
Lemma try_search_raising E q alpha s n w e :
  weaviate_do E w (BackendCore.request q n s alpha) = Raised e ->
  UiGradio.try_search E q alpha s n w = (Returned [], sent q alpha [(s, n)] w).
Proof.
  intros H. rewrite try_search_spec. unfold attempt_hits. rewrite H. reflexivity.
Qed.

(** In [rag_answer] it is raised to the caller. *)
Lemma rag_answer_search_raising E q s alpha k rc w e :
  weaviate_do E w (BackendCore.request q k s alpha) = Raised e ->
  BackendCore.rag_answer E q s alpha k rc w = (Raised e, sent q alpha [(s, k)] w).
Proof.
  intros H. unfold BackendCore.rag_answer, bind. rewrite query_spec, H. reflexivity.
Qed.

(** The decoding of a response raises only when ["data"] is null: a
    missing response, a missing ["data"], a missing or null ["Get"] or
    class entry all give no hits. *)
Lemma hits_of_raises res e :
  BackendCore.hits_of res = Raised e ->
  exists r, res = Some r /\ data r = Null.
Proof.
  unfold BackendCore.hits_of. destruct res as [r|]; [|discriminate].
  destruct (data r) as [| |d] eqn:Hd; try discriminate.
  - intros _. exists r. auto.
  - destruct (Get d); discriminate.
Qed.

(** C8. With the search backend unreachable, and with a response whose
    ["data"] is null, [try_search] yields no hits, but [_query] raises and
    [rag_answer] passes the error on to its caller. *)
Theorem C8_query_propagates :
  fst (UiGradio.try_search search_down "q" 0.4 hybrid 10 fresh) = Returned [] /\
  fst (BackendCore._query search_down "q" 10 hybrid 0.4 fresh)
  = Raised (Exn "Connection refused") /\
  fst (BackendCore.rag_answer search_down "q" hybrid 0.4 10 true fresh)
  = Raised (Exn "Connection refused") /\
  fst (UiGradio.try_search search_null_data "q" 0.4 hybrid 10 fresh) = Returned [] /\
  fst (BackendCore.rag_answer search_null_data "q" hybrid 0.4 10 true fresh)
  = Raised (Exn "'NoneType' object has no attribute 'get'").
Proof. repeat split; reflexivity. Qed.

(** [rag_answer] reports a failing generation under its own heading. *)
Lemma rag_answer_generation_error E q s alpha k rc w hits w1 e :
  BackendCore._query E q k s alpha w = (Returned hits, w1) ->
  BackendCore._ok E hits s = true ->
  ollama_post E w1
    {| g_model := MODEL E;
       g_prompt := BackendCore._prompt q (fst (BackendCore._ctx hits));
       g_num_predict := 1200 |} = Raised e ->
  exists d w2,
    BackendCore.rag_answer E q s alpha k rc w
    = (Returned ("Generation error: " ++ str_exn e, "", d), w2).
Proof.
  intros Hq Hok Hgen. unfold BackendCore.rag_answer, bind at 1. rewrite Hq, Hok.
  cbn [negb]. destruct (BackendCore._ctx hits) as [ctx src]. cbn [fst] in Hgen.
  unfold bind, try_except, BackendCore.generate, bind, BackendCore._gen, bind,
    BackendCore.post_generate.
  rewrite Hgen. eexists. eexists. reflexivity.
Qed.

(** [ask] replaces the error message it builds by the sentinel, unless
    the text of the error happens to hold a citation marker. *)
Lemma ask_generation_error E ch q s alpha k w h hits u w1 e :
  UiGradio.fallback_loop E q alpha k (UiGradio.modes_to_try s) [] w
  = (Returned (h :: hits, Some u), w1) ->
  ollama_post E w1
    {| g_model := MODEL E;
       g_prompt := UiGradio.build_prompt q (fst (UiGradio.build_context E (h :: hits)));
       g_num_predict := 600 |} = Raised e ->
  has_citation ("I encountered an error while generating the response: "
                ++ str_exn e) = false ->
  exists w2,
    UiGradio.ask E ch q s alpha k w
    = (Returned (((ch ++ [{| UiGradio.role := "user"; UiGradio.content := q |}])
                  ++ [{| UiGradio.role := "assistant";
                         UiGradio.content := "I don't know." |}])%list, ""), w2).
Proof.
  intros Hloop Hgen Hc. unfold UiGradio.ask, bind at 1. rewrite Hloop.
  destruct (UiGradio.build_context E (h :: hits)) as [ctx src_md].
  cbn [fst] in Hgen.
  unfold bind at 1, try_except, bind at 1, UiGradio.call_ollama, bind,
    BackendCore.post_generate.
  rewrite Hgen. cbn [ret]. rewrite Hc. eexists. reflexivity.
Qed.

(** C6. With a strong hit and the generation backend unreachable,
    [rag_answer] returns the text ["Generation error: Connection refused"],
    but [ask], for the same question, which it routes to retrieval, ends
    with the sentinel ["I don't know."]: its citation check replaces the
    error message it has just built. *)
Theorem C6_ask_conflates_error :
  fst (BackendCore.rag_answer generation_down grid_question hybrid 0.4 10 true fresh)
  = Returned ("Generation error: Connection refused", "",
              {| BackendCore.d_hits := 1; BackendCore.d_best_conf := 0.9;
                 BackendCore.d_mode := hybrid; BackendCore.d_alpha := 0.4;
                 BackendCore.d_k := 10 |}) /\
  UiChat.is_capabilities_question grid_question = false /\
  UiChat.detect_smalltalk (Some grid_question) = (false, None) /\
  (exists prompt,
     UiChat.ask generation_down [] (Some grid_question) hybrid 0.4 10 fresh
     = (Returned ([{| UiGradio.role := "user"; UiGradio.content := grid_question |};
                   {| UiGradio.role := "assistant";
                      UiGradio.content := "I don't know." |}], ""),
        generated [{| g_model := "deepseek-r1:1.5b"; g_prompt := prompt;
                      g_num_predict := 600 |}]
          (sent grid_question 0.4 [(hybrid, 10%Z)] fresh))).
Proof.
  split; [vm_compute; reflexivity|].
  split; [vm_compute; reflexivity|].
  split; [vm_compute; reflexivity|].
  eexists. vm_compute. reflexivity.
Qed.

(** ** Facts about text *)

Module TextFacts.

Ltac by_ascii c :=
  destruct c as [[|] [|] [|] [|] [|] [|] [|] [|]];
  try reflexivity; try discriminate.

Lemma app_s_nil (s : string) : s ++ "" = s.
Proof. induction s as [|c s IH]; simpl; [reflexivity|rewrite IH; reflexivity]. Qed.

Lemma app_s_assoc (a b c : string) : (a ++ b) ++ c = a ++ (b ++ c).
Proof. induction a as [|x a IH]; simpl; [reflexivity|rewrite IH; reflexivity]. Qed.

Lemma all_space_app a b : all_space (a ++ b) = all_space a && all_space b.
Proof.
  induction a as [|c a IH]; simpl; [reflexivity|].
  rewrite IH. apply andb_assoc.
Qed.

Lemma rstrip_all_space s : all_space s = true -> rstrip s = "".
Proof.
  induction s as [|c t IH]; simpl; [reflexivity|].
  intros H. apply andb_true_iff in H. destruct H as [Hc Ht].
  rewrite (IH Ht), Hc. reflexivity.
Qed.

Lemma rstrip_empty_all_space s : is_empty (rstrip s) = true -> all_space s = true.
Proof.
  induction s as [|c t IH]; simpl; [reflexivity|].
  destruct (is_space c); simpl; [|discriminate].
  destruct (is_empty (rstrip t)); simpl; [auto|discriminate].
Qed.

Lemma rstrip_not_all_space s : all_space (rstrip s) = true -> rstrip s = "".
Proof.
  induction s as [|c t IH]; simpl; [reflexivity|].
  destruct (is_space c) eqn:Hc; simpl.
  - destruct (is_empty (rstrip t)) eqn:He; [reflexivity|].
    simpl. rewrite Hc. simpl. intros H. rewrite (IH H) in He. discriminate.
  - rewrite Hc. discriminate.
Qed.

Lemma lstrip_empty_all_space s : is_empty (lstrip s) = true -> all_space s = true.
Proof.
  induction s as [|c t IH]; simpl; [reflexivity|].
  destruct (is_space c); simpl; [exact IH|discriminate].
Qed.

Lemma lstrip_all_space s : all_space s = true -> lstrip s = "".
Proof.
  induction s as [|c t IH]; simpl; [reflexivity|].
  destruct (is_space c); simpl; [exact IH|discriminate].
Qed.

Lemma strip_empty_all_space s : is_empty (strip s) = true -> all_space s = true.
Proof.
  unfold strip. intros H. apply lstrip_empty_all_space in H.
  apply rstrip_not_all_space in H.
  apply rstrip_empty_all_space. rewrite H. reflexivity.
Qed.

Lemma strip_all_space s : all_space s = true -> strip s = "".
Proof. intros H. unfold strip. rewrite (rstrip_all_space s H). reflexivity. Qed.

Lemma space_not_open c : is_space c = true -> eqb_ci "<" c = false.
Proof. by_ascii c. Qed.

Lemma space_not_header_start c :
  is_space c = true -> Ascii.eqb c nl_char = false -> eqb_ci "s" c = false.
Proof. by_ascii c. Qed.

Lemma all_space_no_header t : all_space t = true -> sources_header t = false.
Proof.
  induction t as [|c t IH]; simpl; [reflexivity|].
  intros H. apply andb_true_iff in H. destruct H as [Hc Ht].
  destruct (Ascii.eqb c nl_char) eqn:Hn; [exact (IH Ht)|].
  rewrite (space_not_header_start c Hc Hn). reflexivity.
Qed.

Lemma sub_think_all_space s : forall prev,
  all_space s = true -> sub_from think_re 0 prev s = s.
Proof.
  induction s as [|c t IH]; intros prev H; [reflexivity|].
  simpl in H. apply andb_true_iff in H. destruct H as [Hc Ht].
  cbn [sub_from]. unfold think_re at 1. cbn [prefix_ci].
  rewrite (space_not_open c Hc). cbn [andb]. rewrite (IH _ Ht). reflexivity.
Qed.

Lemma sub_sources_all_space s : forall prev,
  all_space s = true -> sub_from sources_re 0 prev s = s.
Proof.
  induction s as [|c t IH]; intros prev H; [reflexivity|].
  simpl in H. apply andb_true_iff in H. destruct H as [Hc Ht].
  cbn [sub_from]. unfold sources_re at 1.
  rewrite (all_space_no_header t Ht), andb_false_r, (IH _ Ht). reflexivity.
Qed.

(** A blank text stays blank under [_strip]. *)
Lemma strip_blank raw : blank raw = true -> BackendCore._strip raw = "".
Proof.
  unfold blank, BackendCore._strip. intros H.
  apply strip_empty_all_space in H.
  unfold re_sub. rewrite (sub_think_all_space _ None H).
  rewrite (sub_sources_all_space _ None H). apply strip_all_space, H.
Qed.

End TextFacts.

Import TextFacts.

(** ** The generation retry *)

Lemma gen_spec E prompt n w :
  BackendCore._gen E prompt n w
  = (match ollama_post E w {| g_model := MODEL E; g_prompt := prompt;
                               g_num_predict := n |} with
     | Returned r => Returned (BackendCore.response_text r)
     | Raised e => Raised e
     end,
     generated [{| g_model := MODEL E; g_prompt := prompt; g_num_predict := n |}] w).
Proof.
  unfold BackendCore._gen, bind, BackendCore.post_generate, generated.
  destruct (ollama_post E w _); reflexivity.
Qed.

Lemma generated_app a b w : generated b (generated a w) = generated (a ++ b) w.
Proof. unfold generated. simpl. rewrite app_assoc. reflexivity. Qed.

(** [rag_answer] has no orchestrator of its own: it makes one attempt, with
    the strategy and the result count of the caller. *)
Lemma rag_answer_single_attempt E q s alpha k rc w :
  searches (snd (BackendCore.rag_answer E q s alpha k rc w))
  = (searches w ++ [BackendCore.request q k s alpha])%list.
Proof.
  unfold BackendCore.rag_answer, bind at 1. rewrite query_spec.
  destruct (weaviate_do E w (BackendCore.request q k s alpha)) as [res|e];
    [|reflexivity].
  destruct (BackendCore.hits_of res) as [hits|e]; [|reflexivity].
  destruct (negb (BackendCore._ok E hits s)); [reflexivity|].
  destruct (BackendCore._ctx hits) as [ctx src].
  unfold bind at 1, try_except, bind at 1, BackendCore.generate, bind at 1.
  rewrite gen_spec.
  destruct (ollama_post E _ _) as [r1|e1]; [|reflexivity].
  destruct (is_empty (strip (BackendCore._strip (BackendCore.response_text r1))));
    [|reflexivity].
  unfold bind at 1. rewrite gen_spec.
  destruct (ollama_post E _ _) as [r2|e2]; reflexivity.
Qed.

(** C2. [rag_answer] has no Fallback Orchestrator: whatever the backends
    do, it sends the one request of the caller's strategy and result
    count.  Where the hybrid strategy finds a hit of score 0.1 and the
    bm25 strategy one of score 0.9, [rag_answer] called for hybrid gives
    up with the sentinel after that one request, with no retry and no
    other strategy, while [ask], called for hybrid with the same question,
    goes on as the orchestrator should (hybrid with 10, hybrid with 15,
    bm25 with 10) and answers from the bm25 hit. *)
Theorem C2_rag_answer_no_fallback :
  (forall E q m alpha k rc w,
     searches (snd (BackendCore.rag_answer E q m alpha k rc w))
     = (searches w ++ [BackendCore.request q k m alpha])%list) /\
  BackendCore.rag_answer strong_on_bm25 grid_question hybrid 0.4 10 true fresh
  = (Returned ("I don't know.", "", diag_of strong_on_bm25 [weak] hybrid 0.4 10),
     sent grid_question 0.4 [(hybrid, 10%Z)] fresh) /\
  (exists src prompt,
     UiChat.ask strong_on_bm25 [] (Some grid_question) hybrid 0.4 10 fresh
     = (Returned ([{| UiGradio.role := "user"; UiGradio.content := grid_question |};
                   {| UiGradio.role := "assistant";
                      UiGradio.content := "Use the Grid tool. [1]" |}], src),
        generated [{| g_model := "deepseek-r1:1.5b"; g_prompt := prompt;
                      g_num_predict := 600 |}]
          (sent grid_question 0.4
             [(hybrid, 10%Z); (hybrid, 15%Z); (bm25, 10%Z)] fresh))).
Proof.
  split; [intros E q m alpha k rc w; apply rag_answer_single_attempt|].
  split; [vm_compute; reflexivity|].
  do 2 eexists. vm_compute. reflexivity.
Qed.

Lemma generate_retry E q ctx w first second :
  let call1 := {| g_model := MODEL E; g_prompt := BackendCore._prompt q ctx;
                  g_num_predict := 1200 |} in
  let call2 := {| g_model := MODEL E;
                  g_prompt := BackendCore._prompt q ctx ++ BackendCore.brief_suffix;
                  g_num_predict := 400 |} in
  ollama_post E w call1 = Returned first ->
  blank (BackendCore.response_text first) = true ->
  ollama_post E (generated [call1] w) call2 = Returned second ->
  BackendCore.generate E q ctx w
  = (Returned (BackendCore._strip (BackendCore.response_text second)),
     generated [call1; call2] w).
Proof.
  intros call1 call2 H1 Hb H2.
  unfold BackendCore.generate, bind at 1. rewrite gen_spec.
  fold call1. rewrite H1.
  rewrite (strip_blank _ Hb). cbn [strip rstrip lstrip is_empty].
  unfold bind. rewrite gen_spec. fold call2. rewrite H2.
  unfold ret. rewrite generated_app. reflexivity.
Qed.

(** C7. When the first generation call of [rag_answer], made with a budget
    of 1200 tokens, returns empty or whitespace-only text, exactly one more
    call is made: with the prompt extended by the brief instruction and a
    budget of 400 tokens.  The text of that call, stripped and passed
    through the checks of the validator, is the answer; it is the answer
    unchanged when it carries a citation and does not mention the denied
    product. *)
Theorem C7_single_retry (E : env) (q : string) (s : mode) (alpha : float)
    (k : Z) (rc : bool) (w w1 : world) (hits : list hit)
    (first second : field string) :
  let ctx := fst (BackendCore._ctx hits) in
  let src := snd (BackendCore._ctx hits) in
  let call1 := {| g_model := MODEL E; g_prompt := BackendCore._prompt q ctx;
                  g_num_predict := 1200 |} in
  let call2 := {| g_model := MODEL E;
                  g_prompt := BackendCore._prompt q ctx ++ BackendCore.brief_suffix;
                  g_num_predict := 400 |} in
  let answer := BackendCore._strip (BackendCore.response_text second) in
  BackendCore._query E q k s alpha w = (Returned hits, w1) ->
  BackendCore._ok E hits s = true ->
  ollama_post E w1 call1 = Returned first ->
  blank (BackendCore.response_text first) = true ->
  ollama_post E (generated [call1] w1) call2 = Returned second ->
  exists d,
    BackendCore.rag_answer E q s alpha k rc w
    = (Returned (BackendCore.validate rc answer src d), generated [call1; call2] w1) /\
    (g_num_predict call2 < g_num_predict call1)%Z /\
    (has_citation answer = true -> mentions_autocad answer = false ->
     BackendCore.validate rc answer src d = (answer, src, d)).
Proof.
  intros ctx src call1 call2 answer Hq Hok H1 Hb H2.
  eexists. split; [|split].
  - unfold BackendCore.rag_answer, bind at 1. rewrite Hq, Hok. cbn [negb].
    destruct (BackendCore._ctx hits) as [ctx' src'] eqn:Hctx.
    subst ctx src. cbn [fst snd] in *.
    unfold bind at 1, try_except, bind at 1.
    rewrite (@generate_retry E q ctx' w1 first second H1 Hb H2).
    reflexivity.
  - reflexivity.
  - intros Hc Ha. unfold BackendCore.validate.
    rewrite Hc, andb_false_r, Ha. reflexivity.
Qed.

(** Scenario C: the generation backend returns the empty string first and
    ["Final answer. [1]"] on the retry. *)
Lemma C7_witness :
  exists d,
    BackendCore.rag_answer (answering_second "Final answer. [1]") "q" hybrid 0.4 10 true fresh
    = (Returned ("Final answer. [1]",
                 snd (BackendCore._ctx [grids]), d),
       generated
         [{| g_model := "deepseek-r1:1.5b";
             g_prompt := BackendCore._prompt "q" (fst (BackendCore._ctx [grids]));
             g_num_predict := 1200 |};
          {| g_model := "deepseek-r1:1.5b";
             g_prompt := BackendCore._prompt "q" (fst (BackendCore._ctx [grids]))
                         ++ BackendCore.brief_suffix;
             g_num_predict := 400 |}]
         (sent "q" 0.4 [(hybrid, 10%Z)] fresh)).
Proof.
  destruct (@C7_single_retry (answering_second "Final answer. [1]") "q" hybrid
              0.4 10 true fresh (sent "q" 0.4 [(hybrid, 10%Z)] fresh) [grids]
              (Present "") (Present "Final answer. [1]")
              eq_refl eq_refl eq_refl eq_refl eq_refl) as [d [Hrun [_ Hval]]].
  exists d. rewrite Hrun. rewrite Hval; reflexivity.
Defined.

(** ** Citations *)

Module CitationFacts.

Lemma span_digits_app t z :
  no_join z = true ->
  span_digits (t ++ z) = (fst (span_digits t), snd (span_digits t) ++ z).
Proof.
  intros Hz. induction t as [|c t IH]; simpl.
  - destruct z as [|x z]; [reflexivity|]. simpl in Hz.
    apply andb_true_iff in Hz. destruct Hz as [Hd _].
    apply negb_true_iff in Hd. simpl. rewrite Hd. reflexivity.
  - destruct (is_digit c); [|reflexivity].
    rewrite IH. destruct (span_digits t). reflexivity.
Qed.

Lemma cite_at_app c t z :
  no_join z = true -> cite_at (String c t ++ z) = cite_at (String c t).
Proof.
  intros Hz. simpl. by_ascii c.
  rewrite (span_digits_app t z Hz).
  destruct (span_digits t) as [d r]. simpl.
  destruct d as [|x d]; [reflexivity|].
  destruct r as [|y r]; [|reflexivity]. simpl.
  destruct z as [|y z]; [reflexivity|]. simpl in Hz.
  apply andb_true_iff in Hz. destruct Hz as [_ Hb].
  apply negb_true_iff in Hb. by_ascii y.
Qed.

Lemma citations_app s z :
  no_join z = true -> citations (s ++ z) = (citations s ++ citations z)%list.
Proof.
  intros Hz. induction s as [|c t IH]; [reflexivity|].
  change (citations (String c t ++ z))
    with (match cite_at (String c t ++ z) with
          | Some d => int_of_digits d :: citations (t ++ z)
          | None => citations (t ++ z)
          end).
  rewrite (cite_at_app c t z Hz), IH. cbn [citations].
  destruct (cite_at (String c t)); reflexivity.
Qed.

Lemma space_not_bracket c : is_space c = true -> Ascii.eqb c "[" = false.
Proof. by_ascii c. Qed.

Lemma space_no_join c z : is_space c = true -> no_join (String c z) = true.
Proof. by_ascii c. Qed.

Lemma cite_at_space c t : is_space c = true -> cite_at (String c t) = None.
Proof. by_ascii c. Qed.

Lemma citations_all_space s : all_space s = true -> citations s = [].
Proof.
  induction s as [|c t IH]; [reflexivity|].
  simpl all_space. intros H. apply andb_true_iff in H. destruct H as [Hc Ht].
  cbn [citations]. rewrite (cite_at_space c t Hc). exact (IH Ht).
Qed.

Lemma citations_lstrip s : citations (lstrip s) = citations s.
Proof.
  induction s as [|c t IH]; [reflexivity|].
  cbn [lstrip]. destruct (is_space c) eqn:Hc; [|reflexivity].
  cbn [citations]. rewrite (cite_at_space c t Hc). exact IH.
Qed.

Lemma rstrip_split s : exists ws, s = rstrip s ++ ws /\ all_space ws = true.
Proof.
  induction s as [|c t [ws [Ht Hws]]]; [exists ""; auto|].
  cbn [rstrip].
  destruct (is_space c && is_empty (rstrip t)) eqn:Hc.
  - exists (String c t). split; [reflexivity|].
    apply andb_true_iff in Hc. destruct Hc as [Hc He].
    simpl. rewrite Hc. apply rstrip_empty_all_space, He.
  - exists ws. split; [|exact Hws]. simpl. rewrite <- Ht. reflexivity.
Qed.

Lemma citations_rstrip s : citations (rstrip s) = citations s.
Proof.
  destruct (rstrip_split s) as [ws [Hs Hws]].
  rewrite Hs at 2. rewrite citations_app.
  - rewrite (citations_all_space ws Hws), app_nil_r. reflexivity.
  - destruct ws as [|c ws]; [reflexivity|].
    simpl in Hws. apply andb_true_iff in Hws. apply space_no_join, Hws.
Qed.

Lemma rstrip_app_kept y z :
  rstrip z = z -> is_empty z = false -> rstrip (y ++ z) = y ++ z.
Proof.
  intros Hz Hne. induction y as [|c y IH]; [exact Hz|].
  simpl. rewrite IH.
  replace (is_empty (y ++ z)) with false.
  - rewrite andb_false_r. reflexivity.
  - destruct y; [symmetry; exact Hne|reflexivity].
Qed.

(** The answer with the citation the pipeline appends. *)
Lemma citations_appended a :
  citations (strip (rstrip a ++ " [1]")) = (citations a ++ [1%N])%list.
Proof.
  unfold strip. rewrite (@rstrip_app_kept (rstrip a) " [1]" eq_refl eq_refl).
  rewrite citations_lstrip, citations_app by reflexivity.
  rewrite citations_rstrip. reflexivity.
Qed.

Lemma search_cite_none s : forall prev,
  search_from cite_re prev s = None <-> citations s = [].
Proof.
  induction s as [|c t IH]; intros prev.
  - simpl. split; reflexivity.
  - cbn [search_from citations]. unfold cite_re at 1.
    destruct (cite_at (String c t)).
    + split; discriminate.
    + apply IH.
Qed.

Lemma has_citation_false s : has_citation s = false -> citations s = [].
Proof.
  unfold has_citation, re_found, re_search. intros H.
  apply (search_cite_none s None).
  destruct (search_from cite_re None s); [discriminate|reflexivity].
Qed.

Lemma has_citation_true s : citations s <> [] -> has_citation s = true.
Proof.
  unfold has_citation, re_found, re_search. intros H.
  destruct (search_from cite_re None s) eqn:Hs; [reflexivity|].
  apply search_cite_none in Hs. contradiction.
Qed.

End CitationFacts.

Import CitationFacts.

(** C5, as stated, fails: with one source, an answer of the generation
    backend that cites [7] is returned as it is. *)
Lemma C5_counterexample :
  exists ans src d w',
    BackendCore.rag_answer (answering "Use the grid tool. [7]") "q" hybrid 0.4 10
      true fresh = (Returned (ans, src, d), w') /\
    In 7%N (citations ans) /\
    source_count src d = 1%N /\
    citations_in_range ans (source_count src d) = false.
Proof.
  do 4 eexists. split; [vm_compute; reflexivity|].
  split; [left; reflexivity|]. split; reflexivity.
Qed.

(** C5, amended. With [require_citation] set, an answer that [rag_answer]
    returns together with sources carries a citation, and there is at
    least one source.  When the generated text carries a citation, it is
    returned as it is, its indices unchecked; when it carries none, the
    pipeline appends [[1]], which is then the only citation index, and
    every index is one of 1 .. len(sources). *)
Theorem C5_appended_citation_in_range (E : env) (q : string) (s : mode)
    (alpha : float) (k : Z) (w w' : world) (ans src : string)
    (d : BackendCore.diagnostics) :
  BackendCore.rag_answer E q s alpha k true w = (Returned (ans, src, d), w') ->
  is_empty src = false ->
  has_citation ans = true /\
  (1 <= source_count src d)%N /\
  exists hits w1 a,
    BackendCore._query E q k s alpha w = (Returned hits, w1) /\
    BackendCore.generate E q (fst (BackendCore._ctx hits)) w1 = (Returned a, w') /\
    source_count src d = N.of_nat (List.length hits) /\
    (has_citation a = true -> ans = a) /\
    (has_citation a = false ->
     citations ans = [1%N] /\
     citations_in_range ans (source_count src d) = true).
Proof.
  intros Hrun Hsrc.
  unfold BackendCore.rag_answer, bind at 1 in Hrun.
  destruct (BackendCore._query E q k s alpha w) as [[hits|e] w1] eqn:Hq;
    [|discriminate].
  destruct (BackendCore._ok E hits s) eqn:Hok; cbn [negb] in Hrun;
    [|injection Hrun as <- <- <- <-; discriminate].
  destruct (BackendCore._ctx hits) as [ctx src0] eqn:Hctx.
  unfold bind at 1, try_except, bind at 1 in Hrun.
  destruct (BackendCore.generate E q ctx w1) as [[a|e] w2] eqn:Hgen;
    cbn in Hrun; [|injection Hrun as <- <- <- <-; discriminate].
  assert (Hhits : (1 <= N.of_nat (List.length hits))%N).
  { destruct hits; [discriminate Hok|]. simpl List.length. lia. }
  unfold BackendCore.validate in Hrun. cbn [andb] in Hrun.
  destruct (has_citation a) eqn:Hc; cbn [negb] in Hrun.
  - destruct (mentions_autocad a);
      injection Hrun as <- <- <- <-; [discriminate|].
    unfold source_count. rewrite Hsrc. cbn [BackendCore.d_hits].
    split; [exact Hc|]. split; [exact Hhits|].
    exists hits, w1, a. rewrite Hctx. cbn [fst].
    split; [reflexivity|]. split; [exact Hgen|]. split; [reflexivity|].
    split; [reflexivity|]. intros Hf. congruence.
  - destruct (is_empty src0) eqn:He; cbn [negb] in Hrun;
      [injection Hrun as <- <- <- <-; discriminate|].
    destruct (mentions_autocad (strip (rstrip a ++ " [1]")));
      injection Hrun as <- <- <- <-; [discriminate|].
    pose proof (citations_appended a) as Hcit.
    rewrite (has_citation_false a Hc) in Hcit. cbn [app] in Hcit.
    unfold source_count. rewrite He. cbn [BackendCore.d_hits].
    split; [apply has_citation_true; rewrite Hcit; discriminate|].
    split; [exact Hhits|].
    exists hits, w1, a. rewrite Hctx. cbn [fst].
    split; [reflexivity|]. split; [exact Hgen|]. split; [reflexivity|].
    split; [intros Hf; congruence|]. intros _. split; [exact Hcit|].
    unfold citations_in_range. rewrite Hcit. cbn [forallb].
    rewrite andb_true_r. apply andb_true_iff. split; [reflexivity|].
    apply N.leb_le. exact Hhits.
Qed.

(** With an answer that carries no citation, [[1]] is appended. *)
Lemma C5_witness :
  has_citation "Use the grid tool. [1]" = true /\
  (1 <= source_count (snd (BackendCore._ctx [grids]))
          {| BackendCore.d_hits := 1; BackendCore.d_best_conf := 0.9;
             BackendCore.d_mode := hybrid; BackendCore.d_alpha := 0.4;
             BackendCore.d_k := 10 |})%N.
Proof.
  destruct (@C5_appended_citation_in_range (answering "Use the grid tool.") "q"
              hybrid 0.4 10 fresh _ _ _ _ eq_refl eq_refl) as [H1 [H2 _]].
  split; [exact H1|exact H2].
Defined.

(** ** The stripping step of the Answer Validator *)

Module StripFacts.

Lemma prefix_ci_app_aux y Y r : forall p,
  none_matches p y = true ->
  prefix_ci p (r ++ String y Y) = prefix_ci p r.
Proof.
  induction r as [|c r IH]; intros [|a p] H; try reflexivity.
  - simpl in H. apply andb_true_iff in H. destruct H as [H _].
    apply negb_true_iff in H. simpl. rewrite H. reflexivity.
  - simpl in H. apply andb_true_iff in H. destruct H as [_ H].
    simpl. rewrite (IH p H). reflexivity.
Qed.

(** An occurrence of [a p] cannot start inside a non-empty [r] and run
    into a text whose first character matches none of [p]. *)
Lemma prefix_ci_app a p c r Y :
  match Y with String y _ => none_matches p y | EmptyString => true end = true ->
  prefix_ci (String a p) (String c r ++ Y) = prefix_ci (String a p) (String c r).
Proof.
  destruct Y as [|y Y]; intros H.
  - rewrite app_s_nil. reflexivity.
  - simpl. rewrite (prefix_ci_app_aux y Y r p H). reflexivity.
Qed.

Lemma prefix_ci_mono p : forall a b,
  prefix_ci p a = true -> prefix_ci p (a ++ b) = true.
Proof.
  induction p as [|x p IH]; intros [|c a] b H; try reflexivity; try discriminate.
  simpl in *. apply andb_true_iff in H. destruct H as [H1 H2].
  rewrite H1, (IH a b H2). reflexivity.
Qed.

Lemma contains_ci_false_cons p c t :
  contains_ci p (String c t) = false ->
  prefix_ci p (String c t) = false /\ contains_ci p t = false.
Proof. cbn [contains_ci]. intros H. apply orb_false_iff in H. exact H. Qed.

Lemma contains_ci_app_l p a : forall b,
  contains_ci p (a ++ b) = false -> contains_ci p a = false.
Proof.
  induction a as [|c a IH]; intros b H.
  - destruct p as [|x p]; [|reflexivity].
    destruct b; discriminate H.
  - change (String c a ++ b) with (String c (a ++ b)) in H.
    apply contains_ci_false_cons in H. destruct H as [H1 H2].
    cbn [contains_ci]. rewrite (IH b H2), orb_false_r.
    destruct (prefix_ci p (String c a)) eqn:Hp; [|reflexivity].
    rewrite <- H1. symmetry. apply (prefix_ci_mono p (String c a) b Hp).
Qed.

Lemma contains_ci_app_r p a : forall b,
  contains_ci p (a ++ b) = false -> contains_ci p b = false.
Proof.
  induction a as [|c a IH]; intros b H; [exact H|].
  change (String c a ++ b) with (String c (a ++ b)) in H.
  apply contains_ci_false_cons in H. apply IH, H.
Qed.

(** *** Deleting matches *)

Lemma sub_from_skip_all re s : forall n prev,
  (String.length s <= n)%nat -> sub_from re n prev s = "".
Proof.
  induction s as [|c t IH]; intros n prev H; [reflexivity|].
  simpl in H. destruct n as [|n]; [lia|]. cbn [sub_from]. apply IH. lia.
Qed.

Lemma sub_from_skip re s : forall n prev,
  (n <= String.length s)%nat ->
  exists prev', sub_from re n prev s = sub_from re 0 prev' (drop n s).
Proof.
  induction s as [|c t IH]; intros n prev H.
  - exists prev. destruct n; reflexivity.
  - destruct n as [|n]; [exists prev; reflexivity|].
    cbn [sub_from drop]. apply IH. simpl in H. lia.
Qed.

(** The matcher of the think pattern does not look at the character
    before the match. *)
Lemma sub_think_prev s : forall n p1 p2,
  sub_from think_re n p1 s = sub_from think_re n p2 s.
Proof.
  induction s as [|c t IH]; intros n p1 p2; [reflexivity|].
  cbn [sub_from]. destruct n as [|n]; [reflexivity|apply IH].
Qed.

Lemma sub_sources_cut s : forall prev,
  sub_from sources_re 0 prev s = cut_sources s.
Proof.
  induction s as [|c t IH]; intros prev; [reflexivity|].
  cbn [sub_from cut_sources]. unfold sources_re at 1.
  destruct (Ascii.eqb c nl_char && sources_header t).
  - cbn [String.length]. apply sub_from_skip_all. lia.
  - rewrite IH. reflexivity.
Qed.

(** *** The think pattern *)

Lemma angle_none_think y : eqb_ci "<" y = true -> none_matches "think>" y = true.
Proof. by_ascii y. Qed.

Lemma angle_none_close y : eqb_ci "<" y = true -> none_matches "/think>" y = true.
Proof. by_ascii y. Qed.

Lemma starts_angle_none (p : string) (Y : string) :
  (forall y, eqb_ci "<" y = true -> none_matches p y = true) ->
  starts_angle Y = true ->
  match Y with String y _ => none_matches p y | EmptyString => true end = true.
Proof. intros H HY. destruct Y as [|y Y]; [reflexivity|]. apply H, HY. Qed.

(** A text without opening marker is passed through, up to a following
    text that starts with an angle bracket. *)
Lemma sub_think_through pre : forall Y,
  contains_ci "<think>" pre = false ->
  starts_angle Y = true ->
  sub_from think_re 0 None (pre ++ Y) = pre ++ sub_from think_re 0 None Y.
Proof.
  induction pre as [|c t IH]; intros Y H HY; [reflexivity|].
  apply contains_ci_false_cons in H. destruct H as [Hp Ht].
  change (String c t ++ Y) with (String c (t ++ Y)).
  cbn [sub_from]. unfold think_re at 1.
  change (String c (t ++ Y)) with (String c t ++ Y).
  rewrite (prefix_ci_app "<" "think>" c t Y
             (starts_angle_none "think>" Y angle_none_think HY)), Hp.
  rewrite (sub_think_prev (t ++ Y) 0 (Some c) None), (IH Y Ht HY).
  reflexivity.
Qed.

Lemma sub_think_none s :
  contains_ci "<think>" s = false -> re_sub think_re s = s.
Proof.
  intros H. unfold re_sub.
  rewrite <- (app_s_nil s) at 1.
  rewrite (sub_think_through s "" H eq_refl). apply app_s_nil.
Qed.

Lemma marker_starts_angle o : is_marker "<think>" o = true -> starts_angle o = true.
Proof.
  unfold is_marker. intros H. apply andb_true_iff in H. destruct H as [_ H].
  destruct o as [|c o]; [reflexivity|]. simpl in H.
  apply andb_true_iff in H. apply H.
Qed.

Lemma close_starts_angle c : is_marker "</think>" c = true -> starts_angle c = true.
Proof.
  unfold is_marker. intros H. apply andb_true_iff in H. destruct H as [_ H].
  destruct c as [|x c]; [reflexivity|]. simpl in H.
  apply andb_true_iff in H. apply H.
Qed.

Lemma starts_angle_app o Y :
  is_empty o = false -> starts_angle o = true -> starts_angle (o ++ Y) = true.
Proof. destruct o; [discriminate|auto]. Qed.

Lemma drop_app_length a : forall b, drop (String.length a) (a ++ b) = b.
Proof. induction a as [|c a IH]; intros b; [destruct b; reflexivity|apply IH]. Qed.

Lemma drop_add n : forall m s, drop (n + m) s = drop m (drop n s).
Proof.
  induction n as [|n IH]; intros m s; [reflexivity|].
  destruct s as [|c s]; [destruct m; reflexivity|]. apply IH.
Qed.

Lemma drop_length_le n : forall s, (String.length (drop n s) <= String.length s)%nat.
Proof.
  induction n as [|n IH]; intros [|c s]; simpl; auto.
Qed.

Lemma lazy_close_le r : (lazy_close r <= String.length r)%nat.
Proof.
  induction r as [|c t IH]; [reflexivity|].
  cbn [lazy_close].
  destruct (prefix_ci "</think>" (String c t)) eqn:Hp.
  - clear IH. destruct t as [|c1 [|c2 [|c3 [|c4 [|c5 [|c6 [|c7 t]]]]]]];
      simpl in Hp; rewrite ?andb_false_r in Hp; try discriminate.
    simpl. lia.
  - destruct (Ascii.eqb c nl_char && is_empty t); simpl; lia.
Qed.

(** At an opening marker the match is deleted and the scan resumes
    behind it. *)
Lemma length_app_s a : forall b,
  String.length (a ++ b) = (String.length a + String.length b)%nat.
Proof. induction a as [|c a IH]; intros b; simpl; [reflexivity|rewrite IH; reflexivity]. Qed.

Lemma sub_think_at_marker o rest :
  is_marker "<think>" o = true ->
  sub_from think_re 0 None (o ++ rest)
  = sub_from think_re 0 None (drop (lazy_close rest) rest).
Proof.
  intros Ho.
  unfold is_marker in Ho. apply andb_true_iff in Ho. destruct Ho as [Hlen Hp].
  apply Nat.eqb_eq in Hlen.
  destruct o as [|c o]; [discriminate|].
  simpl in Hlen. injection Hlen as Hlen.
  assert (Hd : drop 6 (o ++ rest) = rest)
    by (rewrite <- Hlen; apply drop_app_length).
  change (String c o ++ rest) with (String c (o ++ rest)).
  cbn [sub_from]. unfold think_re at 1.
  change (String c (o ++ rest)) with (String c o ++ rest) at 1.
  rewrite (prefix_ci_mono "<think>" (String c o) rest Hp).
  change (drop 7 (String c (o ++ rest))) with (drop 6 (o ++ rest)).
  rewrite Hd.
  change (7 + lazy_close rest)%nat with (S (6 + lazy_close rest)).
  cbv iota.
  destruct (sub_from_skip think_re (o ++ rest) (6 + lazy_close rest) (Some c))
    as [prev' Hs].
  { pose proof (lazy_close_le rest). rewrite length_app_s. lia. }
  rewrite Hs, (sub_think_prev _ 0 prev' None), drop_add, Hd.
  reflexivity.
Qed.

(** Without a closing marker the match runs to the end of the text, or up
    to the line feed that ends it. *)
Lemma lazy_close_open post :
  contains_ci "</think>" post = false ->
  drop (lazy_close post) post = "" \/ drop (lazy_close post) post = nl.
Proof.
  induction post as [|c t IH]; intros H; [left; reflexivity|].
  apply contains_ci_false_cons in H. destruct H as [Hp Ht].
  cbn [lazy_close]. rewrite Hp.
  destruct (Ascii.eqb c nl_char && is_empty t) eqn:Hc.
  - right. apply andb_true_iff in Hc. destruct Hc as [Hc He].
    apply Ascii.eqb_eq in Hc. subst c. destruct t; [reflexivity|discriminate].
  - cbn [drop]. apply IH, Ht.
Qed.

(** With a closing marker the match ends behind the first one. *)
Lemma lazy_close_closed mid c post :
  contains_ci "</think>" mid = false ->
  is_marker "</think>" c = true ->
  lazy_close (mid ++ c ++ post) = (String.length mid + 8)%nat.
Proof.
  intros Hmid Hc. pose proof (close_starts_angle c Hc) as Ha.
  unfold is_marker in Hc. apply andb_true_iff in Hc. destruct Hc as [Hlen Hp].
  apply Nat.eqb_eq in Hlen.
  assert (Hne : is_empty c = false) by (destruct c; [discriminate|reflexivity]).
  induction mid as [|x t IH].
  - destruct c as [|y c]; [discriminate|].
    change ("" ++ String y c ++ post) with (String y (c ++ post)).
    cbn [lazy_close].
    change (String y (c ++ post)) with (String y c ++ post).
    rewrite (prefix_ci_mono "</think>" (String y c) post Hp). reflexivity.
  - apply contains_ci_false_cons in Hmid. destruct Hmid as [Hx Ht].
    change (String x t ++ c ++ post) with (String x (t ++ c ++ post)).
    cbn [lazy_close].
    change (String x (t ++ c ++ post)) with (String x t ++ (c ++ post)).
    rewrite (prefix_ci_app "<" "/think>" x t (c ++ post)
               (starts_angle_none "/think>" (c ++ post) angle_none_close
                  (starts_angle_app c post Hne Ha))), Hx.
    replace (is_empty (t ++ c ++ post)) with false.
    + rewrite andb_false_r, (IH Ht). reflexivity.
    + clear - Hne. destruct t; [|reflexivity]. destruct c; [discriminate|reflexivity].
Qed.

(** *** The sources pattern *)

Lemma header_app t Y' :
  sources_header (t ++ String nl_char Y')
  = sources_header t || (all_nl t && sources_header (String nl_char Y')).
Proof.
  induction t as [|x t IH]; [reflexivity|].
  change (String x t ++ String nl_char Y') with (String x (t ++ String nl_char Y')).
  cbn [sources_header all_nl].
  destruct (Ascii.eqb x nl_char) eqn:Hx; [exact IH|].
  change (String x (t ++ String nl_char Y')) with (String x t ++ String nl_char Y').
  rewrite (prefix_ci_app "s" "ources:" x t (String nl_char Y') eq_refl).
  rewrite (prefix_ci_app "s" "ource:" x t (String nl_char Y') eq_refl).
  cbn [andb]. rewrite orb_false_r. reflexivity.
Qed.

Lemma all_nl_all_space s : all_nl s = true -> all_space s = true.
Proof.
  induction s as [|c t IH]; [reflexivity|]. simpl.
  intros H. apply andb_true_iff in H. destruct H as [Hc Ht].
  apply Ascii.eqb_eq in Hc. subst c. rewrite (IH Ht). reflexivity.
Qed.

Lemma cut_all_space s : all_space s = true -> cut_sources s = s.
Proof.
  induction s as [|c t IH]; [reflexivity|]. simpl.
  intros H. apply andb_true_iff in H. destruct H as [Hc Ht].
  rewrite (all_space_no_header t Ht), andb_false_r, (IH Ht). reflexivity.
Qed.

(** Cutting a text that is followed by a line feed and more: the cut of
    the text alone is the cut of the whole, up to trailing whitespace,
    when the part behind the line feed is cut anyway or is empty. *)
Lemma cut_app body Y' :
  cut_sources (String nl_char Y') = "" \/ Y' = "" ->
  exists ws,
    all_space ws = true /\
    (cut_sources body = cut_sources (body ++ String nl_char Y') ++ ws \/
     cut_sources (body ++ String nl_char Y') = cut_sources body ++ ws).
Proof.
  intros HY. induction body as [|x t [ws [Hws IH]]].
  - change ("" ++ String nl_char Y') with (String nl_char Y').
    destruct HY as [HY| ->].
    + exists "". split; [reflexivity|]. left. rewrite HY. reflexivity.
    + exists nl. split; [reflexivity|]. right. reflexivity.
  - change (String x t ++ String nl_char Y') with (String x (t ++ String nl_char Y')).
    cbn [cut_sources]. rewrite header_app.
    destruct (Ascii.eqb x nl_char) eqn:Hx; cbn [andb].
    + destruct (sources_header t) eqn:Ht; cbn [orb].
      * exists "". split; [reflexivity|]. left. reflexivity.
      * destruct (all_nl t && sources_header (String nl_char Y')) eqn:Hc.
        -- apply andb_true_iff in Hc. destruct Hc as [Hnl _].
           exists (String x t). split.
           ++ apply Ascii.eqb_eq in Hx. subst x. simpl.
              apply all_nl_all_space, Hnl.
           ++ left. rewrite (cut_all_space t (all_nl_all_space t Hnl)). reflexivity.
        -- exists ws. split; [exact Hws|].
           destruct IH as [IH|IH]; [left|right]; rewrite IH; reflexivity.
    + exists ws. split; [exact Hws|].
      destruct IH as [IH|IH]; [left|right]; rewrite IH; reflexivity.
Qed.

Lemma rstrip_app_space ws z : all_space ws = true -> rstrip (z ++ ws) = rstrip z.
Proof.
  intros H. induction z as [|c z IH]; [apply rstrip_all_space, H|].
  simpl. rewrite IH. reflexivity.
Qed.

Lemma strip_cut_app body Y' :
  cut_sources (String nl_char Y') = "" \/ Y' = "" ->
  strip (cut_sources (body ++ String nl_char Y')) = strip (cut_sources body).
Proof.
  intros HY. destruct (cut_app body Y' HY) as [ws [Hws [H|H]]];
    rewrite H; unfold strip; rewrite (rstrip_app_space ws _ Hws); reflexivity.
Qed.

(** *** Surrounding whitespace *)

Lemma lstrip_idem s : lstrip (lstrip s) = lstrip s.
Proof.
  induction s as [|c t IH]; [reflexivity|]. simpl.
  destruct (is_space c) eqn:Hc; [exact IH|]. simpl. rewrite Hc. reflexivity.
Qed.

Lemma rstrip_idem s : rstrip (rstrip s) = rstrip s.
Proof.
  induction s as [|c t IH]; [reflexivity|]. simpl.
  destruct (is_space c && is_empty (rstrip t)) eqn:Hc; [reflexivity|].
  simpl. rewrite IH, Hc. reflexivity.
Qed.

Lemma rstrip_lstrip s : rstrip (lstrip s) = lstrip (rstrip s).
Proof.
  induction s as [|c t IH]; [reflexivity|]. simpl.
  destruct (is_space c) eqn:Hc; cbn [andb].
  - rewrite IH. destruct (is_empty (rstrip t)) eqn:He.
    + destruct (rstrip t); [reflexivity|discriminate].
    + simpl. rewrite Hc. reflexivity.
  - simpl. rewrite Hc. reflexivity.
Qed.

Lemma strip_stripped s : lstrip (strip s) = strip s /\ rstrip (strip s) = strip s.
Proof.
  unfold strip. split; [apply lstrip_idem|].
  rewrite rstrip_lstrip, rstrip_idem. reflexivity.
Qed.

Lemma or_str_some s : or_str (Some s) "" = s.
Proof. destruct s; reflexivity. Qed.

(** *** The three removals *)

Lemma sub_think_segment pre o mid c Z :
  contains_ci "<think>" pre = false ->
  is_marker "<think>" o = true ->
  contains_ci "</think>" mid = false ->
  is_marker "</think>" c = true ->
  sub_from think_re 0 None (pre ++ o ++ mid ++ c ++ Z)
  = pre ++ sub_from think_re 0 None Z.
Proof.
  intros Hpre Ho Hmid Hc.
  assert (Hne : is_empty o = false) by (destruct o; [discriminate|reflexivity]).
  rewrite (sub_think_through pre (o ++ mid ++ c ++ Z) Hpre
             (starts_angle_app o _ Hne (marker_starts_angle o Ho))).
  rewrite (sub_think_at_marker o (mid ++ c ++ Z) Ho).
  rewrite (lazy_close_closed mid c Z Hmid Hc), drop_add, drop_app_length.
  replace (drop 8 (c ++ Z)) with Z; [reflexivity|].
  unfold is_marker in Hc. apply andb_true_iff in Hc. destruct Hc as [Hlen _].
  apply Nat.eqb_eq in Hlen. change 8%nat with (String.length "</think>").
  rewrite <- Hlen. symmetry. apply drop_app_length.
Qed.

(** The scan leaves a settled text at its end, whatever follows. *)
Lemma sub_think_settled S :
  settled S ->
  forall Y, starts_angle Y = true ->
  sub_from think_re 0 None (S ++ Y)
  = re_sub think_re S ++ sub_from think_re 0 None Y.
Proof.
  induction 1 as [s Hs|pre o mid c rest Hpre Ho Hmid Hc Hrest IH]; intros Y HY.
  - rewrite (sub_think_through s Y Hs HY), (sub_think_none s Hs). reflexivity.
  - unfold re_sub.
    rewrite (sub_think_segment pre o mid c rest Hpre Ho Hmid Hc).
    replace ((pre ++ o ++ mid ++ c ++ rest) ++ Y)
      with (pre ++ o ++ mid ++ c ++ (rest ++ Y))
      by (rewrite !app_s_assoc; reflexivity).
    rewrite (sub_think_segment pre o mid c (rest ++ Y) Hpre Ho Hmid Hc).
    rewrite (IH Y HY), app_s_assoc. reflexivity.
Qed.

Lemma strip_unclosed pre o post :
  settled pre ->
  is_marker "<think>" o = true ->
  contains_ci "</think>" post = false ->
  BackendCore._strip (Some (pre ++ o ++ post)) = BackendCore._strip (Some pre).
Proof.
  intros Hpre Ho Hpost. unfold BackendCore._strip. rewrite !or_str_some.
  unfold re_sub at 2.
  assert (Hne : is_empty o = false) by (destruct o; [discriminate|reflexivity]).
  rewrite (sub_think_settled pre Hpre (o ++ post)
             (starts_angle_app o post Hne (marker_starts_angle o Ho))).
  rewrite (sub_think_at_marker o post Ho).
  unfold re_sub at 1 3. rewrite !sub_sources_cut.
  destruct (lazy_close_open post Hpost) as [-> | ->].
  - cbn [sub_from]. rewrite app_s_nil. reflexivity.
  - change (sub_from think_re 0 None nl) with (String nl_char "").
    apply strip_cut_app. right. reflexivity.
Qed.

Lemma strip_closed pre o mid c post :
  is_marker "<think>" o = true ->
  is_marker "</think>" c = true ->
  contains_ci "</think>" mid = false ->
  contains_ci "<think>" (pre ++ post) = false ->
  BackendCore._strip (Some (pre ++ o ++ mid ++ c ++ post))
  = BackendCore._strip (Some (pre ++ post)).
Proof.
  intros Ho Hc Hmid Hout. unfold BackendCore._strip. rewrite !or_str_some.
  rewrite (sub_think_none (pre ++ post) Hout). unfold re_sub at 2.
  rewrite (sub_think_segment pre o mid c post
             (contains_ci_app_l "<think>" pre post Hout) Ho Hmid Hc).
  pose proof (sub_think_none post (contains_ci_app_r "<think>" pre post Hout)) as Hp.
  unfold re_sub in Hp. rewrite Hp. reflexivity.
Qed.

Lemma strip_sources body hdr rest :
  is_marker "sources:" hdr || is_marker "source:" hdr = true ->
  contains_ci "<think>" (body ++ nl ++ hdr ++ rest) = false ->
  BackendCore._strip (Some (body ++ nl ++ hdr ++ rest))
  = BackendCore._strip (Some body).
Proof.
  intros Hh Hout. unfold BackendCore._strip. rewrite !or_str_some.
  rewrite (sub_think_none _ Hout).
  rewrite (sub_think_none body (contains_ci_app_l "<think>" body _ Hout)).
  unfold re_sub. rewrite !sub_sources_cut.
  apply strip_cut_app. left.
  cbn [cut_sources]. rewrite Ascii.eqb_refl. cbn [andb].
  replace (sources_header (hdr ++ rest)) with true; [reflexivity|].
  symmetry. unfold is_marker in Hh.
  destruct hdr as [|x hdr]; [discriminate Hh|].
  change (String x hdr ++ rest) with (String x (hdr ++ rest)).
  cbn [sources_header].
  destruct (Ascii.eqb x nl_char) eqn:Hx.
  - apply Ascii.eqb_eq in Hx. subst x. cbn in Hh.
    rewrite !andb_false_r in Hh. discriminate.
  - change (String x (hdr ++ rest)) with (String x hdr ++ rest).
    apply orb_true_iff in Hh. apply orb_true_iff.
    destruct Hh as [H|H]; [left|right];
      apply andb_true_iff in H; destruct H as [_ H];
      apply prefix_ci_mono; exact H.
Qed.

(** *** Every text is settled, or settled up to an unclosed marker *)

Lemma prefix_ci_split p : forall s,
  prefix_ci p s = true ->
  exists m b, s = m ++ b /\ is_marker p m = true.
Proof.
  unfold is_marker.
  induction p as [|x p IH]; intros s H.
  - exists "", s. split; reflexivity.
  - destruct s as [|c s]; [discriminate|]. simpl in H.
    apply andb_true_iff in H. destruct H as [Hc Hs].
    destruct (IH s Hs) as [m [b [-> Hm]]].
    apply andb_true_iff in Hm. destruct Hm as [Hl Hp].
    exists (String c m), b. split; [reflexivity|].
    simpl. rewrite Hc, Hp. apply Nat.eqb_eq in Hl. rewrite Hl.
    rewrite Nat.eqb_refl. reflexivity.
Qed.

Lemma first_occurrence x p s :
  contains_ci (String x p) s = true ->
  exists a m b,
    s = a ++ m ++ b /\
    contains_ci (String x p) a = false /\
    is_marker (String x p) m = true.
Proof.
  induction s as [|c t IH]; intros H; [discriminate|].
  cbn [contains_ci] in H.
  destruct (prefix_ci (String x p) (String c t)) eqn:Hp.
  - destruct (prefix_ci_split _ _ Hp) as [m [b [Hs Hm]]].
    exists "", m, b. repeat split; assumption.
  - cbn [orb] in H. destruct (IH H) as [a [m [b [-> [Ha Hm]]]]].
    exists (String c a), m, b. split; [reflexivity|]. split; [|exact Hm].
    cbn [contains_ci]. rewrite Ha, orb_false_r.
    destruct (prefix_ci (String x p) (String c a)) eqn:Hpa; [|reflexivity].
    rewrite <- Hp. symmetry.
    apply (prefix_ci_mono (String x p) (String c a) (m ++ b) Hpa).
Qed.

Lemma settled_or_unclosed_bounded n : forall text,
  (String.length text <= n)%nat ->
  settled text \/
  exists S o post,
    text = S ++ o ++ post /\ settled S /\
    is_marker "<think>" o = true /\ contains_ci "</think>" post = false.
Proof.
  induction n as [|n IH]; intros text Hlen.
  - destruct text; [|simpl in Hlen; lia]. left. apply settled_plain. reflexivity.
  - destruct (contains_ci "<think>" text) eqn:Hopen;
      [|left; apply settled_plain; exact Hopen].
    destruct (first_occurrence _ _ _ Hopen) as [pre [o [R [-> [Hpre Ho]]]]].
    destruct (contains_ci "</think>" R) eqn:Hclose.
    + destruct (first_occurrence _ _ _ Hclose) as [mid [c [rest [-> [Hmid Hc]]]]].
      assert (Hrest : (String.length rest <= n)%nat).
      { rewrite !length_app_s in Hlen.
        unfold is_marker in Ho. apply andb_true_iff in Ho. destruct Ho as [Ho _].
        apply Nat.eqb_eq in Ho. simpl in Ho. lia. }
      destruct (IH rest Hrest) as [Hs|[S [o' [post [-> [HS [Ho' Hpost]]]]]]].
      * left. apply settled_segment; assumption.
      * right. exists (pre ++ o ++ mid ++ c ++ S), o', post.
        split; [rewrite !app_s_assoc; reflexivity|].
        split; [apply settled_segment; assumption|]. split; assumption.
    + right. exists pre, o, R. split; [reflexivity|].
      split; [apply settled_plain; exact Hpre|]. split; assumption.
Qed.

Lemma settled_or_unclosed text :
  settled text \/
  exists S o post,
    text = S ++ o ++ post /\ settled S /\
    is_marker "<think>" o = true /\ contains_ci "</think>" post = false.
Proof. apply (settled_or_unclosed_bounded (String.length text)). lia. Qed.

(** *** What is left of a text *)

Lemma think_removed_bounded n : forall text,
  (String.length text <= n)%nat ->
  exists r tail,
    segments_removed text r /\ (tail = "" \/ tail = nl) /\
    re_sub think_re text = r ++ tail.
Proof.
  induction n as [|n IH]; intros text Hlen.
  - destruct text; [|simpl in Hlen; lia].
    exists "", "". split; [apply removed_none; reflexivity|]. split; [auto|reflexivity].
  - destruct (contains_ci "<think>" text) eqn:Hopen.
    2:{ exists text, "". split; [apply removed_none; exact Hopen|].
        split; [auto|]. rewrite app_s_nil. apply sub_think_none, Hopen. }
    destruct (first_occurrence _ _ _ Hopen) as [pre [o [R [-> [Hpre Ho]]]]].
    assert (Hne : is_empty o = false) by (destruct o; [discriminate|reflexivity]).
    destruct (contains_ci "</think>" R) eqn:Hclose.
    + destruct (first_occurrence _ _ _ Hclose) as [mid [c [rest [-> [Hmid Hc]]]]].
      assert (Hrest : (String.length rest <= n)%nat).
      { rewrite !length_app_s in Hlen.
        unfold is_marker in Ho. apply andb_true_iff in Ho. destruct Ho as [Ho _].
        apply Nat.eqb_eq in Ho. simpl in Ho. lia. }
      destruct (IH rest Hrest) as [r [tail [Hr [Htail Hsub]]]].
      exists (pre ++ r), tail.
      split; [apply removed_closed; assumption|]. split; [exact Htail|].
      unfold re_sub. rewrite (sub_think_segment pre o mid c rest Hpre Ho Hmid Hc).
      unfold re_sub in Hsub. rewrite Hsub. rewrite app_s_assoc. reflexivity.
    + exists pre, (drop (lazy_close R) R).
      split; [apply removed_unclosed; assumption|].
      split; [apply lazy_close_open, Hclose|].
      unfold re_sub.
      rewrite (sub_think_through pre (o ++ R) Hpre
                 (starts_angle_app o R Hne (marker_starts_angle o Ho))).
      rewrite (sub_think_at_marker o R Ho).
      destruct (lazy_close_open R Hclose) as [-> | ->]; reflexivity.
Qed.

Lemma think_removed text :
  exists r tail,
    segments_removed text r /\ (tail = "" \/ tail = nl) /\
    re_sub think_re text = r ++ tail.
Proof. apply (think_removed_bounded (String.length text)). lia. Qed.

Lemma starts_section_header t : starts_section t = true -> sources_header t = true.
Proof.
  unfold starts_section. destruct t as [|c t]; [discriminate|].
  intros H. cbn [sources_header].
  destruct (Ascii.eqb c nl_char) eqn:Hc; [|exact H].
  apply Ascii.eqb_eq in Hc. subst c. discriminate H.
Qed.

Lemma header_split t :
  sources_header t = true ->
  exists nls h, t = nls ++ h /\ all_nl nls = true /\ starts_section h = true.
Proof.
  induction t as [|c t IH]; [discriminate|].
  cbn [sources_header]. destruct (Ascii.eqb c nl_char) eqn:Hc.
  - intros H. destruct (IH H) as [nls [h [-> [Hn Hh]]]].
    apply Ascii.eqb_eq in Hc. subst c.
    exists (String nl_char nls), h. split; [reflexivity|]. split; [|exact Hh].
    cbn [all_nl]. rewrite Hn. reflexivity.
  - intros H. exists "", (String c t). split; [reflexivity|]. split; [reflexivity|exact H].
Qed.

Lemma all_nl_section_free s : all_nl s = true -> section_free s = true.
Proof.
  induction s as [|c t IH]; [reflexivity|]. cbn [all_nl section_free].
  intros H. apply andb_true_iff in H. destruct H as [Hc Ht].
  rewrite (IH Ht), andb_true_r.
  destruct t as [|d t]; [rewrite andb_false_r; reflexivity|].
  cbn [all_nl] in Ht. apply andb_true_iff in Ht. destruct Ht as [Hd _].
  apply Ascii.eqb_eq in Hd. subst d. rewrite andb_false_r. reflexivity.
Qed.

Lemma all_nl_snoc s : all_nl s = true -> s ++ nl = nl ++ s.
Proof.
  induction s as [|c t IH]; [reflexivity|]. cbn [all_nl].
  intros H. apply andb_true_iff in H. destruct H as [Hc Ht].
  apply Ascii.eqb_eq in Hc. subst c.
  change (String nl_char t ++ nl) with (String nl_char (t ++ nl)).
  rewrite (IH Ht). reflexivity.
Qed.

Lemma cut_spec r :
  (section_free r = true /\ cut_sources r = r) \/
  (exists a h nls,
     r = a ++ nl ++ h /\ section_free a = true /\ starts_section h = true /\
     all_nl nls = true /\ a = cut_sources r ++ nls).
Proof.
  induction r as [|c t IH]; [left; split; reflexivity|].
  cbn [cut_sources section_free].
  destruct (Ascii.eqb c nl_char && sources_header t) eqn:Hcut.
  - right. apply andb_true_iff in Hcut. destruct Hcut as [Hc Hh].
    apply Ascii.eqb_eq in Hc. subst c.
    destruct (header_split t Hh) as [nls [h [-> [Hn Hs]]]].
    exists nls, h, nls. split; [|split; [|split; [|split]]].
    + rewrite <- app_s_assoc, (all_nl_snoc nls Hn). reflexivity.
    + apply all_nl_section_free, Hn.
    + exact Hs.
    + exact Hn.
    + reflexivity.
  - destruct IH as [[Hf Hc]|[a [h [nls [-> [Hf [Hs [Hn Ha]]]]]]]].
    + left. rewrite Hc, Hf, andb_true_r. split; [|reflexivity].
      destruct (Ascii.eqb c nl_char); [|reflexivity]. cbn [andb] in *.
      destruct (starts_section t) eqn:Hst; [|reflexivity].
      rewrite (starts_section_header t Hst) in Hcut. discriminate Hcut.
    + right. exists (String c a), h, nls.
      split; [reflexivity|]. split; [|split; [exact Hs|split; [exact Hn|]]].
      * cbn [section_free]. rewrite Hf, andb_true_r.
        destruct (Ascii.eqb c nl_char); [|reflexivity]. cbn [andb] in *.
        destruct (starts_section a) eqn:Hst; [|reflexivity].
        assert (Hst' : starts_section (a ++ nl ++ h) = true).
        { unfold starts_section in *. apply orb_true_iff in Hst.
          apply orb_true_iff. destruct Hst as [H|H]; [left|right];
            apply prefix_ci_mono; exact H. }
        rewrite (starts_section_header _ Hst') in Hcut. discriminate Hcut.
      * cbn [append]. f_equal. exact Ha.
Qed.

Lemma strip_app_nl s nls : all_nl nls = true -> strip (s ++ nls) = strip s.
Proof.
  intros H. unfold strip.
  rewrite (rstrip_app_space nls s (all_nl_all_space nls H)). reflexivity.
Qed.

Lemma removed_sub text r :
  segments_removed text r ->
  exists tail, (tail = "" \/ tail = nl) /\ re_sub think_re text = r ++ tail.
Proof.
  induction 1 as [s Hs|pre o mid c rest r Hpre Ho Hmid Hc Hrest IH|pre o post Hpre Ho Hpost].
  - exists "". split; [auto|]. rewrite app_s_nil. apply sub_think_none, Hs.
  - destruct IH as [tail [Htail Hsub]]. exists tail. split; [exact Htail|].
    unfold re_sub in *.
    rewrite (sub_think_segment pre o mid c rest Hpre Ho Hmid Hc), Hsub.
    rewrite app_s_assoc. reflexivity.
  - assert (Hne : is_empty o = false) by (destruct o; [discriminate|reflexivity]).
    exists (drop (lazy_close post) post).
    split; [apply lazy_close_open, Hpost|].
    unfold re_sub.
    rewrite (sub_think_through pre (o ++ post) Hpre
               (starts_angle_app o post Hne (marker_starts_angle o Ho))).
    rewrite (sub_think_at_marker o post Ho).
    destruct (lazy_close_open post Hpost) as [-> | ->]; reflexivity.
Qed.

Lemma strip_of_removed text r :
  segments_removed text r ->
  BackendCore._strip (Some text) = strip (cut_sources r).
Proof.
  intros Hr. destruct (removed_sub text r Hr) as [tail [Htail Hsub]].
  unfold BackendCore._strip. rewrite or_str_some, Hsub.
  unfold re_sub. rewrite sub_sources_cut.
  destruct Htail as [-> | ->]; [rewrite app_s_nil; reflexivity|].
  apply strip_cut_app. right. reflexivity.
Qed.

Lemma removed_exists text : exists r, segments_removed text r.
Proof. destruct (think_removed text) as [r [_ [Hr _]]]. exists r. exact Hr. Qed.

Lemma header_after_nl a :
  sources_header a = true -> section_free (String nl_char a) = false.
Proof.
  induction a as [|x t IH]; intros H; [discriminate H|].
  cbn [sources_header] in H.
  destruct (Ascii.eqb x nl_char) eqn:Hx.
  - apply Ascii.eqb_eq in Hx. subst x.
    change (section_free (String nl_char (String nl_char t)))
      with (negb (Ascii.eqb nl_char nl_char && starts_section (String nl_char t))
            && section_free (String nl_char t)).
    rewrite (IH H). apply andb_false_r.
  - cbn [section_free]. rewrite Ascii.eqb_refl. cbn [andb].
    unfold starts_section at 1. rewrite H. reflexivity.
Qed.

Lemma section_free_cut r : section_free r = true -> cut_sources r = r.
Proof.
  intros Hf. destruct (cut_spec r) as [[_ Hc]|[a [h [nls [Hr [Hfa [Hs [Hn Ha]]]]]]]];
    [exact Hc|].
  exfalso. rewrite Hr in Hf. clear - Hf Hs.
  induction a as [|c a IH].
  - cbn [append section_free] in Hf. unfold nl in Hf. cbn [append section_free] in Hf.
    rewrite Ascii.eqb_refl, Hs in Hf. discriminate Hf.
  - cbn [append section_free] in Hf. apply andb_true_iff in Hf. apply IH, Hf.
Qed.

Lemma cut_at_header a h :
  section_free a = true -> starts_section h = true ->
  exists nls, all_nl nls = true /\ a = cut_sources (a ++ nl ++ h) ++ nls.
Proof.
  intros Hf Hs. induction a as [|c a IH].
  - exists "". split; [reflexivity|].
    cbn [append]. unfold nl. cbn [append cut_sources].
    rewrite Ascii.eqb_refl, (starts_section_header h Hs). reflexivity.
  - cbn [append cut_sources].
    destruct (Ascii.eqb c nl_char) eqn:Hc; cbn [andb].
    + apply Ascii.eqb_eq in Hc. subst c.
      change (a ++ nl ++ h) with (a ++ String nl_char h).
      rewrite header_app.
      destruct (sources_header a) eqn:Ha.
      * rewrite (header_after_nl a Ha) in Hf. discriminate Hf.
      * cbn [orb]. cbn [sources_header]. rewrite Ascii.eqb_refl.
        rewrite (starts_section_header h Hs), andb_true_r.
        destruct (all_nl a) eqn:Hn.
        -- exists (String nl_char a). split; [|reflexivity].
           cbn [all_nl]. rewrite Ascii.eqb_refl, Hn. reflexivity.
        -- cbn [section_free] in Hf. apply andb_true_iff in Hf.
           destruct Hf as [_ Hf]. destruct (IH Hf) as [nls [Hnls Heq]].
           exists nls. split; [exact Hnls|].
           change (a ++ String nl_char h) with (a ++ nl ++ h).
           cbn [append]. f_equal. exact Heq.
    + cbn [section_free] in Hf. apply andb_true_iff in Hf.
      destruct Hf as [_ Hf]. destruct (IH Hf) as [nls [Hnls Heq]].
      exists nls. split; [exact Hnls|]. cbn [append]. f_equal. exact Heq.
Qed.

Lemma section_cases r :
  section_free r = true \/
  exists a h, r = a ++ nl ++ h /\ section_free a = true /\ starts_section h = true.
Proof.
  destruct (cut_spec r) as [[Hf _]|[a [h [nls [Hr [Hf [Hs _]]]]]]]; [left; exact Hf|].
  right. exists a, h. auto.
Qed.

Lemma strip_plain text :
  contains_ci "<think>" text = false -> section_free text = true ->
  BackendCore._strip (Some text) = strip text.
Proof.
  intros Ht Hf.
  rewrite (strip_of_removed text text (removed_none text Ht)).
  rewrite (section_free_cut text Hf). reflexivity.
Qed.

Lemma strip_at_header text r a h :
  segments_removed text r ->
  r = a ++ nl ++ h -> section_free a = true -> starts_section h = true ->
  BackendCore._strip (Some text) = strip a.
Proof.
  intros Hr -> Hf Hs. rewrite (strip_of_removed _ _ Hr).
  destruct (cut_at_header a h Hf Hs) as [nls [Hn Ha]].
  rewrite Ha at 2. symmetry. apply strip_app_nl, Hn.
Qed.

End StripFacts.

Import StripFacts.

(** C10, as stated, fails: not every trailing sources section is removed.
    A header that does not start a line is no section for [_strip]: a
    sources section behind the answer on the same line, and one whose
    header line is indented, are returned with the answer. *)
Lemma C10_counterexample :
  BackendCore._strip (Some "Use the Grid tool. [1] Sources: [1] Curtain walls")
  = "Use the Grid tool. [1] Sources: [1] Curtain walls" /\
  BackendCore._strip
    (Some ("Use the Grid tool. [1]" ++ nl ++ "  Sources:" ++ nl
           ++ "- [1] Curtain walls"))
  = "Use the Grid tool. [1]" ++ nl ++ "  Sources:" ++ nl ++ "- [1] Curtain walls".
Proof. split; reflexivity. Qed.

(** C10. [_strip] is total: it returns a text for every input, the missing
    one included.  What it returns is fixed by the text [r] that is left
    when the reasoning segments are removed: every closed segment, and an
    opening marker with no closing marker behind it together with
    everything up to the end of the text.  There is such an [r] for every
    text.  If no line feed of [r] is directly followed by [Sources:] or
    [Source:], the result is [r] without the whitespace at its ends;
    otherwise [r] is cut at the first such line feed, and the result is
    the part before it without the whitespace at its ends.  So a text
    without opening marker and without such a header is returned as it
    is, up to the whitespace at its ends; the result has no whitespace at
    either end; and behind a text whose segments are all closed, an
    unclosed marker and what follows it change nothing.  The markers and
    the header match in any case of their letters. *)
Theorem C10_strip (text : string) :
  BackendCore._strip None = "" /\
  (exists r, segments_removed text r) /\
  (forall r,
     segments_removed text r ->
     (section_free r = true -> BackendCore._strip (Some text) = strip r) /\
     (forall a h,
        r = a ++ nl ++ h -> section_free a = true -> starts_section h = true ->
        BackendCore._strip (Some text) = strip a) /\
     (section_free r = true \/
      exists a h,
        r = a ++ nl ++ h /\ section_free a = true /\ starts_section h = true)) /\
  (contains_ci "<think>" text = false -> section_free text = true ->
   BackendCore._strip (Some text) = strip text) /\
  (lstrip (BackendCore._strip (Some text)) = BackendCore._strip (Some text) /\
   rstrip (BackendCore._strip (Some text)) = BackendCore._strip (Some text)) /\
  (forall pre o post,
     settled pre ->
     is_marker "<think>" o = true ->
     contains_ci "</think>" post = false ->
     BackendCore._strip (Some (pre ++ o ++ post)) = BackendCore._strip (Some pre)).
Proof.
  split; [reflexivity|].
  split; [apply removed_exists|].
  split.
  { intros r Hr. split; [|split].
    - intros Hf. rewrite (strip_of_removed text r Hr), (section_free_cut r Hf).
      reflexivity.
    - intros a h. apply strip_at_header, Hr.
    - apply section_cases. }
  split; [apply strip_plain|].
  split; [unfold BackendCore._strip; apply strip_stripped|].
  apply strip_unclosed.
Qed.

(** An answer with a finished reasoning segment inside and an unfinished
    one behind it; an answer with two finished segments; and an answer
    with a sources section. *)
Example strip_examples :
  BackendCore._strip
    (Some (("Use " ++ "<think>" ++ "hm" ++ "</think>" ++ "the Grid tool. [1] ")
           ++ "<Think>" ++ "so the user"))
  = "Use the Grid tool. [1]" /\
  BackendCore._strip
    (Some ("Use " ++ "<think>" ++ "hm" ++ "</THINK>" ++ "the Grid "
           ++ "<think>" ++ "ok" ++ "</think>" ++ "tool. [1]"))
  = "Use the Grid tool. [1]" /\
  BackendCore._strip
    (Some ("Use the Grid tool. [1]" ++ nl ++ nl ++ "Sources:" ++ " [1] Grids"))
  = "Use the Grid tool. [1]".
Proof. repeat split; reflexivity. Qed.

(** ** The scenarios of the specification *)

(** Scenario A: one hit with score 0.9 and a cited answer. *)
Example scenario_A :
  fst (BackendCore.rag_answer (answering "Set grid spacing to 1200mm. [1]")
         "How do I space curtain wall grids?" hybrid 0.4 10 true fresh)
  = Returned ("Set grid spacing to 1200mm. [1]",
              "- [1] Curtain walls (chunk 0)" ++ nl
              ++ "  https://help.autodesk.com/revit",
              {| BackendCore.d_hits := 1; BackendCore.d_best_conf := 0.9;
                 BackendCore.d_mode := hybrid; BackendCore.d_alpha := 0.4;
                 BackendCore.d_k := 10 |}).
Proof. vm_compute. reflexivity. Qed.

(** Scenario D: an answer that mentions the denied product. *)
Example scenario_D :
  fst (BackendCore.rag_answer (answering "Some text mentioning AutoCAD. [1]")
         "q" hybrid 0.4 10 true fresh)
  = Returned ("I don't know.", "",
              {| BackendCore.d_hits := 1; BackendCore.d_best_conf := 0.9;
                 BackendCore.d_mode := hybrid; BackendCore.d_alpha := 0.4;
                 BackendCore.d_k := 10 |}).
Proof. vm_compute. reflexivity. Qed.

(** The fast path: an accepted first attempt is the only request. *)
Example fast_path :
  UiGradio.fallback_loop (answering "unused") "q" 0.4 6 (UiGradio.modes_to_try bm25)
    [] fresh
  = (Returned ([grids], Some bm25), sent "q" 0.4 [(bm25, 6%Z)] fresh).
Proof. vm_compute. reflexivity. Qed.

(** Every strategy returns no hit: the sentinel, after six requests. *)
Example all_empty :
  UiGradio.ask (answering_none) [] "q" vector 0.4 6 fresh
  = (Returned ([{| UiGradio.role := "user"; UiGradio.content := "q" |};
                {| UiGradio.role := "assistant";
                   UiGradio.content := "I don't know." |}], ""),
     sent "q" 0.4 (plan vector 6) fresh).
Proof. vm_compute. reflexivity. Qed.

(** * Further properties *)

Import ChatText.

(** ** [backend_core.py] *)

(** X1. [_query] raises exactly when the call raises or the response holds
    [null] under ["data"]; [query_weaviate] is the same function. *)
Theorem query_raises_iff (E : env) (q : string) (k : Z) (s : mode)
    (alpha : float) (w : world) :
  ((exists e, fst (BackendCore._query E q k s alpha w) = Raised e) <->
   (exists e, weaviate_do E w (BackendCore.request q k s alpha) = Raised e) \/
   (exists r, weaviate_do E w (BackendCore.request q k s alpha) = Returned (Some r)
              /\ data r = Null)) /\
  UiGradio.query_weaviate E q k s alpha w = BackendCore._query E q k s alpha w.
Proof.
  split; [|reflexivity]. rewrite query_spec. cbn [fst].
  destruct (weaviate_do E w (BackendCore.request q k s alpha)) as [res|e0].
  - split.
    + intros [e He]. right. apply hits_of_raises in He.
      destruct He as [r [-> Hr]]. exists r. auto.
    + intros [[e He]|[r [Hr Hd]]]; [discriminate|].
      injection Hr as ->. unfold BackendCore.hits_of. rewrite Hd. eauto.
  - split; [intros _; left; eauto|intros _; eauto].
Qed.

Lemma generate_cases E q ctx w :
  BackendCore.generate E q ctx w
  = match ollama_post E w (first_call E q ctx) with
    | Raised e => (Raised e, generated [first_call E q ctx] w)
    | Returned r1 =>
        if is_empty (BackendCore._strip (BackendCore.response_text r1))
        then
          match ollama_post E (generated [first_call E q ctx] w)
                  (brief_call E q ctx) with
          | Raised e =>
              (Raised e, generated [first_call E q ctx; brief_call E q ctx] w)
          | Returned r2 =>
              (Returned (BackendCore._strip (BackendCore.response_text r2)),
               generated [first_call E q ctx; brief_call E q ctx] w)
          end
        else (Returned (BackendCore._strip (BackendCore.response_text r1)),
              generated [first_call E q ctx] w)
    end.
Proof.
  unfold BackendCore.generate, bind at 1. rewrite gen_spec.
  fold (first_call E q ctx).
  destruct (ollama_post E w (first_call E q ctx)) as [r1|e]; [|reflexivity].
  assert (Hs : strip (BackendCore._strip (BackendCore.response_text r1))
               = BackendCore._strip (BackendCore.response_text r1)).
  { unfold BackendCore._strip at 2.
    destruct (strip_stripped
                (re_sub sources_re
                   (re_sub think_re (or_str (BackendCore.response_text r1) ""))))
      as [Hl Hr].
    unfold strip at 1. unfold BackendCore._strip. rewrite Hr. exact Hl. }
  rewrite Hs.
  destruct (is_empty (BackendCore._strip (BackendCore.response_text r1)));
    [|reflexivity].
  unfold bind. rewrite gen_spec. fold (brief_call E q ctx).
  rewrite generated_app. cbn [app].
  destruct (ollama_post E _ (brief_call E q ctx)); reflexivity.
Qed.

Lemma rag_answer_after_query E q s alpha k rc w hits w1 :
  BackendCore._query E q k s alpha w = (Returned hits, w1) ->
  BackendCore.rag_answer E q s alpha k rc w
  = if BackendCore._ok E hits s
    then
      match BackendCore.generate E q (fst (BackendCore._ctx hits)) w1 with
      | (Returned a, w2) =>
          (Returned (BackendCore.validate rc a (snd (BackendCore._ctx hits))
                       (diag_of E hits s alpha k)), w2)
      | (Raised e, w2) =>
          (Returned ("Generation error: " ++ str_exn e, "",
                     diag_of E hits s alpha k), w2)
      end
    else (Returned ("I don't know.", "", diag_of E hits s alpha k), w1).
Proof.
  intros Hq. unfold BackendCore.rag_answer, bind at 1. rewrite Hq.
  destruct (BackendCore._ok E hits s); [|reflexivity]. cbn [negb].
  destruct (BackendCore._ctx hits) as [ctx src]. cbn [fst snd].
  unfold bind at 1, try_except, bind at 1.
  destruct (BackendCore.generate E q ctx w1) as [[a|e] w2]; reflexivity.
Qed.

Lemma ctx_sources_nonempty hits : is_empty (snd (BackendCore._ctx hits)) = false.
Proof.
  unfold BackendCore._ctx. cbn [snd].
  destruct hits as [|h hs]; [reflexivity|].
  cbn [BackendCore.enumerate_map]. unfold join. cbn [concat].
  destruct (BackendCore.enumerate_map BackendCore.source_line (1 + 1) hs);
    reflexivity.
Qed.

Lemma validate_ctx rc a hits d :
  BackendCore.validate rc a (snd (BackendCore._ctx hits)) d
  = if mentions_autocad (cited rc a) then ("I don't know.", "", d)
    else (cited rc a, snd (BackendCore._ctx hits), d).
Proof.
  unfold BackendCore.validate, cited. rewrite ctx_sources_nonempty. cbn [negb].
  destruct (rc && negb (has_citation a)); reflexivity.
Qed.

(** X2. The sources listing of [_ctx] is never empty, so the branch of
    [rag_answer] that gives up for want of a citation cannot be taken: a
    generated answer without citation always gets [[1]] appended. *)
Theorem validate_never_gives_up (rc : bool) (a : string) (hits : list hit)
    (d : BackendCore.diagnostics) :
  is_empty (snd (BackendCore._ctx hits)) = false /\
  BackendCore.validate rc a (snd (BackendCore._ctx hits)) d
  = if mentions_autocad (cited rc a) then ("I don't know.", "", d)
    else (cited rc a, snd (BackendCore._ctx hits), d).
Proof.
  split; [apply ctx_sources_nonempty|apply validate_ctx].
Qed.

Lemma validate_sources rc a src d ans src' d' :
  BackendCore.validate rc a src d = (ans, src', d') ->
  is_empty src' = false ->
  mentions_autocad ans = false /\ (rc = true -> has_citation ans = true).
Proof.
  unfold BackendCore.validate. intros H Hs.
  destruct (rc && negb (has_citation a)) eqn:Hc.
  - destruct (negb (is_empty src));
      [|injection H as <- <- <-; discriminate].
    destruct (mentions_autocad (strip (rstrip a ++ " [1]"))) eqn:Ha;
      injection H as <- <- <-; [discriminate|].
    split; [exact Ha|]. intros _. apply has_citation_true.
    rewrite citations_appended. destruct (citations a); discriminate.
  - destruct (mentions_autocad a) eqn:Ha;
      injection H as <- <- <-; [discriminate|].
    split; [exact Ha|]. intros ->. cbn [andb] in Hc.
    apply negb_false_iff in Hc. exact Hc.
Qed.

(** X3. An answer of ASCII characters that [rag_answer] returns together
    with sources never mentions AutoCAD as a word.  (On other answers the
    word boundaries of Python's [re] are not those of the embedding: an
    answer that names AutoCAD between two CJK letters is returned.) *)
Theorem rag_answer_no_autocad (E : env) (q : string) (s : mode) (alpha : float)
    (k : Z) (rc : bool) (w w' : world) (ans src : string)
    (d : BackendCore.diagnostics) :
  BackendCore.rag_answer E q s alpha k rc w = (Returned (ans, src, d), w') ->
  is_empty src = false ->
  is_ascii ans = true ->
  mentions_autocad ans = false.
Proof.
  intros Hrun Hsrc _.
  destruct (BackendCore._query E q k s alpha w) as [[hits|e] w1] eqn:Hq.
  - rewrite (rag_answer_after_query E q s alpha k rc w hits w1 Hq) in Hrun.
    destruct (BackendCore._ok E hits s);
      [|injection Hrun as <- <- <- <-; discriminate].
    destruct (BackendCore.generate E q _ w1) as [[a|e] w2];
      [|injection Hrun as <- <- <- <-; discriminate].
    injection Hrun as Hv _.
    apply (validate_sources _ _ _ _ _ _ _ Hv Hsrc).
  - unfold BackendCore.rag_answer, bind at 1 in Hrun. rewrite Hq in Hrun.
    discriminate.
Qed.

Lemma rag_answer_no_autocad_witness :
  mentions_autocad "Set grid spacing to 1200mm. [1]" = false.
Proof.
  apply (rag_answer_no_autocad (answering "Set grid spacing to 1200mm. [1]")
           grid_question hybrid 0.4 10 true fresh _ _ _ _ eq_refl eq_refl eq_refl).
Defined.

(** X4. With [require_citation] set, [rag_answer] never returns an empty
    answer. *)
Theorem rag_answer_nonempty (E : env) (q : string) (s : mode) (alpha : float)
    (k : Z) (w w' : world) (ans src : string) (d : BackendCore.diagnostics) :
  BackendCore.rag_answer E q s alpha k true w = (Returned (ans, src, d), w') ->
  is_empty ans = false.
Proof.
  intros Hrun.
  destruct (BackendCore._query E q k s alpha w) as [[hits|e] w1] eqn:Hq.
  - rewrite (rag_answer_after_query E q s alpha k true w hits w1 Hq) in Hrun.
    destruct (BackendCore._ok E hits s);
      [|injection Hrun as <- <- <- <-; reflexivity].
    destruct (BackendCore.generate E q _ w1) as [[a|e] w2];
      [|injection Hrun as <- <- <- <-; reflexivity].
    rewrite validate_ctx in Hrun.
    destruct (mentions_autocad (cited true a));
      injection Hrun as <- <- <- <-; [reflexivity|].
    unfold cited. cbn [andb].
    destruct (has_citation a) eqn:Hc; cbn [negb].
    + destruct a; [discriminate Hc|reflexivity].
    + assert (Hcit : citations (strip (rstrip a ++ " [1]")) <> [])
        by (rewrite citations_appended; destruct (citations a); discriminate).
      destruct (strip (rstrip a ++ " [1]")); [contradiction Hcit; reflexivity|reflexivity].
  - unfold BackendCore.rag_answer, bind at 1 in Hrun. rewrite Hq in Hrun.
    discriminate.
Qed.

Lemma rag_answer_nonempty_witness :
  is_empty "[1]" = false.
Proof.
  apply (rag_answer_nonempty (answering "") "q" hybrid 0.4 10 fresh _ _ _ _ eq_refl).
Defined.

(** Without [require_citation] the answer can be empty. *)
Example rag_answer_empty_unrequired :
  fst (BackendCore.rag_answer (answering "") "q" hybrid 0.4 10 false fresh)
  = Returned ("", snd (BackendCore._ctx [grids]),
              diag_of (answering "") [grids] hybrid 0.4 10).
Proof. vm_compute. reflexivity. Qed.

(** X5. Once the search has returned, [rag_answer] returns: a failing
    generation is caught.  The diagnostics it returns are those of the
    retrieval, whatever the exit. *)
Theorem rag_answer_returns (E : env) (q : string) (s : mode) (alpha : float)
    (k : Z) (rc : bool) (w w1 : world) (hits : list hit) :
  BackendCore._query E q k s alpha w = (Returned hits, w1) ->
  exists ans src w',
    BackendCore.rag_answer E q s alpha k rc w
    = (Returned (ans, src, diag_of E hits s alpha k), w').
Proof.
  intros Hq. rewrite (rag_answer_after_query E q s alpha k rc w hits w1 Hq).
  destruct (BackendCore._ok E hits s); [|eauto].
  destruct (BackendCore.generate E q _ w1) as [[a|e] w2]; [|eauto].
  unfold BackendCore.validate.
  destruct (if rc && negb (has_citation a)
            then if negb (is_empty (snd (BackendCore._ctx hits)))
                 then Some (strip (rstrip a ++ " [1]")) else None
            else Some a) as [c|]; [|eauto].
  destruct (mentions_autocad c); eauto.
Qed.

Lemma rag_answer_returns_witness :
  exists ans src w',
    BackendCore.rag_answer generation_down "q" hybrid 0.4 10 true fresh
    = (Returned (ans, src, diag_of generation_down [grids] hybrid 0.4 10), w').
Proof.
  apply (rag_answer_returns generation_down "q" hybrid 0.4 10 true fresh
           (sent "q" 0.4 [(hybrid, 10%Z)] fresh) [grids] eq_refl).
Defined.

Lemma generated_nil w : generated [] w = w.
Proof. destruct w. unfold generated. simpl. rewrite app_nil_r. reflexivity. Qed.

Lemma generate_world E q ctx w :
  exists cs,
    snd (BackendCore.generate E q ctx w) = generated cs w /\
    (cs = [first_call E q ctx] \/
     cs = [first_call E q ctx; brief_call E q ctx]).
Proof.
  rewrite generate_cases.
  destruct (ollama_post E w (first_call E q ctx)) as [r1|e];
    [|eexists; split; [reflexivity|auto]].
  destruct (is_empty (BackendCore._strip (BackendCore.response_text r1)));
    [|eexists; split; [reflexivity|auto]].
  destruct (ollama_post E _ (brief_call E q ctx));
    eexists; (split; [reflexivity|auto]).
Qed.

(** X6. Whatever the backends do, one call of [rag_answer] sends exactly one
    search request, that of the caller's strategy and result count, and
    then no generation request, or one with a budget of 1200 tokens, or
    that one followed by the brief one with a budget of 400. *)
Theorem rag_answer_requests (E : env) (q : string) (s : mode) (alpha : float)
    (k : Z) (rc : bool) (w : world) :
  exists cs,
    snd (BackendCore.rag_answer E q s alpha k rc w)
    = generated cs (sent q alpha [(s, k)] w) /\
    (cs = [] \/
     exists ctx, cs = [first_call E q ctx] \/
                 cs = [first_call E q ctx; brief_call E q ctx]).
Proof.
  destruct (BackendCore._query E q k s alpha w) as [[hits|e] w1] eqn:Hq.
  - rewrite (rag_answer_after_query E q s alpha k rc w hits w1 Hq).
    assert (Hw : w1 = sent q alpha [(s, k)] w)
      by (rewrite query_spec in Hq; injection Hq as _ <-; reflexivity).
    destruct (BackendCore._ok E hits s).
    + destruct (generate_world E q (fst (BackendCore._ctx hits)) w1)
        as [cs [Hcs Hor]].
      exists cs. split; [|right; eauto].
      rewrite <- Hw, <- Hcs.
      destruct (BackendCore.generate E q _ w1) as [[a|e] w2]; reflexivity.
    + exists []. rewrite generated_nil. split; [rewrite Hw; reflexivity|auto].
  - exists []. rewrite generated_nil. split; [|auto].
    unfold BackendCore.rag_answer, bind at 1. rewrite Hq.
    rewrite query_spec in Hq. injection Hq as _ <-. reflexivity.
Qed.

(** X7. The brief request is sent exactly when the first answer, once its
    reasoning segment and its sources section are stripped, is empty: a
    first answer that is one unclosed reasoning segment triggers it. *)
Theorem retry_iff_stripped_empty (E : env) (q ctx : string) (w : world)
    (first : field string) :
  ollama_post E w (first_call E q ctx) = Returned first ->
  snd (BackendCore.generate E q ctx w)
  = generated (if is_empty (BackendCore._strip (BackendCore.response_text first))
               then [first_call E q ctx; brief_call E q ctx]
               else [first_call E q ctx]) w.
Proof.
  intros H1. rewrite generate_cases, H1.
  destruct (is_empty (BackendCore._strip (BackendCore.response_text first)));
    [|reflexivity].
  destruct (ollama_post E _ (brief_call E q ctx)); reflexivity.
Qed.

Lemma retry_iff_stripped_empty_witness :
  snd (BackendCore.generate (answering "<think>Let me look at the sources")
         "q" "ctx" fresh)
  = generated [first_call (answering "<think>Let me look at the sources") "q" "ctx";
               brief_call (answering "<think>Let me look at the sources") "q" "ctx"]
      fresh.
Proof.
  apply (retry_iff_stripped_empty (answering "<think>Let me look at the sources")
           "q" "ctx" fresh (Present "<think>Let me look at the sources") eq_refl).
Defined.

(** X8. The confidence of a hit is its parsed score, whatever its value, or
    else lies between 0 and 1. *)
Theorem conf_score_or_unit (E : env) (h : hit) :
  parsed E (score (envelope h)) = Some (BackendCore._conf E h) \/
  (parsed E (score (envelope h)) = None /\
   in_unit (BackendCore._conf E h) = true).
Proof.
  rewrite conf_rule. unfold relevance_rule.
  destruct (parsed E (score (envelope h))) as [x|]; [left; reflexivity|].
  right. split; [reflexivity|].
  destruct (parsed E (distance (envelope h))) as [d|].
  - unfold clamp. apply clamp_in_unit.
  - reflexivity.
Qed.

(** X9. Over confidences that are numbers, the gate depends on the hits only
    as a collection: their order does not matter. *)
Theorem ok_permutation (E : env) (hits hits' : list hit) (s : mode) :
  Permutation hits hits' ->
  (forall h, In h hits -> PrimFloat.is_nan (BackendCore._conf E h) = false) ->
  PrimFloat.is_nan (gate E s) = false ->
  BackendCore._ok E hits s = BackendCore._ok E hits' s.
Proof.
  intros Hp Hn Hg.
  assert (Hn' : forall h, In h hits' ->
                          PrimFloat.is_nan (BackendCore._conf E h) = false).
  { intros h Hh. apply Hn. apply (Permutation_in h (Permutation_sym Hp) Hh). }
  pose proof (ok_iff_some_hit E hits s Hn Hg) as [A1 A2].
  pose proof (ok_iff_some_hit E hits' s Hn' Hg) as [B1 B2].
  destruct (BackendCore._ok E hits s) eqn:H1;
    destruct (BackendCore._ok E hits' s) eqn:H2; try reflexivity.
  - destruct (A1 eq_refl) as [h [Hin Hge]].
    symmetry. apply B2.
    exists h. split; [apply (Permutation_in h Hp Hin)|exact Hge].
  - destruct (B1 eq_refl) as [h [Hin Hge]].
    apply A2.
    exists h. split; [apply (Permutation_in h (Permutation_sym Hp) Hin)|exact Hge].
Qed.

Lemma ok_permutation_witness :
  BackendCore._ok all_weak [weak; grids] hybrid
  = BackendCore._ok all_weak [grids; weak] hybrid.
Proof.
  apply (ok_permutation all_weak [weak; grids] [grids; weak] hybrid).
  - apply perm_swap.
  - intros h [<-|[<-|[]]]; reflexivity.
  - reflexivity.
Defined.

(** With a score that is not a number the order of the hits decides. *)
Example ok_order_with_nan :
  BackendCore._ok all_weak [with_score (SNum nan); grids] hybrid = false /\
  BackendCore._ok all_weak [grids; with_score (SNum nan)] hybrid = true.
Proof. split; reflexivity. Qed.

(** X10. Over confidences that are numbers, further hits never close the
    gate. *)
Theorem ok_monotone (E : env) (hits more : list hit) (s : mode) :
  (forall h, In h (hits ++ more)%list ->
             PrimFloat.is_nan (BackendCore._conf E h) = false) ->
  PrimFloat.is_nan (gate E s) = false ->
  BackendCore._ok E hits s = true ->
  BackendCore._ok E (hits ++ more)%list s = true.
Proof.
  intros Hn Hg Hok.
  apply (ok_iff_some_hit E (hits ++ more)%list s Hn Hg).
  apply (ok_iff_some_hit E hits s) in Hok; [|intros h Hh; apply Hn, in_or_app; auto|exact Hg].
  destruct Hok as [h [Hin Hge]]. exists h. split; [apply in_or_app; auto|exact Hge].
Qed.

Lemma ok_monotone_witness :
  BackendCore._ok all_weak ([grids] ++ [weak; weak])%list hybrid = true.
Proof.
  apply (ok_monotone all_weak [grids] [weak; weak] hybrid).
  - intros h [<-|[<-|[<-|[]]]]; reflexivity.
  - reflexivity.
  - reflexivity.
Defined.

(** ** [ui_gradio.py]: the retrieval path *)

Lemma ask_shape E ch q s alpha k w :
  exists reply src n cs,
    UiGradio.ask E ch q s alpha k w
    = (Returned (((ch ++ [{| UiGradio.role := "user"; UiGradio.content := q |}])
                  ++ [{| UiGradio.role := "assistant";
                         UiGradio.content := reply |}])%list, src),
       generated cs (sent q alpha (firstn n (plan s k)) w)) /\
    (1 <= n <= 6)%nat /\
    (has_citation reply = true \/ (reply = "I don't know." /\ src = "")) /\
    (cs = [] \/
     exists prompt,
       cs = [{| g_model := MODEL E; g_prompt := prompt; g_num_predict := 600 |}]).
Proof.
  unfold UiGradio.ask, bind at 1.
  rewrite fallback_loop_first_accepted, modes_to_try_order.
  change (flat_map _ (strategy_order s)) with (plan s k).
  destruct (first_accepted_run E q alpha (plan s k) [] w)
    as [n [hits [used [Hrun [Hn Hused]]]]].
  rewrite plan_length in Hn. rewrite Hrun.
  assert (Hn1 : (1 <= n <= 6)%nat).
  { destruct used; [destruct Hused; lia|].
    destruct Hused as [-> _]. rewrite plan_length. lia. }
  assert (Hs : "I don't know." = "I don't know." /\ "" = "")
    by (split; reflexivity).
  destruct hits as [|h hits];
    [destruct used; exists "I don't know.", "", n, [];
     rewrite generated_nil;
     (split; [reflexivity|]); (split; [exact Hn1|]); split; auto|].
  destruct used as [u|];
    [|exists "I don't know.", "", n, []; rewrite generated_nil;
      (split; [reflexivity|]); (split; [exact Hn1|]); split; auto].
  destruct (UiGradio.build_context E (h :: hits)) as [ctx src_md].
  set (src := if DEBUG_RETRIEVAL E && negb (is_empty src_md) then _ else src_md).
  unfold bind at 1, try_except, bind at 1, UiGradio.call_ollama, bind,
    BackendCore.post_generate.
  set (c := {| g_model := MODEL E; g_prompt := UiGradio.build_prompt q ctx;
               g_num_predict := 600 |}).
  change {| searches := searches (sent q alpha (firstn n (plan s k)) w);
            generations := generations (sent q alpha (firstn n (plan s k)) w) ++ [c] |}
    with (generated [c] (sent q alpha (firstn n (plan s k)) w)).
  assert (Hc : [c] = [] \/
               exists prompt,
                 [c] = [{| g_model := MODEL E; g_prompt := prompt;
                           g_num_predict := 600 |}])
    by (right; exists (UiGradio.build_prompt q ctx); reflexivity).
  destruct (ollama_post E _ c) as [r|e]; cbn [ret].
  - destruct (BackendCore.response_text r) as [text|]; cbn [ret raise].
    + destruct (has_citation (strip (UiGradio.strip_think text))) eqn:Hcit;
        cbn [negb].
      * exists (strip (UiGradio.strip_think text)), src, n, [c].
        split; [reflexivity|]. split; [exact Hn1|]. split; auto.
      * exists "I don't know.", "", n, [c].
        split; [reflexivity|]. split; [exact Hn1|]. split; auto.
    + exists "I don't know.", "", n, [c].
      split; [reflexivity|]. split; [exact Hn1|]. split; auto.
  - destruct (has_citation
                ("I encountered an error while generating the response: "
                 ++ str_exn e)) eqn:Hcit; cbn [negb].
    + exists ("I encountered an error while generating the response: "
              ++ str_exn e), "", n, [c].
      split; [reflexivity|]. split; [exact Hn1|]. split; auto.
    + exists "I don't know.", "", n, [c].
      split; [reflexivity|]. split; [exact Hn1|]. split; auto.
Qed.

(** X11. The retrieval path of [ask] never raises, whatever the backends do.  It
    adds the question and one reply to the history, and the reply carries
    a citation or is the sentinel, which comes with no sources. *)
Theorem ask_reply_shape (E : env) (ch : list UiGradio.message) (q : string)
    (s : mode) (alpha : float) (k : Z) (w : world) :
  exists reply src,
    fst (UiGradio.ask E ch q s alpha k w)
    = Returned (((ch ++ [{| UiGradio.role := "user"; UiGradio.content := q |}])
                 ++ [{| UiGradio.role := "assistant";
                        UiGradio.content := reply |}])%list, src) /\
    (has_citation reply = true \/ (reply = "I don't know." /\ src = "")).
Proof.
  destruct (ask_shape E ch q s alpha k w)
    as [reply [src [n [cs [Hrun [_ [Hreply _]]]]]]].
  exists reply, src. rewrite Hrun. auto.
Qed.

(** X12. The retrieval path of [ask] sends between one and six search requests,
    a prefix of the plan, and then at most one generation request, with
    the configured model and a budget of 600 tokens. *)
Theorem ask_requests (E : env) (ch : list UiGradio.message) (q : string)
    (s : mode) (alpha : float) (k : Z) (w : world) :
  exists n cs,
    snd (UiGradio.ask E ch q s alpha k w)
    = generated cs (sent q alpha (firstn n (plan s k)) w) /\
    (1 <= n <= 6)%nat /\
    (cs = [] \/
     exists prompt,
       cs = [{| g_model := MODEL E; g_prompt := prompt; g_num_predict := 600 |}]).
Proof.
  destruct (ask_shape E ch q s alpha k w)
    as [reply [src [n [cs [Hrun [Hn [_ Hcs]]]]]]].
  exists n, cs. rewrite Hrun. auto.
Qed.

Lemma all_rejected_unreachable E q alpha attempts : forall w,
  search_unreachable E -> all_rejected E q alpha attempts w = true.
Proof.
  induction attempts as [|[s n] rest IH]; intros w H; [reflexivity|].
  cbn [all_rejected]. rewrite (IH _ H), andb_true_r.
  unfold attempt_hits.
  destruct (H w (BackendCore.request q n s alpha)) as [e ->]. reflexivity.
Qed.

(** X13. When every search request raises, [ask] swallows all six failures: the
    whole plan is sent, no generation is requested, and the reply is the
    sentinel, as for a question the knowledge base does not cover. *)
Theorem ask_search_unreachable (E : env) (ch : list UiGradio.message)
    (q : string) (s : mode) (alpha : float) (k : Z) (w : world) :
  search_unreachable E ->
  UiGradio.ask E ch q s alpha k w
  = (Returned (((ch ++ [{| UiGradio.role := "user"; UiGradio.content := q |}])
                ++ [{| UiGradio.role := "assistant";
                       UiGradio.content := "I don't know." |}])%list, ""),
     sent q alpha (plan s k) w).
Proof.
  intros H. apply ask_exhausted. apply all_rejected_unreachable. exact H.
Qed.

Lemma ask_search_unreachable_witness :
  UiGradio.ask search_down [] "q" bm25 0.5 5 fresh
  = (Returned ([{| UiGradio.role := "user"; UiGradio.content := "q" |};
                {| UiGradio.role := "assistant";
                   UiGradio.content := "I don't know." |}], ""),
     sent "q" 0.5 (plan bm25 5) fresh).
Proof.
  apply (ask_search_unreachable search_down [] "q" bm25 0.5 5 fresh).
  intros w c. exists (Exn "Connection refused"). reflexivity.
Defined.

(** ** The numbering of the evidence *)

Module NumberFacts.

Import TextFacts.

Lemma digits_value d : forall acc,
  fold_left (fun acc c => (10 * acc + N.of_nat (code c - 48))%N)
    (list_ascii_of_string (NilEmpty.string_of_uint d)) acc
  = (DecimalPos.Unsigned.of_lu (Decimal.rev d)
     + acc * 10 ^ DecimalPos.Unsigned.usize d)%N.
Proof.
  unfold Decimal.rev.
  induction d; intros acc;
    cbn [NilEmpty.string_of_uint list_ascii_of_string fold_left Decimal.revapp
         DecimalPos.Unsigned.usize];
    [cbn; lia|..];
    rewrite IHd;
    match goal with
    | |- context [Decimal.revapp d (?c Decimal.Nil)] =>
        rewrite (DecimalPos.Unsigned.of_lu_revapp d (c Decimal.Nil))
    end;
    unfold Decimal.rev; cbn [DecimalPos.Unsigned.of_lu];
    rewrite N.pow_succ_r';
    match goal with
    | |- context [N.of_nat (code ?c - 48)] =>
        let v := eval cbv in (N.of_nat (code c - 48)) in
        change (N.of_nat (code c - 48)) with v
    end;
    lia.
Qed.

Lemma int_of_str_pos p : int_of_digits (str_int (Z.pos p)) = N.pos p.
Proof.
  unfold int_of_digits, str_int. cbn [Z.to_int NilZero.string_of_int].
  unfold NilZero.string_of_uint.
  pose proof (DecimalPos.Unsigned.to_uint_nonnil p) as Hnn.
  pose proof (DecimalPos.Unsigned.of_to p) as Hof.
  rewrite DecimalPos.Unsigned.of_uint_alt in Hof.
  destruct (Pos.to_uint p) eqn:Hu; [contradiction Hnn; reflexivity|..];
    rewrite digits_value, Hof; lia.
Qed.

Lemma span_digits_uint d r :
  match r with String c _ => is_digit c | EmptyString => false end = false ->
  span_digits (NilEmpty.string_of_uint d ++ r) = (NilEmpty.string_of_uint d, r).
Proof.
  intros Hr.
  induction d; cbn [NilEmpty.string_of_uint append span_digits];
    try (change (is_digit "0") with true; change (is_digit "1") with true;
         change (is_digit "2") with true; change (is_digit "3") with true;
         change (is_digit "4") with true; change (is_digit "5") with true;
         change (is_digit "6") with true; change (is_digit "7") with true;
         change (is_digit "8") with true; change (is_digit "9") with true;
         cbv iota; rewrite IHd; reflexivity).
  destruct r as [|c r]; [reflexivity|]. cbn [span_digits]. rewrite Hr.
  reflexivity.
Qed.

Lemma cite_at_number p rest :
  cite_at (String "[" (str_int (Z.pos p) ++ String "]" rest))
  = Some (str_int (Z.pos p)).
Proof.
  unfold str_int. cbn [Z.to_int NilZero.string_of_int cite_at].
  unfold NilZero.string_of_uint.
  pose proof (DecimalPos.Unsigned.to_uint_nonnil p) as Hnn.
  destruct (Pos.to_uint p) eqn:Hu; [contradiction Hnn; reflexivity|..];
    rewrite span_digits_uint by reflexivity; reflexivity.
Qed.

Lemma first_citation_marker pre i rest :
  (0 < i)%Z ->
  forallb (fun c => negb (Ascii.eqb c "[")) (list_ascii_of_string pre) = true ->
  first_citation (pre ++ String "[" (str_int i ++ String "]" rest))
  = Some (Z.to_N i).
Proof.
  intros Hi Hpre. destruct i as [|p|p]; try lia. clear Hi.
  unfold first_citation.
  induction pre as [|c pre IH].
  - cbn [append]. cbn [citations]. rewrite cite_at_number.
    cbn [hd_error]. rewrite int_of_str_pos. reflexivity.
  - cbn [list_ascii_of_string forallb] in Hpre.
    apply andb_true_iff in Hpre. destruct Hpre as [Hc Hpre].
    cbn [append citations].
    assert (Hno : forall t, cite_at (String c t) = None).
    { intros t. apply negb_true_iff in Hc. revert Hc. by_ascii c. }
    rewrite Hno. apply IH, Hpre.
Qed.

Lemma enumerate_first (f : Z -> hit -> string) :
  (forall j h, (0 < j)%Z -> first_citation (f j h) = Some (Z.to_N j)) ->
  forall hits i, (0 < i)%Z ->
  map first_citation (BackendCore.enumerate_map f i hits)
  = map (fun j => Some (N.of_nat j)) (seq (Z.to_nat i) (List.length hits)).
Proof.
  intros Hf. induction hits as [|h hits IH]; intros i Hi; [reflexivity|].
  cbn [BackendCore.enumerate_map map List.length seq].
  rewrite (Hf i h Hi), Z_nat_N. f_equal.
  rewrite (IH (i + 1)%Z) by lia.
  replace (Z.to_nat (i + 1)) with (S (Z.to_nat i)) by lia. reflexivity.
Qed.

End NumberFacts.

Lemma numbered_blocks hits :
  map first_citation (BackendCore.enumerate_map BackendCore.block 1 hits)
  = numbers (List.length hits).
Proof.
  unfold numbers.
  apply (NumberFacts.enumerate_first BackendCore.block); [|lia].
  intros j h Hj.
  exact (NumberFacts.first_citation_marker "" j _ Hj eq_refl).
Qed.

(** X14. The evidence is numbered in lockstep from 1.  For every list of
    hits, the context that [_ctx] returns is a sequence of blocks joined
    by blank lines and its listing a sequence of lines joined by line
    feeds (or the placeholder when there is no hit), one block and one
    line per hit, and the first citation marker of the i-th block and of
    the i-th line is [[i]].  The same holds of [build_context]. *)
Theorem evidence_numbering (E : env) (hits : list hit) :
  (exists blocks lines,
     BackendCore._ctx hits
     = (join (nl ++ nl) blocks,
        match lines with [] => "_No sources_" | _ => join nl lines end) /\
     map first_citation blocks = numbers (List.length hits) /\
     map first_citation lines = numbers (List.length hits)) /\
  (exists blocks lines,
     UiGradio.build_context E hits
     = (join (nl ++ nl) blocks,
        match lines with [] => "_No sources_" | _ => join nl lines end) /\
     map first_citation blocks = numbers (List.length hits) /\
     map first_citation lines = numbers (List.length hits)).
Proof.
  split.
  - exists (BackendCore.enumerate_map BackendCore.block 1 hits),
           (BackendCore.enumerate_map BackendCore.source_line 1 hits).
    split; [reflexivity|]. split; [apply numbered_blocks|].
    unfold numbers.
    apply (NumberFacts.enumerate_first BackendCore.source_line); [|lia].
    intros j h Hj.
    exact (NumberFacts.first_citation_marker "- " j _ Hj eq_refl).
  - exists (BackendCore.enumerate_map BackendCore.block 1 hits),
           (BackendCore.enumerate_map (UiGradio.source_line E) 1 hits).
    split; [reflexivity|]. split; [apply numbered_blocks|].
    unfold numbers.
    apply (NumberFacts.enumerate_first (UiGradio.source_line E)); [|lia].
    intros j h Hj. unfold UiGradio.source_line.
    destruct (is_empty (join ", " _)).
    + exact (NumberFacts.first_citation_marker "- **" j _ Hj eq_refl).
    + cbn [append]. rewrite TextFacts.app_s_assoc.
      exact (NumberFacts.first_citation_marker "- **" j _ Hj eq_refl).
Qed.

(** ** The gate and the enlarged retry *)

(** X15. The redefinition of [confident_enough] at the end of [ui_gradio.py]
    changes nothing: both versions give the same verdict, and neither
    looks at the question. *)
Theorem confident_enough_redefined (E : env) (hits : list hit) (m : mode)
    (q q' : string) :
  UiGradio.confident_enough_first E hits m q = UiGradio.confident_enough E hits m q'.
Proof.
  unfold UiGradio.confident_enough_first, UiGradio.confident_enough.
  destruct (map (UiGradio.hit_confidence E) hits) as [|c cs]; [reflexivity|].
  destruct m; apply orb_false_r.
Qed.

(** X16. When the first attempt of a strategy is rejected, the loop of
    [ask] asks the same strategy once more, for [min(2k, 15)] results.
    That count exceeds [k] exactly when [k] lies strictly between 0 and
    15: at [k = 15], the maximum the interface offers, the retry repeats
    the same request. *)
Theorem retry_result_count (E : env) (q : string) (alpha : float) (k : Z)
    (m : mode) (w : world) :
  BackendCore._ok E (attempt_hits E q alpha m k w) m = false ->
  searches (snd (UiGradio.fallback_loop E q alpha k [m] [] w))
  = (searches w
     ++ [BackendCore.request q k m alpha;
         BackendCore.request q (Z.min (2 * k) 15) m alpha])%list /\
  ((k < Z.min (2 * k) 15)%Z <-> (0 < k < 15)%Z) /\
  (k = 15%Z ->
   BackendCore.request q (Z.min (2 * k) 15) m alpha
   = BackendCore.request q k m alpha).
Proof.
  intros Hrej. split; [|split].
  - cbn [UiGradio.fallback_loop].
    rewrite bind_try_search, loop_test_ok, Hrej.
    rewrite bind_try_search, loop_test_ok.
    destruct (BackendCore._ok E
                (attempt_hits E q alpha m (Z.min (2 * k) 15)
                   (sent q alpha [(m, k)] w)) m);
      cbn [ret snd sent searches map fst];
      rewrite <- app_assoc; reflexivity.
  - lia.
  - intros ->. reflexivity.
Qed.

Lemma retry_result_count_witness :
  searches (snd (UiGradio.fallback_loop all_weak grid_question 0.5 15 [hybrid] [] fresh))
  = ([]
     ++ [BackendCore.request grid_question 15 hybrid 0.5;
         BackendCore.request grid_question (Z.min (2 * 15) 15) hybrid 0.5])%list /\
  ((15 < Z.min (2 * 15) 15)%Z <-> (0 < 15 < 15)%Z) /\
  (15%Z = 15%Z ->
   BackendCore.request grid_question (Z.min (2 * 15) 15) hybrid 0.5
   = BackendCore.request grid_question 15 hybrid 0.5).
Proof.
  apply (retry_result_count all_weak grid_question 0.5 15 hybrid fresh).
  reflexivity.
Defined.

(** ** The sources listing of the interface *)

Lemma metric_part_nonempty E label raw f v :
  is_empty label = false -> is_empty raw = false ->
  is_empty (UiGradio.metric_part E label raw f v) = false.
Proof.
  intros Hl Hr.
  destruct label as [|a label]; [discriminate|].
  destruct raw as [|b raw]; [discriminate|].
  unfold UiGradio.metric_part.
  destruct v as [x|z|s|b']; try reflexivity.
  - destruct (float_of_int z); reflexivity.
  - destruct (float_of_str E s); reflexivity.
Qed.

(** X17. [metric_str] is empty exactly when the hit carries neither a score nor
    a distance: a value that does not convert to a number is still
    shown. *)
Theorem metric_str_empty_iff (E : env) (h : hit) :
  is_empty (UiGradio.metric_str E h) = true <->
  get (score (envelope h)) = None /\ get (distance (envelope h)) = None.
Proof.
  unfold UiGradio.metric_str.
  destruct (get (score (envelope h))) as [sc|];
    destruct (get (distance (envelope h))) as [dist|]; cbn [app].
  - pose proof (metric_part_nonempty E "score=" "score=" (fun x => x) sc
                  eq_refl eq_refl) as H1.
    unfold join. cbn [concat].
    destruct (UiGradio.metric_part E "score=" "score=" (fun x => x) sc);
      [discriminate H1|].
    split; [discriminate|intros [H _]; discriminate H].
  - pose proof (metric_part_nonempty E "score=" "score=" (fun x => x) sc
                  eq_refl eq_refl) as H1.
    unfold join. cbn [concat]. rewrite H1.
    split; [discriminate|intros [H _]; discriminate H].
  - pose proof (metric_part_nonempty E "sim=" "distance="
                  (fun x => (1 - x)%float) dist eq_refl eq_refl) as H1.
    unfold join. cbn [concat]. rewrite H1.
    split; [discriminate|intros [_ H]; discriminate H].
  - split; [auto|reflexivity].
Qed.

(** ** [strip_think] and [force_minimal_markdown] *)

Module ThinkBlockFacts.

Lemma contains_ci_drop p n : forall s,
  contains_ci p s = false -> contains_ci p (drop n s) = false.
Proof.
  induction n as [|n IH]; intros s H; [exact H|].
  destruct s as [|c t]; [exact H|].
  cbn [drop]. apply IH.
  apply (StripFacts.contains_ci_false_cons p c t H).
Qed.

Lemma to_close_none r :
  contains_ci "</think>" r = false -> to_close r = None.
Proof.
  induction r as [|c t IH]; intros H; [reflexivity|].
  destruct (StripFacts.contains_ci_false_cons _ c t H) as [Hp Ht].
  cbn [to_close]. rewrite Hp, (IH Ht). reflexivity.
Qed.

Lemma think_block_none prev s :
  contains_ci "</think>" s = false -> think_block_re prev s = None.
Proof.
  intros H. unfold think_block_re.
  destruct (prefix_ci "<think>" s); [|reflexivity].
  rewrite (to_close_none _ (contains_ci_drop "</think>" 7 s H)). reflexivity.
Qed.

Lemma sub_block_none s : forall prev,
  contains_ci "</think>" s = false -> sub_from think_block_re 0 prev s = s.
Proof.
  induction s as [|c t IH]; intros prev H; [reflexivity|].
  cbn [sub_from]. rewrite (think_block_none prev _ H).
  destruct (StripFacts.contains_ci_false_cons _ c t H) as [_ Ht].
  rewrite (IH _ Ht). reflexivity.
Qed.

End ThinkBlockFacts.

(** X18. [strip_think] removes closed reasoning blocks only.  A text
    with no closing marker and with no line that starts a heading, a
    bullet or a numbered item is returned whole, without the whitespace
    at its ends: an unclosed reasoning segment, which [_strip] deletes,
    is kept.  (When such a line follows, the text is cut in front of it
    and the segment is lost with what precedes the line.) *)
Theorem strip_think_unclosed (text : string) :
  contains_ci "</think>" text = false ->
  re_search heading_re text = None ->
  UiGradio.strip_think text = strip text.
Proof.
  intros Hclose Hhead. unfold UiGradio.strip_think.
  assert (Hsub : re_sub think_block_re text = text)
    by (apply ThinkBlockFacts.sub_block_none, Hclose).
  rewrite Hsub, Hhead. reflexivity.
Qed.

Lemma strip_think_unclosed_witness :
  UiGradio.strip_think "  <think>The grid spacing is 1200mm [1]"
  = strip "  <think>The grid spacing is 1200mm [1]".
Proof.
  apply (strip_think_unclosed "  <think>The grid spacing is 1200mm [1]");
    reflexivity.
Defined.

(** The two cleaners on an unclosed reasoning segment, and [strip_think]
    on one that a bullet line follows. *)
Example unclosed_segment_kept :
  UiGradio.strip_think "<think>The grid spacing is 1200mm [1]"
  = "<think>The grid spacing is 1200mm [1]" /\
  BackendCore._strip (Some "<think>The grid spacing is 1200mm [1]") = "" /\
  UiGradio.strip_think ("<think>The grid spacing" ++ nl ++ "- Place the grid [1]")
  = "- Place the grid [1]".
Proof. repeat split; reflexivity. Qed.

Module CollapseFacts.

Import TextFacts.

Lemma prefix_cons a p c t : prefix (String a p) (String c t) = Ascii.eqb a c && prefix p t.
Proof.
  cbn [prefix]. destruct (ascii_dec a c) as [->|Hn].
  - rewrite Ascii.eqb_refl. reflexivity.
  - apply Ascii.eqb_neq in Hn. rewrite Hn. reflexivity.
Qed.

Lemma collapse_head s : head (collapse_blank_lines s) = head s.
Proof.
  induction s as [|c t IH]; [reflexivity|].
  cbn [collapse_blank_lines].
  destruct (Ascii.eqb c nl_char) eqn:Hc; cbn [andb]; [|reflexivity].
  destruct (prefix (nl ++ nl) t) eqn:Hp; [|reflexivity].
  rewrite IH. apply Ascii.eqb_eq in Hc. subst c.
  destruct t as [|d t]; [discriminate Hp|].
  change (nl ++ nl) with (String nl_char nl) in Hp.
  rewrite prefix_cons in Hp. apply andb_true_iff in Hp. destruct Hp as [Hd _].
  apply Ascii.eqb_eq in Hd. subst d. reflexivity.
Qed.

Lemma prefix_nl s : prefix nl s = match head s with Some c => Ascii.eqb nl_char c | None => false end.
Proof.
  destruct s as [|c t]; [reflexivity|]. unfold nl. rewrite prefix_cons.
  destruct t; cbn [prefix]; apply andb_true_r.
Qed.

Lemma collapse_two s :
  prefix (nl ++ nl) (collapse_blank_lines s) = true -> prefix (nl ++ nl) s = true.
Proof.
  change (nl ++ nl) with (String nl_char nl).
  induction s as [|c t IH]; intros H; [discriminate H|].
  cbn [collapse_blank_lines] in H.
  destruct (Ascii.eqb c nl_char) eqn:Hc; cbn [andb] in H.
  - apply Ascii.eqb_eq in Hc. subst c. rewrite prefix_cons, Ascii.eqb_refl. cbn [andb].
    change (nl ++ nl) with (String nl_char nl) in H.
    destruct (prefix (String nl_char nl) t) eqn:Hp.
    + destruct t as [|d t]; [discriminate Hp|].
      rewrite prefix_cons in Hp. apply andb_true_iff in Hp. destruct Hp as [Hd _].
      rewrite prefix_nl. cbn [head]. exact Hd.
    + rewrite prefix_cons in H. cbn [andb] in H. rewrite Ascii.eqb_refl in H.
      cbn [andb] in H. rewrite prefix_nl in *. rewrite collapse_head in H. exact H.
  - rewrite prefix_cons in H. rewrite Ascii.eqb_sym, Hc in H. discriminate H.
Qed.

Lemma collapse_no_triple s :
  contains (nl ++ nl ++ nl) (collapse_blank_lines s) = false.
Proof.
  change (nl ++ nl ++ nl) with (String nl_char (nl ++ nl)).
  induction s as [|c t IH]; [reflexivity|].
  cbn [collapse_blank_lines].
  destruct (Ascii.eqb c nl_char && prefix (nl ++ nl) t) eqn:Hd; [exact IH|].
  cbn [contains]. rewrite IH, orb_false_r, prefix_cons.
  destruct (prefix (nl ++ nl) (collapse_blank_lines t)) eqn:Hp.
  - rewrite (collapse_two _ Hp), andb_true_r in Hd.
    rewrite Ascii.eqb_sym, Hd. reflexivity.
  - apply andb_false_r.
Qed.

Lemma span_digits_collapse t :
  span_digits (collapse_blank_lines t)
  = (fst (span_digits t), collapse_blank_lines (snd (span_digits t))).
Proof.
  induction t as [|c t IH]; [reflexivity|].
  cbn [span_digits].
  destruct (is_digit c) eqn:Hc.
  - assert (Hn : Ascii.eqb c nl_char = false) by (revert Hc; by_ascii c).
    cbn [collapse_blank_lines]. rewrite Hn. cbn [andb span_digits].
    rewrite Hc, IH. destruct (span_digits t). reflexivity.
  - cbn [fst snd].
    destruct (collapse_blank_lines (String c t)) as [|d r] eqn:Hcol; [reflexivity|].
    pose proof (collapse_head (String c t)) as Hh. rewrite Hcol in Hh.
    cbn [head] in Hh. injection Hh as ->. cbn [span_digits]. rewrite Hc. reflexivity.
Qed.

Lemma cite_at_collapse c t :
  cite_at (String c (collapse_blank_lines t)) = cite_at (String c t).
Proof.
  cbn [cite_at]. by_ascii c.
  rewrite span_digits_collapse. destruct (span_digits t) as [d r]. cbn [fst snd].
  destruct d as [|x d]; [reflexivity|].
  pose proof (collapse_head r) as Hh.
  destruct r as [|y r].
  - reflexivity.
  - destruct (collapse_blank_lines (String y r)) as [|y' r'] eqn:Hcol;
      [discriminate Hh|].
    cbn [head] in Hh. injection Hh as ->. reflexivity.
Qed.

Lemma citations_collapse s :
  citations (collapse_blank_lines s) = citations s.
Proof.
  induction s as [|c t IH]; [reflexivity|].
  cbn [collapse_blank_lines].
  destruct (Ascii.eqb c nl_char && prefix (nl ++ nl) t) eqn:Hd.
  - apply andb_true_iff in Hd. destruct Hd as [Hc _].
    apply Ascii.eqb_eq in Hc. subst c. rewrite IH.
    cbn [citations]. reflexivity.
  - change (citations (String c (collapse_blank_lines t)))
      with (match cite_at (String c (collapse_blank_lines t)) with
            | Some d => int_of_digits d :: citations (collapse_blank_lines t)
            | None => citations (collapse_blank_lines t)
            end).
    rewrite cite_at_collapse, IH. reflexivity.
Qed.

Lemma collapse_fixed s :
  contains (nl ++ nl ++ nl) s = false -> collapse_blank_lines s = s.
Proof.
  change (nl ++ nl ++ nl) with (String nl_char (nl ++ nl)).
  induction s as [|c t IH]; intros H; [reflexivity|].
  cbn [contains] in H. apply orb_false_iff in H. destruct H as [Hp Ht].
  rewrite prefix_cons, Ascii.eqb_sym in Hp.
  cbn [collapse_blank_lines]. rewrite Hp, (IH Ht). reflexivity.
Qed.

Lemma collapse_empty s : is_empty (collapse_blank_lines s) = is_empty s.
Proof.
  pose proof (collapse_head s) as H.
  destruct s, (collapse_blank_lines _); try reflexivity; discriminate H.
Qed.

Lemma lstrip_head s :
  match head (lstrip s) with Some c => is_space c | None => false end = false.
Proof.
  induction s as [|c t IH]; [reflexivity|].
  cbn [lstrip]. destruct (is_space c) eqn:Hc; [exact IH|exact Hc].
Qed.

Lemma lstrip_collapse s :
  lstrip s = s -> lstrip (collapse_blank_lines s) = collapse_blank_lines s.
Proof.
  intros H. pose proof (lstrip_head s) as Hh. rewrite H in Hh.
  rewrite <- collapse_head in Hh.
  destruct (collapse_blank_lines s) as [|c t]; [reflexivity|].
  cbn [head] in Hh. cbn [lstrip]. rewrite Hh. reflexivity.
Qed.

Lemma rstrip_collapse s :
  rstrip s = s -> rstrip (collapse_blank_lines s) = collapse_blank_lines s.
Proof.
  induction s as [|c t IH]; intros H; [reflexivity|].
  cbn [rstrip] in H.
  destruct (is_space c && is_empty (rstrip t)) eqn:Hc; [discriminate H|].
  injection H as Ht. rewrite Ht in Hc.
  cbn [collapse_blank_lines].
  destruct (Ascii.eqb c nl_char && prefix (nl ++ nl) t); [apply IH, Ht|].
  cbn [rstrip]. rewrite (IH Ht), collapse_empty, Hc. reflexivity.
Qed.

End CollapseFacts.

Lemma force_minimal_markdown_shape ans :
  UiChat.force_minimal_markdown ans = "I don't know." \/
  (has_citation (UiChat.force_minimal_markdown ans) = true /\
   lstrip (UiChat.force_minimal_markdown ans) = UiChat.force_minimal_markdown ans /\
   rstrip (UiChat.force_minimal_markdown ans) = UiChat.force_minimal_markdown ans /\
   contains (nl ++ nl ++ nl) (UiChat.force_minimal_markdown ans) = false).
Proof.
  unfold UiChat.force_minimal_markdown.
  destruct (has_citation (strip (or_str ans ""))) eqn:Hc; cbn [negb];
    [right|left; reflexivity].
  destruct (strip_stripped (or_str ans "")) as [Hl Hr].
  split; [|split; [|split]].
  - apply has_citation_true. rewrite CollapseFacts.citations_collapse.
    intros Hnil.
    apply (search_cite_none (strip (or_str ans "")) None) in Hnil.
    unfold has_citation, re_found, re_search in Hc. rewrite Hnil in Hc.
    discriminate Hc.
  - apply CollapseFacts.lstrip_collapse, Hl.
  - apply CollapseFacts.rstrip_collapse, Hr.
  - apply CollapseFacts.collapse_no_triple.
Qed.

(** X19. [force_minimal_markdown] answers with the sentinel exactly when the
    stripped text has no citation; otherwise its result has the same
    citations as the text, in the same order, and holds no three line
    feeds in a row. *)
Theorem force_minimal_markdown_spec (ans : option string) :
  (has_citation (strip (or_str ans "")) = false /\
   UiChat.force_minimal_markdown ans = "I don't know.") \/
  (has_citation (strip (or_str ans "")) = true /\
   has_citation (UiChat.force_minimal_markdown ans) = true /\
   citations (UiChat.force_minimal_markdown ans) = citations (or_str ans "") /\
   contains (nl ++ nl ++ nl) (UiChat.force_minimal_markdown ans) = false).
Proof.
  unfold UiChat.force_minimal_markdown.
  destruct (has_citation (strip (or_str ans ""))) eqn:Hc; cbn [negb];
    [right|left; auto].
  assert (Hcit : citations (collapse_blank_lines (strip (or_str ans "")))
                 = citations (or_str ans "")).
  { rewrite CollapseFacts.citations_collapse. unfold strip.
    rewrite citations_lstrip, citations_rstrip. reflexivity. }
  split; [reflexivity|]. split; [|split].
  - apply has_citation_true. rewrite CollapseFacts.citations_collapse.
    intros Hnil.
    assert (Hf : has_citation (strip (or_str ans "")) = false).
    { unfold has_citation, re_found, re_search.
      destruct (search_from cite_re None (strip (or_str ans ""))) eqn:Hs;
        [|reflexivity].
      apply (search_cite_none (strip (or_str ans "")) None) in Hnil.
      rewrite Hnil in Hs. discriminate Hs. }
    rewrite Hf in Hc. discriminate Hc.
  - exact Hcit.
  - apply CollapseFacts.collapse_no_triple.
Qed.

(** X20. [force_minimal_markdown] is idempotent. *)
Theorem force_minimal_markdown_idempotent (ans : option string) :
  UiChat.force_minimal_markdown (Some (UiChat.force_minimal_markdown ans))
  = UiChat.force_minimal_markdown ans.
Proof.
  destruct (force_minimal_markdown_shape ans) as [Hs|[Hc [Hl [Hr Hn]]]].
  - rewrite Hs. reflexivity.
  - unfold UiChat.force_minimal_markdown at 1.
    rewrite or_str_some. unfold strip. rewrite !Hr, !Hl, Hc. cbn [negb].
    apply CollapseFacts.collapse_fixed, Hn.
Qed.

(** ** The routing of a question *)

Module RoutingFacts.

Import TextFacts.

Lemma lower_not_space a : is_lower a = true -> is_space a = false.
Proof. by_ascii a. Qed.

Lemma intro_search_app pre : forall s g,
  intro_at s = Some g -> exists g', intro_search (pre ++ s) = Some g'.
Proof.
  induction pre as [|c pre IH]; intros s g H.
  - exists g. cbn [append]. destruct s; cbn [intro_search]; rewrite H; reflexivity.
  - cbn [append intro_search].
    destruct (intro_at (String c (pre ++ s))) as [g0|]; [eauto|].
    apply (IH s g H).
Qed.

Lemma spaced_name_one a b rest :
  is_lower a = true -> is_name_char b = true ->
  exists g, spaced_name (String " " (String a (String b rest))) = Some g.
Proof.
  intros Ha Hb. unfold spaced_name. cbn [spaces].
  change (is_space " ") with true. cbv iota.
  rewrite (lower_not_space a Ha). cbn [drop name_group]. rewrite Ha.
  cbn [name_chars]. rewrite Hb. eauto.
Qed.

Lemma intro_at_phrase phrase a b rest :
  In phrase ["my name is"; "i am"; "i'm"] ->
  is_lower a = true -> is_name_char b = true ->
  exists g, intro_at (phrase ++ " " ++ String a (String b rest)) = Some g.
Proof.
  intros Hin Ha Hb.
  destruct Hin as [<-|[<-|[<-|[]]]]; unfold intro_at; simpl prefix; cbv iota;
    simpl drop; apply spaced_name_one; assumption.
Qed.

Lemma name_group_lower s g :
  name_group s = Some g -> exists c more, g = String c more /\ is_lower c = true.
Proof.
  unfold name_group. destruct s as [|c t]; [discriminate|].
  destruct (is_lower c) eqn:Hc; [|discriminate].
  destruct (name_chars 30 t); [discriminate|].
  intros H. injection H as <-. eauto.
Qed.

Lemma intro_at_lower s g :
  intro_at s = Some g -> exists c more, g = String c more /\ is_lower c = true.
Proof.
  unfold intro_at, spaced_name. intros H.
  destruct (prefix "my name is" s).
  { destruct (spaces (drop 10 s)); [discriminate|]. apply (name_group_lower _ _ H). }
  destruct (prefix "i am" s).
  { destruct (spaces (drop 4 s)); [discriminate|]. apply (name_group_lower _ _ H). }
  destruct (prefix "i'm" s); [|discriminate].
  destruct (spaces (drop 3 s)); [discriminate|]. apply (name_group_lower _ _ H).
Qed.

Lemma intro_search_lower s : forall g,
  intro_search s = Some g -> exists c more, g = String c more /\ is_lower c = true.
Proof.
  induction s as [|c t IH]; intros g H; cbn [intro_search] in H.
  - destruct (intro_at "") eqn:Hi; [|discriminate].
    injection H as <-. apply (intro_at_lower _ _ Hi).
  - destruct (intro_at (String c t)) eqn:Hi.
    + injection H as <-. apply (intro_at_lower _ _ Hi).
    + apply IH, H.
Qed.

Lemma first_word_no_space s : no_space (first_word s) = true.
Proof.
  unfold no_space. induction s as [|c t IH]; [reflexivity|].
  cbn [first_word]. destruct (is_space c) eqn:Hc; [reflexivity|].
  cbn [list_ascii_of_string forallb]. rewrite Hc, IH. reflexivity.
Qed.

Lemma cased_not_space (c : ascii) (b : bool) :
  is_space c = false ->
  is_space (if is_upper c || is_lower c then (if b then lower c else upper c) else c) = false.
Proof. destruct b; by_ascii c. Qed.

Lemma title_no_space s : forall b,
  no_space s = true -> no_space (title_from b s) = true.
Proof.
  unfold no_space. induction s as [|c t IH]; intros b H; [reflexivity|].
  cbn [list_ascii_of_string forallb] in H. apply andb_true_iff in H.
  destruct H as [Hc Ht]. apply negb_true_iff in Hc.
  pose proof (cased_not_space c b Hc) as Hs.
  cbn [title_from].
  destruct (is_upper c || is_lower c); cbn [list_ascii_of_string forallb];
    rewrite Hs, IH by exact Ht; reflexivity.
Qed.

Lemma upper_is_upper c : is_lower c = true -> is_upper (upper c) = true.
Proof. by_ascii c. Qed.

Lemma lower_cased c : is_lower c = true -> is_upper c || is_lower c = true.
Proof. intros ->. apply orb_true_r. Qed.

Lemma name_of_group c more :
  is_lower c = true ->
  capitalised (title (first_word (strip (String c more)))) = true /\
  no_space (title (first_word (strip (String c more)))) = true.
Proof.
  intros Hc. split.
  - unfold strip. cbn [rstrip]. rewrite (lower_not_space c Hc). cbn [andb lstrip].
    rewrite (lower_not_space c Hc). cbn [first_word].
    rewrite (lower_not_space c Hc). unfold title. cbn [title_from].
    rewrite (lower_cased c Hc). cbn [capitalised]. apply upper_is_upper, Hc.
  - apply title_no_space, first_word_no_space.
Qed.

Lemma lower_str_empty s : is_empty (lower_str s) = is_empty s.
Proof. destruct s; reflexivity. Qed.

Lemma app_nonempty pre x y : is_empty (pre ++ String x y) = false.
Proof. destruct pre; reflexivity. Qed.

Lemma strip_strip s : strip (strip s) = strip s.
Proof.
  destruct (strip_stripped s) as [Hl Hr].
  unfold strip at 1. rewrite Hr. exact Hl.
Qed.

End RoutingFacts.

(** X21. A name that [detect_smalltalk] returns comes with the small-talk flag,
    starts with a capital letter and holds no whitespace. *)
Theorem smalltalk_name (q : option string) (name : string) :
  snd (UiChat.detect_smalltalk q) = Some name ->
  fst (UiChat.detect_smalltalk q) = true /\
  capitalised name = true /\ no_space name = true.
Proof.
  unfold UiChat.detect_smalltalk.
  destruct (is_empty (lower_str (strip (or_str q "")))); [discriminate|].
  destruct (is_greeting (lower_str (strip (or_str q "")))); [discriminate|].
  destruct (intro_search (lower_str (strip (or_str q "")))) as [group|] eqn:Hs.
  - cbn [fst snd]. intros H. injection H as <-.
    destruct (RoutingFacts.intro_search_lower _ _ Hs) as [c [more [-> Hc]]].
    split; [reflexivity|]. apply RoutingFacts.name_of_group, Hc.
  - destruct (_ && _); discriminate.
Qed.

Lemma smalltalk_name_witness :
  fst (UiChat.detect_smalltalk (Some "Hello, my name is mohamad ali")) = true /\
  capitalised "Mohamad" = true /\ no_space "Mohamad" = true.
Proof.
  apply (smalltalk_name (Some "Hello, my name is mohamad ali") "Mohamad").
  reflexivity.
Defined.

(** X22. A question that holds an introduction phrase followed by a space, a
    lowercase letter and one more name character is never retrieved,
    whatever else it says: [ask] sends no request and replies with the
    capabilities text or with a greeting. *)
Theorem introduction_skips_retrieval (E : env) (ch : list UiGradio.message)
    (question : option string) (m : mode) (alpha : float) (k : Z) (w : world)
    (pre phrase rest : string) (a b : ascii) :
  lower_str (strip (or_str question ""))
  = pre ++ phrase ++ " " ++ String a (String b rest) ->
  In phrase ["my name is"; "i am"; "i'm"] ->
  is_lower a = true -> is_name_char b = true ->
  exists msg,
    UiChat.ask E ch question m alpha k w
    = (Returned ((ch ++ [{| UiGradio.role := "user";
                            UiGradio.content := strip (or_str question "") |}]
                     ++ [{| UiGradio.role := "assistant";
                            UiGradio.content := msg |}])%list, ""), w) /\
    (msg = UiChat.CAPABILITIES_MD \/ prefix "Hi" msg = true).
Proof.
  intros Hq Hin Ha Hb. unfold UiChat.ask.
  set (q := strip (or_str question "")) in *.
  assert (Hne : is_empty (lower_str q) = false).
  { rewrite Hq. destruct phrase as [|x phrase].
    - destruct Hin as [H|[H|[H|[]]]]; discriminate H.
    - apply RoutingFacts.app_nonempty. }
  rewrite RoutingFacts.lower_str_empty in Hne.
  rewrite Hne.
  destruct (UiChat.is_capabilities_question q);
    [exists UiChat.CAPABILITIES_MD; split; [reflexivity|left; reflexivity]|].
  unfold UiChat.detect_smalltalk. rewrite or_str_some.
  unfold q at 1 2 3 4. rewrite RoutingFacts.strip_strip. fold q.
  rewrite RoutingFacts.lower_str_empty, Hne.
  destruct (is_greeting (lower_str q)).
  { eexists. split; [reflexivity|right; reflexivity]. }
  destruct (RoutingFacts.intro_at_phrase phrase a b rest Hin Ha Hb) as [g Hg].
  destruct (RoutingFacts.intro_search_app pre _ g Hg) as [g' Hg'].
  rewrite Hq, Hg'.
  destruct (title (first_word (strip g'))) as [|c n];
    (eexists; split; [reflexivity|right; reflexivity]).
Qed.

Lemma introduction_skips_retrieval_witness :
  exists msg,
    UiChat.ask (answering "Use the Curtain Grid tool. [1]") []
      (Some "I am trying to place a curtain wall in Revit") hybrid 0.5 8 fresh
    = (Returned (([] ++ [{| UiGradio.role := "user";
                            UiGradio.content :=
                              strip (or_str (Some "I am trying to place a curtain wall in Revit") "") |}]
                     ++ [{| UiGradio.role := "assistant";
                            UiGradio.content := msg |}])%list, ""), fresh) /\
    (msg = UiChat.CAPABILITIES_MD \/ prefix "Hi" msg = true).
Proof.
  apply (introduction_skips_retrieval (answering "Use the Curtain Grid tool. [1]") []
           (Some "I am trying to place a curtain wall in Revit") hybrid 0.5 8 fresh
           "" "i am" "ying to place a curtain wall in revit" "t" "r").
  - reflexivity.
  - right. left. reflexivity.
  - reflexivity.
  - reflexivity.
Defined.

(** The reply to that question. *)
Example introduction_in_a_domain_question :
  fst (UiChat.ask (answering "Use the Curtain Grid tool. [1]") []
         (Some "I am trying to place a curtain wall in Revit") hybrid 0.5 8 fresh)
  = Returned ([{| UiGradio.role := "user";
                  UiGradio.content := "I am trying to place a curtain wall in Revit" |};
               {| UiGradio.role := "assistant";
                  UiGradio.content :=
                    "Hi Trying, how can I help you with Revit today?" |}], "").
Proof. vm_compute. reflexivity. Qed.

(** X23. [ask] never raises, whatever the backends do.  A question that is
    empty or whitespace only changes nothing and sends no request; any
    other question adds itself, stripped, and exactly one reply, which is
    not empty, to the history. *)
Theorem ask_history (E : env) (ch : list UiGradio.message)
    (question : option string) (m : mode) (alpha : float) (k : Z) (w : world) :
  exists hist src w',
    UiChat.ask E ch question m alpha k w = (Returned (hist, src), w') /\
    if all_space (or_str question "")
    then hist = ch /\ src = "" /\ w' = w
    else exists reply,
           hist = ((ch ++ [{| UiGradio.role := "user";
                              UiGradio.content := strip (or_str question "") |}])
                   ++ [{| UiGradio.role := "assistant";
                          UiGradio.content := reply |}])%list /\
           is_empty reply = false.
Proof.
  unfold UiChat.ask.
  destruct (all_space (or_str question "")) eqn:Hs.
  - rewrite (strip_all_space _ Hs). cbn [is_empty].
    exists ch, "", w. auto.
  - destruct (is_empty (strip (or_str question ""))) eqn:He.
    { apply strip_empty_all_space in He. rewrite He in Hs. discriminate Hs. }
    destruct (UiChat.is_capabilities_question (strip (or_str question ""))).
    { do 3 eexists. split; [reflexivity|].
      exists UiChat.CAPABILITIES_MD. rewrite <- app_assoc. split; reflexivity. }
    destruct (UiChat.detect_smalltalk (Some (strip (or_str question ""))))
      as [[|] name].
    + do 3 eexists. split; [reflexivity|].
      eexists. rewrite <- app_assoc. split; [reflexivity|].
      destruct name as [[|c n]|]; reflexivity.
    + destruct (ask_shape E ch (strip (or_str question "")) m alpha k w)
        as [reply [src [n [cs [Hrun [_ [Hreply _]]]]]]].
      rewrite Hrun. do 3 eexists. split; [reflexivity|].
      exists reply. split; [reflexivity|].
      destruct Hreply as [Hc|[-> _]]; [|reflexivity].
      destruct reply; [discriminate Hc|reflexivity].
Qed.

(** ** Confidences that are not numbers *)

Module NanFacts.

Lemma is_nan_spec x : PrimFloat.is_nan x = true -> Prim2SF x = S754_nan.
Proof.
  unfold PrimFloat.is_nan. rewrite eqb_spec. unfold SFeqb. intros H.
  destruct (Prim2SF x) as [s|s| |s m e] eqn:Hx; try reflexivity;
    rewrite sf_compare_refl in H by discriminate; discriminate H.
Qed.

Lemma ltb_nan_l x y : PrimFloat.is_nan x = true -> PrimFloat.ltb x y = false.
Proof.
  intros H. rewrite ltb_spec, (is_nan_spec x H). reflexivity.
Qed.

Lemma leb_nan_r x y : PrimFloat.is_nan y = true -> PrimFloat.leb x y = false.
Proof.
  intros H. rewrite leb_spec, (is_nan_spec y H). unfold SFleb.
  destruct (Prim2SF x) as [[|]|[|]| |[|] m e]; reflexivity.
Qed.

Lemma leb_nan_l x y : PrimFloat.is_nan x = true -> PrimFloat.leb x y = false.
Proof.
  intros H. rewrite leb_spec, (is_nan_spec x H). reflexivity.
Qed.

Lemma max_of_nan xs : forall x,
  PrimFloat.is_nan x = true -> Py.max_of x xs = x.
Proof.
  unfold Py.max_of. induction xs as [|a xs IH]; intros x H; [reflexivity|].
  cbn [fold_left]. unfold Py.max at 2. rewrite (ltb_nan_l x a H). apply IH, H.
Qed.

End NanFacts.

(** X24. An attempt whose first hit has a confidence that is not a number is
    rejected whatever the other hits are, and so is every attempt when
    the threshold is not a number: [max] keeps a leading NaN and no
    comparison with NaN holds. *)
Theorem ok_nan_rejects (E : env) (h : hit) (hits : list hit) (s : mode) :
  PrimFloat.is_nan (BackendCore._conf E h) = true \/
  PrimFloat.is_nan (gate E s) = true ->
  BackendCore._ok E (h :: hits) s = false.
Proof.
  intros H. unfold BackendCore._ok.
  change (BackendCore.threshold E s) with (gate E s).
  cbn [map]. cbv iota. unfold Py.ge.
  destruct H as [H|H].
  - rewrite (NanFacts.max_of_nan _ _ H). apply NanFacts.leb_nan_r, H.
  - apply NanFacts.leb_nan_l, H.
Qed.

Lemma ok_nan_rejects_witness :
  BackendCore._ok all_weak [with_score (SNum nan); grids; grids] bm25 = false.
Proof.
  apply (ok_nan_rejects all_weak (with_score (SNum nan)) [grids; grids] bm25).
  left. reflexivity.
Defined.

(** ** A refusal of the model *)

(** The prompt of [rag_answer] asks the model to reply exactly
    ["I don't know."] when the sources do not hold the answer; the
    citation check then appends a citation to that reply and returns it
    with the sources. *)
Example refusal_gets_citation :
  fst (BackendCore.rag_answer (answering "I don't know.") "q" hybrid 0.4 10 true fresh)
  = Returned ("I don't know. [1]", snd (BackendCore._ctx [grids]),
              diag_of (answering "I don't know.") [grids] hybrid 0.4 10).
Proof. vm_compute. reflexivity. Qed.

(** ** The smoke test *)

Lemma passes_cited ans : SmokeTest.passes true ans = has_citation ans.
Proof.
  unfold SmokeTest.passes.
  destruct (has_citation ans) eqn:Hc; [|apply andb_false_r].
  rewrite andb_true_r.
  assert (Hcit : citations (strip ans) <> []).
  { unfold strip. rewrite citations_lstrip, citations_rstrip. intros Hnil.
    apply (search_cite_none ans None) in Hnil.
    unfold has_citation, re_found, re_search in Hc. rewrite Hnil in Hc.
    discriminate Hc. }
  destruct ans as [|c t]; [discriminate Hc|]. cbn [is_empty negb andb].
  destruct (strip (String c t)) as [|c' t'] eqn:Hs;
    [contradiction Hcit; reflexivity|].
  cbn [is_empty negb andb].
  destruct (String.eqb (String c' t') "I don't know.") eqn:He; [|reflexivity].
  apply String.eqb_eq in He. rewrite He in Hcit.
  contradiction Hcit. reflexivity.
Qed.

(** X25. With citations required, the verdict of the smoke test is the
    citation check alone: its tests for an empty answer and for the
    sentinel never decide.  Without, an answer passes exactly when it is
    not whitespace only and, stripped, is not the sentinel. *)
Theorem smoke_verdict (ans : string) :
  SmokeTest.passes true ans = has_citation ans /\
  (SmokeTest.passes false ans = true <->
   all_space ans = false /\ strip ans <> "I don't know.").
Proof.
  split; [apply passes_cited|].
  unfold SmokeTest.passes.
  destruct (all_space ans) eqn:Hs.
  - rewrite (strip_all_space ans Hs). cbn [is_empty negb].
    rewrite andb_false_r. cbn [andb].
    split; [discriminate|intros [H _]; discriminate H].
  - assert (He : is_empty (strip ans) = false).
    { destruct (is_empty (strip ans)) eqn:He; [|reflexivity].
      apply strip_empty_all_space in He. rewrite He in Hs. discriminate Hs. }
    assert (Ha : is_empty ans = false) by (destruct ans; [discriminate Hs|reflexivity]).
    rewrite He, Ha. cbn [negb andb].
    destruct (String.eqb (strip ans) "I don't know.") eqn:Hq; cbn [negb].
    + apply String.eqb_eq in Hq.
      split; [discriminate|intros [_ H]; contradiction (H Hq)].
    + apply String.eqb_neq in Hq. split; auto.
Qed.

(** X26. With citations required, the smoke test passes every answer that
    [rag_answer] returns together with sources, whatever the model
    wrote: also its refusal, to which [rag_answer] has appended [[1]]. *)
Theorem smoke_passes_with_sources (E : env) (q : string) (s : mode)
    (alpha : float) (k : Z) (w w' : world) (ans src : string)
    (d : BackendCore.diagnostics) :
  BackendCore.rag_answer E q s alpha k true w = (Returned (ans, src, d), w') ->
  is_empty src = false ->
  SmokeTest.passes true ans = true.
Proof.
  intros Hrun Hsrc. rewrite passes_cited.
  destruct (BackendCore._query E q k s alpha w) as [[hits|e] w1] eqn:Hq.
  - rewrite (rag_answer_after_query E q s alpha k true w hits w1 Hq) in Hrun.
    destruct (BackendCore._ok E hits s);
      [|injection Hrun as <- <- <- <-; discriminate].
    destruct (BackendCore.generate E q _ w1) as [[a|e] w2];
      [|injection Hrun as <- <- <- <-; discriminate].
    assert (Hv : BackendCore.validate true a (snd (BackendCore._ctx hits))
                   (diag_of E hits s alpha k) = (ans, src, d))
      by congruence.
    apply (validate_sources _ _ _ _ _ _ _ Hv Hsrc). reflexivity.
  - unfold BackendCore.rag_answer, bind at 1 in Hrun. rewrite Hq in Hrun.
    discriminate.
Qed.

Lemma smoke_passes_with_sources_witness :
  SmokeTest.passes true "I don't know. [1]" = true.
Proof.
  apply (smoke_passes_with_sources (answering "I don't know.") "q" hybrid 0.4 10
           fresh _ _ _ _ eq_refl eq_refl).
Defined.
